(** * ARQ_AI_DocInsight: the ingestion helpers, the CLI runner and the run logger

    A shallow embedding of
      - [src/agents/ingestion_agent/ingestion_agent.py]
          ([list_input_files], [ingest_file_from_path]),
      - [main.py] ([run_ingestion], [main]),
      - [src/core/logging_utils.py]
          ([_build_run_log_paths], [configure_run_logger]),
      - [ui/app.py]
          ([ensure_input_dir], [save_uploaded_file],
           [get_existing_files_metadata]),
    together with the parts of the Python runtime these functions call:
    [str] methods, [pathlib], the file tree behind [os.stat] / [os.listdir],
    [uuid.uuid4] and the root logger of [logging].

    Python code that raises and mutates is embedded in a state-and-exception
    monad over a [World]; a raised exception keeps the state changes made
    before it, as in Python. *)

From Stdlib Require Import ZArith NArith Ascii String Strings.Byte.
From stdpp Require Import base tactics option list strings gmap sorting.

Local Open Scope string_scope.

(** ** Python [str] methods used by the sources

    A Python [str] is modelled by a Rocq [string]; a character is a code
    point below 256 (the Latin-1 block of Unicode). *)
Module PyStr.

Fixpoint mem_char (c : ascii) (chars : string) : bool :=
  match chars with
  | EmptyString => false
  | String d chars' => if Ascii.eqb c d then true else mem_char c chars'
  end.

(** [s.lstrip(chars)]: drop the longest prefix made of characters of
    [chars]. *)
Fixpoint lstrip (chars s : string) : string :=
  match s with
  | EmptyString => EmptyString
  | String c s' => if mem_char c chars then lstrip chars s' else s
  end.

(** [c.lower()] on code points below 256: A-Z and the Latin-1 capitals
    U+00C0..U+00DE (U+00D7, the multiplication sign, is not a letter)
    move up by 32; every other code point is its own lowercase. *)
Definition lower_char (c : ascii) : ascii :=
  let n := N_of_ascii c in
  if ((65 <=? n) && (n <=? 90)
      || (192 <=? n) && (n <=? 222) && negb (n =? 215))%N
  then ascii_of_N (n + 32) else c.

Fixpoint lower (s : string) : string :=
  match s with
  | EmptyString => EmptyString
  | String c s' => String (lower_char c) (lower s')
  end.

Fixpoint rfind_from (c : ascii) (s : string) (i last : Z) : Z :=
  match s with
  | EmptyString => last
  | String d s' =>
      rfind_from c s' (i + 1)%Z (if Ascii.eqb d c then i else last)
  end.

(** [s.rfind(c)]: the highest index of [c] in [s], or -1. *)
Definition rfind (c : ascii) (s : string) : Z := rfind_from c s 0%Z (-1)%Z.

(** The slices [s[n:]] and [s[:n]] for [n >= 0]. *)
Fixpoint drop (n : nat) (s : string) : string :=
  match n, s with
  | O, _ => s
  | S _, EmptyString => EmptyString
  | S n', String _ s' => drop n' s'
  end.

Fixpoint take (n : nat) (s : string) : string :=
  match n, s with
  | O, _ => EmptyString
  | S _, EmptyString => EmptyString
  | S n', String c s' => String c (take n' s')
  end.

(** [sep.join(l)]. *)
Fixpoint join (sep : string) (l : list string) : string :=
  match l with
  | [] => ""
  | [x] => x
  | x :: l' => x +:+ sep +:+ join sep l'
  end.

(** [s.split(sep)] for a one-character separator. *)
Fixpoint split (sep : ascii) (s : string) : list string :=
  match s with
  | EmptyString => [""]
  | String c s' =>
      if Ascii.eqb c sep then "" :: split sep s'
      else match split sep s' with
           | [] => [String c ""]
           | h :: t => String c h :: t
           end
  end.

Definition startswith (c : ascii) (s : string) : bool :=
  match s with
  | String d _ => Ascii.eqb d c
  | EmptyString => false
  end.

End PyStr.

(** ** [pathlib.PurePosixPath]

    A path is the list of its components below the file-system root: the
    sources only build absolute paths ([Path(__file__).resolve()] and what is
    joined to it).  [".."] is not interpreted, as in pathlib. *)
Abbreviation Path := (list string).

Module pathlib.

(** The components of a string operand of [/]: split at ["/"], empty and
    ["."] components dropped. *)
Definition parse_parts (s : string) : Path :=
  filter (λ c, c ≠ "" ∧ c ≠ ".") (PyStr.split "/" s).

(** [p / s]: an absolute operand replaces [p]. *)
Definition truediv (p : Path) (s : string) : Path :=
  if PyStr.startswith "/" s then parse_parts s else p ++ parse_parts s.

(** [p._make_child_relpath(entry)], what [iterdir] yields for a directory
    entry: the name is appended as it is. *)
Definition child (p : Path) (entry : string) : Path := p ++ [entry].

(** [p.name]: the last component, [''] for the root. *)
Definition name (p : Path) : string := default "" (last p).

(** [p.suffix] (CPython 3.12, [pathlib.PurePath.suffix]):
<<
    name = self.name
    i = name.rfind('.')
    if 0 < i < len(name) - 1: return name[i:]
    else: return ''
>> *)
Definition suffix (p : Path) : string :=
  let nm := name p in
  let i := PyStr.rfind "." nm in
  if ((0 <? i) && (i <? Z.of_nat (String.length nm) - 1))%Z
  then PyStr.drop (Z.to_nat i) nm
  else "".

(** [str(p)]. *)
Definition str (p : Path) : string := "/" +:+ PyStr.join "/" p.

(** Paths compare as the sequences of their components, components as
    strings, code point by code point. *)
Fixpoint compare (p q : Path) : comparison :=
  match p, q with
  | [], [] => Eq
  | [], _ :: _ => Lt
  | _ :: _, [] => Gt
  | a :: p', b :: q' =>
      match String.compare a b with
      | Eq => compare p' q'
      | c => c
      end
  end.

(** [p <= q]. *)
Definition le (p q : Path) : Prop := compare p q ≠ Gt.

Global Instance le_dec : RelDecision le.
Proof. intros p q. unfold le. apply _. Defined.

End pathlib.

(** ** Exceptions *)
Inductive ExnClass :=
| FileNotFoundError
| NotADirectoryError
| IsADirectoryError
| FileExistsError
| PermissionError
| KeyError.

Global Instance ExnClass_eq_dec : EqDecision ExnClass.
Proof. solve_decision. Defined.

Record Exn := mkExn { exn_class : ExnClass; exn_msg : string }.

Global Instance Exn_eq_dec : EqDecision Exn.
Proof. solve_decision. Defined.

(** ** The file tree

    What [stat], [listdir] and [open] see.  Symbolic links are followed, so a
    node is what the link resolves to; [Dangling] is a link whose target is
    missing: its directory lists it, [stat] does not find it, and opening it
    for writing creates the target (the directory of the target is taken to
    exist).

    [File] is a regular file of an ordinary file system: [stat] reports the
    length of its content as its size.  [Virtual] is a regular file of a
    virtual file system, as the entries of [/proc/sys] that describe the
    running kernel: [stat] says it is a regular file and reports
    [reported_size] (0 in procfs), a read returns [content], and it cannot be
    opened for writing.

    The tree has no permissions: every directory can be searched and listed
    and every [File] can be read.  Names are plain: no component is [".."];
    the lookup does not interpret it. *)
#[warnings="-register-all"]
Inductive Node :=
| File (content : list byte)
| Dir (entries : list (string * Node))
| Special
| Dangling
| Virtual (content : list byte) (reported_size : Z).

Module OS.

Fixpoint assoc (nm : string) (es : list (string * Node)) : option Node :=
  match es with
  | [] => None
  | (k, n) :: es' => if decide (k = nm) then Some n else assoc nm es'
  end.

Fixpoint walk (n : Node) (p : Path) : option Node :=
  match p with
  | [] => Some n
  | c :: p' =>
      match n with
      | Dir es => match assoc c es with
                  | Some n' => walk n' p'
                  | None => None
                  end
      | _ => None
      end
  end.

(** [os.stat(p)]: the node at [p], if there is one. *)
Definition stat (root : Node) (p : Path) : option Node :=
  match walk root p with
  | Some Dangling => None
  | r => r
  end.

Definition exists_ (root : Node) (p : Path) : bool :=
  match stat root p with Some _ => true | None => false end.

Definition is_dir (root : Node) (p : Path) : bool :=
  match stat root p with Some (Dir _) => true | _ => false end.

Definition is_file (root : Node) (p : Path) : bool :=
  match stat root p with
  | Some (File _) | Some (Virtual _ _) => true
  | _ => false
  end.

(** [st_size]: the length of an ordinary file's content, what the virtual
    file system reports for one of its files; 0 is reported for the other
    kinds of node. *)
Definition st_size (n : Node) : Z :=
  match n with
  | File content => Z.of_nat (length content)
  | Virtual _ reported_size => reported_size
  | _ => 0%Z
  end.

Definition enoent (p : Path) : Exn :=
  mkExn FileNotFoundError
    ("[Errno 2] No such file or directory: '" +:+ pathlib.str p +:+ "'").
Definition enotdir (p : Path) : Exn :=
  mkExn NotADirectoryError
    ("[Errno 20] Not a directory: '" +:+ pathlib.str p +:+ "'").
Definition eisdir (p : Path) : Exn :=
  mkExn IsADirectoryError
    ("[Errno 21] Is a directory: '" +:+ pathlib.str p +:+ "'").
Definition eexist (p : Path) : Exn :=
  mkExn FileExistsError
    ("[Errno 17] File exists: '" +:+ pathlib.str p +:+ "'").
Definition eacces (p : Path) : Exn :=
  mkExn PermissionError
    ("[Errno 13] Permission denied: '" +:+ pathlib.str p +:+ "'").

(** [os.listdir(p)]: the entry names, in the order the directory has
    them. *)
Definition listdir (root : Node) (p : Path) : Exn + list string :=
  match stat root p with
  | Some (Dir es) => inr (es.*1)
  | Some _ => inl (enotdir p)
  | None => inl (enoent p)
  end.

(** [open(p, 'rb').read()]; a special file reads as empty, as [/dev/null]
    does. *)
Definition read (root : Node) (p : Path) : Exn + list byte :=
  match stat root p with
  | Some (File content) | Some (Virtual content _) => inr content
  | Some (Dir _) => inl (eisdir p)
  | Some _ => inr []
  | None => inl (enoent p)
  end.

Fixpoint set_entry (nm : string) (n : Node) (es : list (string * Node))
  : list (string * Node) :=
  match es with
  | [] => [(nm, n)]
  | (k, m) :: es' =>
      if decide (k = nm) then (k, n) :: es' else (k, m) :: set_entry nm n es'
  end.

(** [Path.mkdir(parents=True, exist_ok=True)] on the tree under [n]:
    missing directories are created along [p]; a component that exists
    and is not a directory stops it, with [FileExistsError] at the end of
    [p] and [NotADirectoryError] on the way; a broken link on the way is
    met when its turn to be created comes, and [FileExistsError] names
    it. *)
Fixpoint makedirs (whole : Path) (n : Node) (p : Path) : Exn + Node :=
  match p with
  | [] => match n with
          | Dir _ => inr n
          | _ => inl (eexist whole)
          end
  | c :: p' =>
      match n with
      | Dir es =>
          match makedirs whole (default (Dir []) (assoc c es)) p' with
          | inr n' => inr (Dir (set_entry c n' es))
          | inl e => inl e
          end
      | Dangling => inl (eexist (take (length whole - length p) whole))
      | _ => inl (enotdir whole)
      end
  end.

(** [open(p, 'a')]: the file is created empty when it is missing, left as
    it is when it exists; the directory that holds it must exist. *)
Fixpoint open_append (whole : Path) (n : Node) (p : Path) : Exn + Node :=
  match p with
  | [] => match n with
          | Dir _ => inl (eisdir whole)
          | Dangling => inr (File [])
          | Virtual _ _ => inl (eacces whole)
          | _ => inr n
          end
  | c :: p' =>
      match n with
      | Dir es =>
          match assoc c es, p' with
          | None, [] => inr (Dir (set_entry c (File []) es))
          | None, _ :: _ => inl (enoent whole)
          | Some n', _ =>
              match open_append whole n' p' with
              | inr n'' => inr (Dir (set_entry c n'' es))
              | inl e => inl e
              end
          end
      | Dangling => inl (enoent whole)
      | _ => inl (enotdir whole)
      end
  end.

(** [open(p, 'wb')] followed by [write(data)]: the file is created or
    truncated and holds [data]; the directory that holds it must exist; a
    special file swallows the data, as a device does. *)
Fixpoint write (whole : Path) (n : Node) (p : Path) (data : list byte)
  : Exn + Node :=
  match p with
  | [] => match n with
          | Dir _ => inl (eisdir whole)
          | Special => inr Special
          | Virtual _ _ => inl (eacces whole)
          | _ => inr (File data)
          end
  | c :: p' =>
      match n with
      | Dir es =>
          match assoc c es, p' with
          | None, [] => inr (Dir (set_entry c (File data) es))
          | None, _ :: _ => inl (enoent whole)
          | Some n', _ =>
              match write whole n' p' data with
              | inr n'' => inr (Dir (set_entry c n'' es))
              | inl e => inl e
              end
          end
      | Dangling => inl (enoent whole)
      | _ => inl (enotdir whole)
      end
  end.

End OS.

(** ** Values, dictionaries, log records *)
Inductive PyVal :=
| VStr (s : string)
| VInt (z : Z)
| VBytes (b : list byte).

(** The [Dict[str, object]] that the ingestor returns. *)
Abbreviation Dict := (gmap string PyVal).

Inductive Arg :=
| APath (p : Path)
| AStr (s : string)
| AStrs (l : list string)
| AInt (z : Z)
| AVal (v : PyVal)
| AExn (e : Exn).

Record LogRecord := mkLogRecord {
  levelno : Z;
  logger_name : string;
  msg : string;
  args : list Arg
}.

Inductive HandlerKind :=
| FileHandler (filename : Path)
| StreamHandler.

(** A handler object; [hid] is its identity. *)
Record Handler := mkHandler {
  hid : nat;
  hkind : HandlerKind;
  hformat : string
}.

Global Instance HandlerKind_eq_dec : EqDecision HandlerKind.
Proof. solve_decision. Defined.
Global Instance Handler_eq_dec : EqDecision Handler.
Proof. solve_decision. Defined.

Record DateTime := mkDateTime {
  year : nat; month : nat; day : nat;
  hour : nat; minute : nat; second : nat
}.

(** ** What the program does to the outside, in order *)
Inductive Syscall :=
| SysExists (p : Path)
| SysIsDir (p : Path)
| SysIsFile (p : Path)
| SysListdir (p : Path)
| SysRead (p : Path)
| SysStat (p : Path)
| SysMkdir (p : Path)
| SysOpenAppend (p : Path)
| SysWrite (p : Path)
| SysUrandom (nbytes : nat)
| SysNow.

(** A call of a logging method: the record, and the handlers it was handed
    to; [None] when the level of the logger filtered it out. *)
Inductive Event :=
| ESys (c : Syscall)
| ELog (r : LogRecord) (sinks : option (list Handler)).

(** ** The world

    [fs] is the file tree and [install_dir] the directory that holds
    [main.py].  The program is not alone: before its [t]-th call to the
    outside, other processes may have replaced the tree by [n], which is
    [env t = Some n].  [urandom] and [localtime] are what the operating system
    answers at that moment.  [root_level], [root_handlers] are the root
    logger of [logging]; [closed] collects the handlers on which [close()]
    was called; [trace] is the history. *)
Record World := mkWorld {
  fs : Node;
  install_dir : Path;
  ticks : nat;
  env : nat → option Node;
  urandom : nat → N;
  localtime : nat → DateTime;
  root_level : Z;
  root_handlers : list Handler;
  closed : list Handler;
  next_hid : nat;
  trace : list Event
}.

Definition emit (e : Event) (w : World) : World :=
  mkWorld (fs w) (install_dir w) (ticks w) (env w) (urandom w) (localtime w)
    (root_level w) (root_handlers w) (closed w) (next_hid w) (trace w ++ [e]).

(** One call to the outside: the tree is what the others left, time moves
    on, the call is recorded. *)
Definition os_step (c : Syscall) (w : World) : World :=
  mkWorld (default (fs w) (env w (ticks w))) (install_dir w) (S (ticks w))
    (env w) (urandom w) (localtime w)
    (root_level w) (root_handlers w) (closed w) (next_hid w)
    (trace w ++ [ESys c]).

Definition set_fs (n : Node) (w : World) : World :=
  mkWorld n (install_dir w) (ticks w) (env w) (urandom w) (localtime w)
    (root_level w) (root_handlers w) (closed w) (next_hid w) (trace w).

Definition set_root_level (l : Z) (w : World) : World :=
  mkWorld (fs w) (install_dir w) (ticks w) (env w) (urandom w) (localtime w)
    l (root_handlers w) (closed w) (next_hid w) (trace w).

Definition set_root_handlers (hs : list Handler) (w : World) : World :=
  mkWorld (fs w) (install_dir w) (ticks w) (env w) (urandom w) (localtime w)
    (root_level w) hs (closed w) (next_hid w) (trace w).

Definition add_closed (h : Handler) (w : World) : World :=
  mkWorld (fs w) (install_dir w) (ticks w) (env w) (urandom w) (localtime w)
    (root_level w) (root_handlers w) (closed w ++ [h]) (next_hid w) (trace w).

Definition bump_hid (w : World) : World :=
  mkWorld (fs w) (install_dir w) (ticks w) (env w) (urandom w) (localtime w)
    (root_level w) (root_handlers w) (closed w) (S (next_hid w)) (trace w).

(** ** The monad of Python code: state, and exceptions that keep the state *)
Inductive Result (A : Type) :=
| Ok (a : A)
| Raise (e : Exn).
Arguments Ok {A} a.
Arguments Raise {A} e.

Definition M (A : Type) : Type := World → Result A * World.

Global Instance M_ret : MRet M := λ A a w, (Ok a, w).

Global Instance M_bind : MBind M := λ A B k m w,
  match m w with
  | (Ok a, w') => k a w'
  | (Raise e, w') => (Raise e, w')
  end.

Definition raise {A} (e : Exn) : M A := λ w, (Raise e, w).

(** [try: m  except classes as exc: handler exc]. *)
Definition try_except {A} (m : M A) (classes : list ExnClass)
    (handler : Exn → M A) : M A := λ w,
  match m w with
  | (Ok a, w') => (Ok a, w')
  | (Raise e, w') =>
      if decide (exn_class e ∈ classes) then handler e w' else (Raise e, w')
  end.

(** [for x in xs: body], [s] being the variables the body assigns. *)
Fixpoint for_in {A S} (xs : list A) (body : A → S → M S) (s : S) : M S :=
  match xs with
  | [] => mret s
  | x :: xs' => s' ← body x s; for_in xs' body s'
  end.

(** [d[key]]. *)
Definition getitem (d : Dict) (key : string) : M PyVal :=
  match d !! key with
  | Some v => mret v
  | None => raise (mkExn KeyError ("'" +:+ key +:+ "'"))
  end.

(** ** [pathlib.Path]: the methods that touch the file system *)
Module Path.

Definition exists_ (p : Path) : M bool := λ w,
  let w' := os_step (SysExists p) w in (Ok (OS.exists_ (fs w') p), w').

Definition is_dir (p : Path) : M bool := λ w,
  let w' := os_step (SysIsDir p) w in (Ok (OS.is_dir (fs w') p), w').

Definition is_file (p : Path) : M bool := λ w,
  let w' := os_step (SysIsFile p) w in (Ok (OS.is_file (fs w') p), w').

(** [list(p.iterdir())]: one [os.listdir], then a child path per name. *)
Definition iterdir (p : Path) : M (list Path) := λ w,
  let w' := os_step (SysListdir p) w in
  match OS.listdir (fs w') p with
  | inr names => (Ok (pathlib.child p <$> names), w')
  | inl e => (Raise e, w')
  end.

Definition read_bytes (p : Path) : M (list byte) := λ w,
  let w' := os_step (SysRead p) w in
  match OS.read (fs w') p with
  | inr content => (Ok content, w')
  | inl e => (Raise e, w')
  end.

(** [p.stat().st_size]. *)
Definition stat_size (p : Path) : M Z := λ w,
  let w' := os_step (SysStat p) w in
  match OS.stat (fs w') p with
  | Some n => (Ok (OS.st_size n), w')
  | None => (Raise (OS.enoent p), w')
  end.

(** [p.mkdir(parents=True, exist_ok=True)]. *)
Definition mkdir (p : Path) : M unit := λ w,
  let w' := os_step (SysMkdir p) w in
  match OS.makedirs p (fs w') p with
  | inr n => (Ok (), set_fs n w')
  | inl e => (Raise e, w')
  end.

(** [p.write_bytes(data)]. *)
Definition write_bytes (p : Path) (data : list byte) : M unit := λ w,
  let w' := os_step (SysWrite p) w in
  match OS.write p (fs w') p data with
  | inr n' => (Ok (), set_fs n' w')
  | inl e => (Raise e, w')
  end.

End Path.

(** ** [datetime] *)
Module datetime.

Definition now : M DateTime := λ w,
  (Ok (localtime w (ticks w)), os_step SysNow w).

Definition digit (n : nat) : ascii := ascii_of_nat (48 + n mod 10).

(** [n] in decimal on [width] digits, zero-padded; the fields of a
    [datetime] fit their widths. *)
Fixpoint zfill (width n : nat) : string :=
  match width with
  | O => ""
  | S width' => zfill width' (n / 10) +:+ String (digit n) ""
  end.

(** [d.strftime("%Y%m%d")] and [d.strftime("%Y%m%d_%H%M%S")]. *)
Definition strftime_Ymd (d : DateTime) : string :=
  zfill 4 (year d) +:+ zfill 2 (month d) +:+ zfill 2 (day d).

Definition strftime_Ymd_HMS (d : DateTime) : string :=
  strftime_Ymd d +:+ "_"
    +:+ zfill 2 (hour d) +:+ zfill 2 (minute d) +:+ zfill 2 (second d).

End datetime.

(** ** [uuid] *)
Module uuid.

(** [UUID(bytes=os.urandom(16), version=4)]: 128 random bits with the
    variant and version fields overwritten. *)
Definition set_version4 (int : N) : N :=
  let int := N.ldiff int (N.shiftl 0xc000 48) in
  let int := N.lor int (N.shiftl 0x8000 48) in
  let int := N.ldiff int (N.shiftl 0xf000 64) in
  N.lor int (N.shiftl 4 76).

Definition uuid4 : M N := λ w,
  (Ok (set_version4 (urandom w (ticks w) mod 2 ^ 128)%N),
   os_step (SysUrandom 16) w).

Definition hex_char (n : N) : ascii :=
  default "0"%char (String.get (N.to_nat n) "0123456789abcdef").

(** ['%0<width>x' % int] for [int < 16 ^ width]. *)
Fixpoint hex_fixed (width : nat) (int : N) : string :=
  match width with
  | O => ""
  | S width' =>
      String (hex_char (N.shiftr int (4 * N.of_nat width') mod 16)%N)
             (hex_fixed width' int)
  end.

(** [u.hex]. *)
Definition hex (u : N) : string := hex_fixed 32 u.

End uuid.

(** ** [logging] *)
Module logging.

Definition DEBUG : Z := 10.
Definition INFO : Z := 20.
Definition WARNING : Z := 30.
Definition ERROR : Z := 40.

Definition BASIC_FORMAT : string := "%(levelname)s:%(name)s:%(message)s".

(** [Logger.log] of a logger that has no level and no handler of its own
    (the root itself, or a module logger below it): the root's level
    decides, the root's handlers receive. *)
Definition Logger_log (name : string) (level : Z) (msg : string)
    (args : list Arg) : M unit := λ w,
  (Ok (),
   emit (ELog (mkLogRecord level name msg args)
              (if decide (root_level w ≤ level)%Z
               then Some (root_handlers w) else None)) w).

(** A new handler object with its formatter set. *)
Definition new_handler (kind : HandlerKind) (fmt : string) : M Handler :=
  λ w, (Ok (mkHandler (next_hid w) kind fmt), bump_hid w).

(** [root.addHandler(h)]. *)
Definition addHandler (h : Handler) : M unit := λ w,
  (Ok (),
   if decide (h ∈ root_handlers w) then w
   else set_root_handlers (root_handlers w ++ [h]) w).

Fixpoint remove_first (h : Handler) (hs : list Handler) : list Handler :=
  match hs with
  | [] => []
  | h' :: hs' => if decide (h' = h) then hs' else h' :: remove_first h hs'
  end.

(** [root.removeHandler(h)]. *)
Definition removeHandler (h : Handler) : M unit := λ w,
  (Ok (),
   if decide (h ∈ root_handlers w)
   then set_root_handlers (remove_first h (root_handlers w)) w
   else w).

(** [h.close()]. *)
Definition close (h : Handler) : M unit := λ w, (Ok (), add_closed h w).

Definition setLevel (level : Z) : M unit := λ w,
  (Ok (), set_root_level level w).

(** [logging.FileHandler(filename, encoding="utf-8")] followed by
    [setFormatter]: the file is opened for appending at once. *)
Definition new_FileHandler (filename : Path) (fmt : string) : M Handler :=
  λ w,
  let w' := os_step (SysOpenAppend filename) w in
  match OS.open_append filename (fs w') filename with
  | inr n => new_handler (FileHandler filename) fmt (set_fs n w')
  | inl e => (Raise e, w')
  end.

(** [logging.StreamHandler()] followed by [setFormatter]. *)
Definition new_StreamHandler (fmt : string) : M Handler :=
  new_handler StreamHandler fmt.

(** [logging.basicConfig()]: with no handler on the root, a stream handler
    is attached. *)
Definition basicConfig : M unit := λ w,
  match root_handlers w with
  | [] => (h ← new_StreamHandler BASIC_FORMAT; addHandler h) w
  | _ :: _ => (Ok (), w)
  end.

(** The module-level [logging.info], [logging.warning], [logging.error]:
<<
    if len(root.handlers) == 0: basicConfig()
    root.info(msg, *args)
>> *)
Definition log (level : Z) (msg : string) (args : list Arg) : M unit :=
  hs ← (λ w, (Ok (root_handlers w), w));
  (if hs is [] then basicConfig else mret ());;
  Logger_log "root" level msg args.

Definition info := log INFO.
Definition warning := log WARNING.
Definition error := log ERROR.

End logging.

(** ** [src/agents/ingestion_agent/ingestion_agent.py] *)

(** [logger = logging.getLogger(__name__)]. *)
Definition logger : string := "src.agents.ingestion_agent.ingestion_agent".

Definition DEFAULT_ALLOWED_EXTENSIONS : list string :=
  ["pdf"; "txt"; "docx"; "csv"; "xlsx"].

Definition list_input_files (input_dir : Path)
    (allowed_extensions : option (list string)) : M (list Path) :=
  logging.Logger_log logger logging.INFO
    "Listing input files in directory: %s" [APath input_dir];;
  ex ← Path.exists_ input_dir;
  if negb ex then
    logging.Logger_log logger logging.ERROR
      "Input directory %s was not found." [APath input_dir];;
    raise (mkExn FileNotFoundError
             ("Input directory '" +:+ pathlib.str input_dir
                +:+ "' was not found."))
  else
  isd ← Path.is_dir input_dir;
  if negb isd then
    logging.Logger_log logger logging.ERROR
      "Path %s is not a directory." [APath input_dir];;
    raise (mkExn NotADirectoryError
             ("'" +:+ pathlib.str input_dir +:+ "' is not a directory."))
  else
  let allowed :=
    match allowed_extensions with
    | Some l => l
    | None => DEFAULT_ALLOWED_EXTENSIONS
    end in
  logging.Logger_log logger logging.DEBUG
    "Allowed extensions resolved to: %s" [AStrs allowed];;
  let normalized_exts : gset string :=
    list_to_set ((λ ext, PyStr.lower (PyStr.lstrip "." ext)) <$> allowed) in
  entries ← Path.iterdir input_dir;
  matching_files ←
    for_in entries (λ file_path (matching_files : list Path),
      isf ← Path.is_file file_path;
      if negb isf then
        logging.Logger_log logger logging.DEBUG
          "Skipping non-file entry: %s" [APath file_path];;
        mret matching_files
      else
      let ext := PyStr.lower (PyStr.lstrip "." (pathlib.suffix file_path)) in
      logging.Logger_log logger logging.DEBUG
        "Evaluating file %s with extension %s" [APath file_path; AStr ext];;
      if decide (ext ∈ normalized_exts) then
        logging.Logger_log logger logging.INFO
          "Queued file for ingestion: %s" [APath file_path];;
        mret (matching_files ++ [file_path])%list
      else
        logging.Logger_log logger logging.DEBUG
          "Skipping file %s due to unsupported extension." [APath file_path];;
        mret matching_files) [];
  let ordered_files := merge_sort pathlib.le matching_files in
  logging.Logger_log logger logging.INFO
    "Found %d eligible file(s) in %s"
    [AInt (Z.of_nat (length ordered_files)); APath input_dir];;
  mret ordered_files.

Definition ingest_file_from_path (path : Path) : M Dict :=
  logging.Logger_log logger logging.INFO
    "Ingesting file at path: %s" [APath path];;
  ex ← Path.exists_ path;
  if negb ex then
    logging.Logger_log logger logging.ERROR
      "File %s does not exist." [APath path];;
    raise (mkExn FileNotFoundError
             ("File '" +:+ pathlib.str path +:+ "' does not exist."))
  else
  isf ← Path.is_file path;
  if negb isf then
    logging.Logger_log logger logging.ERROR
      "Path %s is not a file." [APath path];;
    raise (mkExn IsADirectoryError
             ("'" +:+ pathlib.str path +:+ "' is not a file."))
  else
  content_bytes ← Path.read_bytes path;
  let extension := PyStr.lower (PyStr.lstrip "." (pathlib.suffix path)) in
  st_size ← Path.stat_size path;
  logging.Logger_log logger logging.DEBUG
    "File metadata - name: %s, extension: %s, size_bytes: %d"
    [AStr (pathlib.name path); AStr extension; AInt st_size];;
  u ← uuid.uuid4;
  let ingestion_result : Dict :=
    <["file_id" := VStr ("F-" +:+ PyStr.take 8 (uuid.hex u))]>
    (<["name" := VStr (pathlib.name path)]>
    (<["extension" := VStr extension]>
    (<["source" := VStr "local_folder"]>
    (<["path" := VStr (pathlib.str path)]>
    (<["size_bytes" := VInt st_size]>
    (<["content_bytes" := VBytes content_bytes]> ∅)))))) in
  logging.Logger_log logger logging.INFO
    "File %s ingested successfully." [APath path];;
  mret ingestion_result.

(** ** [src/core/logging_utils.py] *)

Definition LOG_FORMAT : string :=
  "%(asctime)s | %(levelname)s | %(name)s | %(message)s".

(** [Path(__file__).resolve().parents[2]]: the directory that holds
    [main.py] and [src/]. *)
Definition _project_root : M Path := λ w, (Ok (install_dir w), w).

Definition _build_run_log_paths (app_name : string) : M (Path * Path) :=
  now ← datetime.now;
  let date_segment := datetime.strftime_Ymd now in
  let run_segment := datetime.strftime_Ymd_HMS now in
  root ← _project_root;
  let logs_root := pathlib.truediv root "logs" in
  let run_dir :=
    pathlib.truediv (pathlib.truediv logs_root date_segment)
      (app_name +:+ "_" +:+ run_segment) in
  let log_file :=
    pathlib.truediv run_dir (app_name +:+ "_" +:+ run_segment +:+ ".log") in
  mret (run_dir, log_file).

Definition configure_run_logger (app_name : string) (level : Z) : M Path :=
  '(run_dir, log_file) ← _build_run_log_paths app_name;
  Path.mkdir run_dir;;
  handlers ← (λ w, (Ok (root_handlers w), w));
  for_in handlers (λ handler _,
    logging.removeHandler handler;;
    logging.close handler) ();;
  logging.setLevel level;;
  file_handler ← logging.new_FileHandler log_file LOG_FORMAT;
  logging.addHandler file_handler;;
  console_handler ← logging.new_StreamHandler LOG_FORMAT;
  logging.addHandler console_handler;;
  logging.Logger_log "root" logging.INFO
    "Logging initialised; writing file logs to %s" [APath log_file];;
  mret log_file.

(** ** [main.py] *)

Definition run_ingestion (input_dir : Path) : M (list Dict) :=
  logging.info "Starting ingestion run for directory: %s" [APath input_dir];;
  files ← list_input_files input_dir None;
  if files is [] then
    logging.warning "No eligible files found in %s" [APath input_dir];;
    mret []
  else
  ingested_results ←
    for_in files (λ file_path (ingested_results : list Dict),
      logging.info "Ingesting %s" [APath file_path];;
      r ← ingest_file_from_path file_path;
      mret (ingested_results ++ [r])%list) [];
  logging.info "Completed ingestion run. %d file(s) processed."
    [AInt (Z.of_nat (length ingested_results))];;
  mret ingested_results.

(** The classes of [except (FileNotFoundError, NotADirectoryError)]. *)
Definition main_except : list ExnClass :=
  [FileNotFoundError; NotADirectoryError].

Definition main : M () :=
  project_root ← (λ w, (Ok (install_dir w), w));
  let input_dir := pathlib.truediv project_root "input" in
  log_file ← configure_run_logger "cli_ingestion" logging.INFO;
  logging.info "CLI logging initialised. Run log file: %s" [APath log_file];;
  outcome ←
    try_except (ingested_files ← run_ingestion input_dir;
                mret (Some ingested_files)) main_except
      (λ exc, logging.error "Ingestion failed: %s" [AExn exc];; mret None);
  match outcome with
  | None => mret ()
  | Some ingested_files =>
      for_in ingested_files (λ file_info _,
        name ← getitem file_info "name";
        extension ← getitem file_info "extension";
        file_id ← getitem file_info "file_id";
        size_bytes ← getitem file_info "size_bytes";
        logging.info "Ingested file '%s' (%s) with id=%s size=%d bytes"
          [AVal name; AVal extension; AVal file_id; AVal size_bytes]) ()
  end.

(** ** [ui/app.py]: the helpers of the dashboard that work on files *)

(** [LOGGER = logging.getLogger(__name__)] of the script Streamlit runs. *)
Definition LOGGER : string := "__main__".

(** [INPUT_DIR = PROJECT_ROOT / "input"], [PROJECT_ROOT] being the
    directory above [ui/]. *)
Definition INPUT_DIR : M Path := λ w,
  (Ok (pathlib.truediv (install_dir w) "input"), w).

Definition ensure_input_dir : M Path :=
  input_dir ← INPUT_DIR;
  Path.mkdir input_dir;;
  logging.Logger_log LOGGER logging.DEBUG
    "Ensured input directory exists at %s" [APath input_dir];;
  mret input_dir.

(** What [save_uploaded_file] uses of Streamlit's [UploadedFile]: [name]
    and [getbuffer()]. *)
Record UploadedFile := mkUploadedFile {
  uf_name : string;
  uf_buffer : list byte
}.

Definition save_uploaded_file (uploaded_file : UploadedFile) : M Path :=
  dir ← ensure_input_dir;
  let destination := pathlib.truediv dir (uf_name uploaded_file) in
  Path.write_bytes destination (uf_buffer uploaded_file);;
  logging.Logger_log LOGGER logging.INFO
    "Persisted uploaded file to %s" [APath destination];;
  mret destination.

(** The triple [(metadata, message, is_error)]. *)
Definition get_existing_files_metadata
    : M (list Dict * option string * bool) :=
  input_dir ← INPUT_DIR;
  outcome ←
    try_except (files ← list_input_files input_dir None; mret (inl files))
      [FileNotFoundError; NotADirectoryError]
      (λ exc,
         if decide (exn_class exc = FileNotFoundError) then
           logging.Logger_log LOGGER logging.INFO
             "Input directory %s is missing; will prompt the user to upload."
             [APath input_dir];;
           mret (inr ([],
                      Some "Input folder does not exist yet. Upload a file to create it.",
                      false))
         else
           logging.Logger_log LOGGER logging.ERROR
             "Input path %s exists but is not a directory." [APath input_dir];;
           mret (inr ([],
                      Some "Configured input path exists but is not a directory.",
                      true)));
  match outcome with
  | inr early => mret early
  | inl files =>
      metadata ←
        for_in files (λ file (metadata : list Dict),
          st_size ← Path.stat_size file;
          mret (metadata ++ [
            (<["name" := VStr (pathlib.name file)]>
            (<["extension" := VStr (PyStr.lstrip "." (pathlib.suffix file))]>
            (<["size_bytes" := VInt st_size]>
            (<["path" := VStr (pathlib.str file)]> ∅))) : Dict)])%list) [];
      mret (metadata, None, false)
  end.

(** ** Vocabulary of the statements *)

(** [ext.lstrip(".").lower()], the expression the lister applies to the
    allow-list and to [file_path.suffix], and the ingestor to
    [path.suffix]. *)
Definition normalized (ext : string) : string :=
  PyStr.lower (PyStr.lstrip "." ext).

(** The allow-set of the lister, [normalized_exts] in the source. *)
Definition allow_set (allowed_extensions : option (list string))
    : gset string :=
  list_to_set
    (normalized <$> default DEFAULT_ALLOWED_EXTENSIONS allowed_extensions).

(** Nobody else changes the file tree while the program runs. *)
Definition quiet (w : World) : Prop := ∀ t, env w t = None.

(** The entry [p] passes the two tests of the lister's loop. *)
Definition eligible (root : Node) (exts : gset string) (p : Path) : Prop :=
  OS.is_file root p = true ∧ normalized (pathlib.suffix p) ∈ exts.

Global Instance eligible_dec root exts p : Decision (eligible root exts p).
Proof. unfold eligible. apply _. Defined.

(** The order of the strings [str(p)]. *)
Definition str_le (p q : Path) : Prop :=
  String.le (pathlib.str p) (pathlib.str q).

(** The sequence of calls to the outside in a piece of history. *)
Definition syscalls (t : list Event) : list Syscall :=
  omap (λ e, match e with ESys c => Some c | ELog _ _ => None end) t.

(** The identifier the ingestor builds from one draw of [os.urandom(16)]. *)
Definition file_id_of (draw : N) : string :=
  "F-" +:+ PyStr.take 8 (uuid.hex (uuid.set_version4 (draw mod 2 ^ 128)%N)).




(** The four errors of the specification, as the sources raise them. *)
Definition DirectoryNotFound (p : Path) : Exn :=
  mkExn FileNotFoundError
    ("Input directory '" +:+ pathlib.str p +:+ "' was not found.").
Definition NotADirectory (p : Path) : Exn :=
  mkExn NotADirectoryError ("'" +:+ pathlib.str p +:+ "' is not a directory.").
Definition FileNotFound (p : Path) : Exn :=
  mkExn FileNotFoundError ("File '" +:+ pathlib.str p +:+ "' does not exist.").
Definition NotAFile (p : Path) : Exn :=
  mkExn IsADirectoryError ("'" +:+ pathlib.str p +:+ "' is not a file.").

(** What a failed precondition check leaves behind: the tree, the root
    logger and the handler objects are as before, and the history grew by
    [t]. *)
Definition only_history (w w' : World) (t : list Event) : Prop :=
  fs w' = fs w ∧ root_level w' = root_level w
  ∧ root_handlers w' = root_handlers w ∧ closed w' = closed w
  ∧ next_hid w' = next_hid w ∧ trace w' = (trace w ++ t)%list.

(** ** A concrete world

    [/proj] holds [main.py]; [/proj/input] holds three documents, a program,
    a directory, a device and a broken link. *)
Definition demo_bytes (s : string) : list byte := String.list_byte_of_string s.

Definition demo_entries : list (string * Node) :=
  [("b.pdf", File (demo_bytes "0123456789"));
   ("ignore.exe", File (demo_bytes "abc"));
   ("sub.txt", Dir []);
   ("REPORT.CSV", File (demo_bytes "x,y"));
   ("pipe.txt", Special);
   ("link.txt", Dangling);
   ("a.txt", File (demo_bytes "hello"))].

Definition demo_tree : Node := Dir [("proj", Dir [("input", Dir demo_entries)])].

Definition demo_input : Path := ["proj"; "input"].

Definition demo_world : World :=
  mkWorld demo_tree ["proj"] 0 (λ _, None)
    (λ t, N.of_nat t * 0x0123456789abcdef0123456789abcdef)%N
    (λ _, mkDateTime 2024 3 7 9 5 1)
    logging.WARNING [] [] 0 [].


(** The two kinds of sink. *)
Definition is_file_sink (h : Handler) : bool :=
  match hkind h with FileHandler _ => true | StreamHandler => false end.
Definition is_console_sink (h : Handler) : bool :=
  match hkind h with FileHandler _ => false | StreamHandler => true end.

(** [called w w']: the process went from [w] to [w'] by calling
    [configure_run_logger] any number of times, each call returning or
    raising. *)
Inductive called : World → World → Prop :=
| called_none w : called w w
| called_more w w1 app_name level :
    called w w1 →
    called w (configure_run_logger app_name level w1).2.

(** Handler objects get their identity when they are made. *)
Definition handlers_known (w : World) : Prop :=
  ∀ h, h ∈ root_handlers w → hid h < next_hid w.

(** The runner's work on one file: the body of its loop, without the
    [append]. *)
Definition ingest_step (file_path : Path) : M Dict :=
  logging.info "Ingesting %s" [APath file_path];;
  ingest_file_from_path file_path.

(** [in_order step xs w res w']: [step] was run on the elements of [xs]
    from left to right, starting in [w]; either every run returned, [res]
    holds the results in that order and [w'] is the world after the last
    one, or a run raised, [res] is its exception, [w'] the world it left,
    and no later element was touched. *)
Inductive in_order {A B} (step : A → M B)
  : list A → World → Result (list B) → World → Prop :=
| in_order_nil w : in_order step [] w (Ok []) w
| in_order_ok x xs w b w1 bs w2 :
    step x w = (Ok b, w1) →
    in_order step xs w1 (Ok bs) w2 →
    in_order step (x :: xs) w (Ok (b :: bs)) w2
| in_order_raise x xs w e w1 :
    step x w = (Raise e, w1) →
    in_order step (x :: xs) w (Raise e) w1
| in_order_later x xs w b w1 e w2 :
    step x w = (Ok b, w1) →
    in_order step xs w1 (Raise e) w2 →
    in_order step (x :: xs) w (Raise e) w2.

(** The first thing the lister does is to log that it lists; the calls of
    the lister in a history are these log calls. *)
Definition is_lister_call (e : Event) : bool :=
  match e with
  | ELog r _ =>
      String.eqb (msg r) "Listing input files in directory: %s"
      && String.eqb (logger_name r) logger
  | ESys _ => false
  end.

Definition lister_calls (t : list Event) : nat :=
  length (filter (λ e, is_lister_call e = true) t).

Definition counts (n : nat) (w : World) : Prop := lister_calls (trace w) = n.

(** Two worlds in which [/proj/input] holds the single file [a.txt] when
    the runner lists it, and another process changes the tree just before
    the ingestor looks at the file (before the eighth call to the outside,
    counted from the start of [main]): in [vanish_world] the file is removed, in
    [swap_world] a directory takes its place. *)
Definition lone_tree (input_entries : list (string * Node)) : Node :=
  Dir [("proj", Dir [("input", Dir input_entries)])].

Definition vanish_world : World :=
  mkWorld (lone_tree [("a.txt", File (demo_bytes "hello"))]) ["proj"] 0
    (λ t, if decide (t = 7) then Some (lone_tree []) else None)
    (λ _, 0%N) (λ _, mkDateTime 2024 3 7 9 5 1)
    logging.WARNING [] [] 0 [].

Definition swap_world : World :=
  mkWorld (lone_tree [("a.txt", File (demo_bytes "hello"))]) ["proj"] 0
    (λ t, if decide (t = 7) then Some (lone_tree [("a.txt", Dir [])])
          else None)
    (λ _, 0%N) (λ _, mkDateTime 2024 3 7 9 5 1)
    logging.WARNING [] [] 0 [].

(** The end-to-end scenario of the specification: [a.txt] (5 bytes),
    [b.pdf] (10 bytes) and [ignore.exe] (3 bytes) in the input directory. *)
Definition scenario_world : World :=
  mkWorld (lone_tree [("ignore.exe", File (demo_bytes "abc"));
                      ("b.pdf", File (demo_bytes "0123456789"));
                      ("a.txt", File (demo_bytes "hello"))]) ["proj"] 0
    (λ _, None) (λ t, N.of_nat t) (λ _, mkDateTime 2024 3 7 9 5 1)
    logging.WARNING [] [] 0 [].

(** The input directory holds [b.pdf] and [a.txt]; another process removes
    [a.txt] between the listing and the ingestion (before the sixth call to
    the outside of a bare [run_ingestion]). *)
Definition abort_world : World :=
  mkWorld (lone_tree [("b.pdf", File (demo_bytes "0123456789"));
                      ("a.txt", File (demo_bytes "hello"))]) ["proj"] 0
    (λ t, if decide (t = 5)
          then Some (lone_tree [("b.pdf", File (demo_bytes "0123456789"))])
          else None)
    (λ t, N.of_nat t) (λ _, mkDateTime 2024 3 7 9 5 1)
    logging.WARNING [] [] 0 [].

(** The directory of [scenario_world], its entries in another order. *)
Definition shuffled_world : World :=
  mkWorld (lone_tree [("a.txt", File (demo_bytes "hello"));
                      ("ignore.exe", File (demo_bytes "abc"));
                      ("b.pdf", File (demo_bytes "0123456789"))]) ["proj"] 0
    (λ _, None) (λ t, N.of_nat t) (λ _, mkDateTime 2024 3 7 9 5 1)
    logging.WARNING [] [] 0 [].

(** The calls that change the file tree. *)
Definition writes (c : Syscall) : bool :=
  match c with
  | SysMkdir _ | SysOpenAppend _ | SysWrite _ => true
  | _ => false
  end.

(** [t] holds no call that changes the file tree. *)
Definition reads_only (t : list Event) : Prop :=
  Forall (λ c, writes c = false) (syscalls t).

(** A property of worlds that logging and reading cannot break: it
    survives a new entry in the log history, a call to the outside that
    does not write, and a new handler on the root logger. *)
Definition stable (P : World → Prop) : Prop :=
  (∀ r sinks w, P w → P (emit (ELog r sinks) w))
  ∧ (∀ c w, writes c = false → P w → P (os_step c w))
  ∧ (∀ w, P w → P (bump_hid w))
  ∧ (∀ hs w, P w → P (set_root_handlers hs w)).

(** [r] describes the regular file at [p] of the tree [root]: its name,
    its path, the size [stat] reports for it and the bytes a read of it
    returns. *)
Definition record_of (root : Node) (p : Path) (r : Dict) : Prop :=
  ∃ n content,
    OS.stat root p = Some n
    ∧ OS.is_file root p = true
    ∧ OS.read root p = inr content
    ∧ r !! "name" = Some (VStr (pathlib.name p))
    ∧ r !! "extension" = Some (VStr (normalized (pathlib.suffix p)))
    ∧ r !! "path" = Some (VStr (pathlib.str p))
    ∧ r !! "size_bytes" = Some (VInt (OS.st_size n))
    ∧ r !! "content_bytes" = Some (VBytes content).

(** The run directory and the log file [_build_run_log_paths] makes up for
    a call at the time [now], [root] being the project root. *)
Definition run_dir_of (root : Path) (app_name : string) (now : DateTime)
    : Path :=
  pathlib.truediv
    (pathlib.truediv (pathlib.truediv root "logs") (datetime.strftime_Ymd now))
    (app_name +:+ "_" +:+ datetime.strftime_Ymd_HMS now).

Definition log_file_of (root : Path) (app_name : string) (now : DateTime)
    : Path :=
  pathlib.truediv (run_dir_of root app_name now)
    (app_name +:+ "_" +:+ datetime.strftime_Ymd_HMS now +:+ ".log").

(** What [datetime.now()] can answer: a date of the common era with four
    digits in its year, a time of the day. *)
Definition valid_datetime (d : DateTime) : Prop :=
  (1000 ≤ year d < 10 ^ 4 ∧ 1 ≤ month d ≤ 12 ∧ 1 ≤ day d ≤ 31
   ∧ hour d < 24 ∧ minute d < 60 ∧ second d < 60)%nat.

(** A name that is one path component and not a reference to a
    directory. *)
Definition plain_name (s : string) : Prop :=
  PyStr.mem_char "/" s = false ∧ s ≠ "" ∧ s ≠ "." ∧ s ≠ "..".

(** Two worlds in which the run logger cannot be set up: in
    [blocked_world] a regular file sits where the directory [logs] should
    be; in [taken_world] a directory has the name of the log file.  A
    console handler is attached to the root logger in both. *)
Definition old_handler : Handler := mkHandler 0 StreamHandler logging.BASIC_FORMAT.

Definition blocked_world : World :=
  mkWorld (Dir [("proj", Dir [("logs", File [])])]) ["proj"] 0 (λ _, None)
    (λ _, 0%N) (λ _, mkDateTime 2024 3 7 9 5 1)
    logging.WARNING [old_handler] [] 1 [].

Definition taken_world : World :=
  mkWorld
    (Dir [("proj", Dir [("logs", Dir [("20240307",
       Dir [("cli_ingestion_20240307_090501",
         Dir [("cli_ingestion_20240307_090501.log", Dir [])])])])])])
    ["proj"] 0 (λ _, None)
    (λ _, 0%N) (λ _, mkDateTime 2024 3 7 9 5 1)
    logging.WARNING [old_handler] [] 1 [].

(** The summary line [main] logs for the record [r]: its arguments. *)
Definition summary_of (r : Dict) : option (list Arg) :=
  name ← r !! "name";
  extension ← r !! "extension";
  file_id ← r !! "file_id";
  size_bytes ← r !! "size_bytes";
  Some [AVal name; AVal extension; AVal file_id; AVal size_bytes].

(** The summary lines in a piece of history, in order. *)
Definition summary_lines (t : list Event) : list (list Arg) :=
  omap (λ e, match e with
             | ELog r _ =>
                 if decide (msg r
                            = "Ingested file '%s' (%s) with id=%s size=%d bytes")
                 then Some (args r) else None
             | ESys _ => None
             end) t.

(** [r] is the row the dashboard shows for the regular file at [p] of the
    tree [root]. *)
Definition row_of (root : Node) (p : Path) (r : Dict) : Prop :=
  ∃ n,
    OS.stat root p = Some n
    ∧ OS.is_file root p = true
    ∧ r = <["name" := VStr (pathlib.name p)]>
          (<["extension" := VStr (PyStr.lstrip "." (pathlib.suffix p))]>
          (<["size_bytes" := VInt (OS.st_size n)]>
          (<["path" := VStr (pathlib.str p)]> ∅))).

(** The files of [dir] that the lister returns with the default
    allow-list, [es] being the entries of [dir] in the tree [root]. *)
Definition listed (root : Node) (dir : Path) (es : list (string * Node))
    : list Path :=
  merge_sort pathlib.le
    (filter (eligible root (allow_set None)) (pathlib.child dir <$> es.*1)).

(** The demo world without its input directory, and with a regular file
    in its place. *)
Definition fresh_world : World :=
  mkWorld (Dir [("proj", Dir [])]) ["proj"] 0 (λ _, None)
    (λ t, N.of_nat t) (λ _, mkDateTime 2024 3 7 9 5 1)
    logging.WARNING [] [] 0 [].

Definition clash_world : World :=
  mkWorld (Dir [("proj", Dir [("input", File [])])]) ["proj"] 0 (λ _, None)
    (λ t, N.of_nat t) (λ _, mkDateTime 2024 3 7 9 5 1)
    logging.WARNING [] [] 0 [].

(** Every record of the history [t] was handed to the handlers [hs], or
    to none because its level is below [level]. *)
Definition delivered (level : Z) (hs : list Handler) (t : list Event)
    : Prop :=
  Forall (λ e, match e with
               | ELog r sinks =>
                   sinks = if decide (level ≤ levelno r)%Z
                           then Some hs else None
               | ESys _ => True
               end) t.

(** The tree that the [k]-th call to the outside sees, counted from a
    world with the tree [root], the interference [env] and the clock [t]. *)
Fixpoint tree_after (k : nat) (root : Node) (env : nat → option Node)
    (t : nat) : Node :=
  match k with
  | O => root
  | S k' => tree_after k' (default root (env t)) env (S t)
  end.

(** Two worlds in which a record's size is not the length of its content.
    In [grow_world] another process appends to [a.txt] between the read and
    the [stat] of the ingestor (before its fourth call to the outside); in
    [proc_world], which nobody changes, the input directory holds a file of
    a virtual file system that reports the size 0. *)
Definition grow_world : World :=
  mkWorld (lone_tree [("a.txt", File (demo_bytes "hello"))]) ["proj"] 0
    (λ t, if decide (t = 3)
          then Some (lone_tree [("a.txt", File (demo_bytes "hello world"))])
          else None)
    (λ _, 0%N) (λ _, mkDateTime 2024 3 7 9 5 1)
    logging.WARNING [] [] 0 [].

Definition proc_world : World :=
  mkWorld (lone_tree [("ostype.txt", Virtual (demo_bytes "Linux") 0)])
    ["proj"] 0 (λ _, None)
    (λ _, 0%N) (λ _, mkDateTime 2024 3 7 9 5 1)
    logging.WARNING [] [] 0 [].

(** [m] keeps [P] true, whether it returns or raises. *)
Definition preserves {A} (P : World → Prop) (m : M A) : Prop :=
  ∀ w, P w → P (m w).2.

(** ** Strings *)

Lemma lower_char_idem c :
  PyStr.lower_char (PyStr.lower_char c) = PyStr.lower_char c.
Proof. by destruct c as [[] [] [] [] [] [] [] []]. Qed.

Lemma lower_char_dot c :
  PyStr.mem_char (PyStr.lower_char c) "." = PyStr.mem_char c ".".
Proof. by destruct c as [[] [] [] [] [] [] [] []]. Qed.

Lemma lower_idem s : PyStr.lower (PyStr.lower s) = PyStr.lower s.
Proof. induction s as [|c s IH]; simpl; [done|]. by rewrite lower_char_idem, IH. Qed.

Lemma lower_lstrip_dot s :
  PyStr.lower (PyStr.lstrip "." s) = PyStr.lstrip "." (PyStr.lower s).
Proof.
  induction s as [|c s IH]; [done|].
  cbn [PyStr.lower PyStr.lstrip]. rewrite lower_char_dot.
  destruct (PyStr.mem_char c "."); [apply IH | done].
Qed.

Lemma lstrip_idem chars s :
  PyStr.lstrip chars (PyStr.lstrip chars s) = PyStr.lstrip chars s.
Proof.
  induction s as [|c s IH]; [done|]. simpl.
  destruct (PyStr.mem_char c chars) eqn:E; [done|]. simpl. by rewrite E.
Qed.

Lemma normalized_idem s : normalized (normalized s) = normalized s.
Proof.
  unfold normalized.
  by rewrite !lower_lstrip_dot, lower_idem, lstrip_idem.
Qed.

Lemma normalized_caseless s1 s2 :
  PyStr.lower s1 = PyStr.lower s2 → normalized s1 = normalized s2.
Proof. unfold normalized. rewrite !lower_lstrip_dot. by intros ->. Qed.

Lemma rfind_from_absent c s i last :
  PyStr.mem_char c s = false → PyStr.rfind_from c s i last = last.
Proof.
  revert i last. induction s as [|d s IH]; intros i last; simpl; [done|].
  rewrite (Ascii.eqb_sym d c).
  destruct (Ascii.eqb c d); [done|]. intros H. by rewrite IH.
Qed.

Lemma suffix_no_dot p :
  PyStr.mem_char "." (pathlib.name p) = false → pathlib.suffix p = "".
Proof.
  intros H. unfold pathlib.suffix, PyStr.rfind.
  by rewrite rfind_from_absent.
Qed.

(** ** The order of paths *)

Lemma ascii_compare_refl c : Ascii.compare c c = Eq.
Proof. apply N.compare_refl. Qed.

Lemma string_compare_refl s : String.compare s s = Eq.
Proof. induction s as [|c s IH]; simpl; [done|]. by rewrite ascii_compare_refl. Qed.

Lemma ascii_compare_lt_trans a b c :
  Ascii.compare a b = Lt → Ascii.compare b c = Lt → Ascii.compare a c = Lt.
Proof. unfold Ascii.compare. rewrite !N.compare_lt_iff. lia. Qed.

Lemma string_compare_lt_trans s1 s2 s3 :
  String.compare s1 s2 = Lt → String.compare s2 s3 = Lt →
  String.compare s1 s3 = Lt.
Proof.
  revert s2 s3. induction s1 as [|a s1 IH]; intros [|b s2] [|c s3]; simpl;
    try done.
  destruct (Ascii.compare a b) eqn:Eab; try done;
    destruct (Ascii.compare b c) eqn:Ebc; try done; intros H1 H2.
  - apply Ascii.compare_eq_iff in Eab, Ebc. subst.
    rewrite ascii_compare_refl. eauto.
  - apply Ascii.compare_eq_iff in Eab. subst. by rewrite Ebc.
  - apply Ascii.compare_eq_iff in Ebc. subst. by rewrite Eab.
  - by rewrite (ascii_compare_lt_trans a b c).
Qed.

Lemma path_compare_refl p : pathlib.compare p p = Eq.
Proof. induction p as [|a p IH]; simpl; [done|]. by rewrite string_compare_refl. Qed.

Lemma path_compare_eq p q : pathlib.compare p q = Eq → p = q.
Proof.
  revert q. induction p as [|a p IH]; intros [|b q]; simpl; try done.
  destruct (String.compare a b) eqn:E; try done.
  apply String.compare_eq_iff in E. intros H. f_equal; auto.
Qed.

Lemma path_compare_antisym p q :
  pathlib.compare p q = CompOpp (pathlib.compare q p).
Proof.
  revert q. induction p as [|a p IH]; intros [|b q]; simpl; try done.
  rewrite (String.compare_antisym a b).
  destruct (String.compare b a); simpl; auto.
Qed.

Lemma path_compare_lt_trans p q r :
  pathlib.compare p q = Lt → pathlib.compare q r = Lt →
  pathlib.compare p r = Lt.
Proof.
  revert q r. induction p as [|a p IH]; intros [|b q] [|c r]; simpl;
    try done.
  destruct (String.compare a b) eqn:Eab; try done;
    destruct (String.compare b c) eqn:Ebc; try done; intros H1 H2.
  - apply String.compare_eq_iff in Eab, Ebc. subst.
    rewrite string_compare_refl. eauto.
  - apply String.compare_eq_iff in Eab. subst. by rewrite Ebc.
  - apply String.compare_eq_iff in Ebc. subst. by rewrite Eab.
  - by rewrite (string_compare_lt_trans a b c).
Qed.

Global Instance path_le_total : Total pathlib.le.
Proof.
  intros p q. unfold pathlib.le. rewrite (path_compare_antisym q p).
  destruct (pathlib.compare p q); simpl; auto.
Qed.

Global Instance path_le_trans : Transitive pathlib.le.
Proof.
  intros p q r. unfold pathlib.le.
  destruct (pathlib.compare p q) eqn:Epq; [| |done]; intros _.
  - apply path_compare_eq in Epq. by subst.
  - destruct (pathlib.compare q r) eqn:Eqr; [| |done]; intros _.
    + apply path_compare_eq in Eqr. subst. by rewrite Epq.
    + by rewrite (path_compare_lt_trans p q r).
Qed.

Global Instance path_le_antisym : AntiSymm (=) pathlib.le.
Proof.
  intros p q. unfold pathlib.le. rewrite (path_compare_antisym q p).
  destruct (pathlib.compare p q) eqn:E; simpl; try done.
  intros _ _. by apply path_compare_eq.
Qed.

(** ** Running the monad by hand *)

(** Unfold one layer of primitives and project the worlds. *)
Ltac run_prims :=
  unfold mbind, M_bind, mret, M_ret, raise, logging.Logger_log,
    Path.exists_, Path.is_dir, Path.is_file, Path.iterdir, Path.read_bytes,
    Path.stat_size, uuid.uuid4;
  cbn [fs install_dir ticks env urandom localtime root_level root_handlers
       closed next_hid trace emit os_step fst snd].

Ltac sim :=
  repeat (progress (run_prims;
    repeat match goal with H : quiet _ |- _ => rewrite H end;
    cbn [default from_option id negb]));
  cbv beta.

Ltac history :=
  unfold only_history; sim; repeat split; try done;
  rewrite <- ?(assoc_L (++)); try reflexivity.

Lemma syscalls_app t1 t2 :
  syscalls (t1 ++ t2) = (syscalls t1 ++ syscalls t2)%list.
Proof. apply omap_app. Qed.

Lemma ingest_file_ok p w content :
  quiet w → OS.stat (fs w) p = Some (File content) →
  ∃ r w',
    ingest_file_from_path p w = (Ok r, w')
    ∧ r !! "file_id" = Some (VStr (file_id_of (urandom w (4 + ticks w))))
    ∧ r !! "name" = Some (VStr (pathlib.name p))
    ∧ r !! "extension" = Some (VStr (normalized (pathlib.suffix p)))
    ∧ r !! "source" = Some (VStr "local_folder")
    ∧ r !! "path" = Some (VStr (pathlib.str p))
    ∧ r !! "size_bytes" = Some (VInt (Z.of_nat (length content)))
    ∧ r !! "content_bytes" = Some (VBytes content)
    ∧ quiet w' ∧ fs w' = fs w ∧ urandom w' = urandom w
    ∧ ticks w' = 5 + ticks w.
Proof.
  intros Hq Hst. unfold ingest_file_from_path.
  repeat (progress (sim; unfold OS.exists_, OS.is_file, OS.read; rewrite ?Hst)).
  eexists _, _. split; [reflexivity|].
  repeat split; sim; done.
Qed.

(** The same for a file of a virtual file system: the size is the one
    [stat] reports, not the length of what was read. *)
Lemma ingest_file_virtual p w content reported_size :
  quiet w → OS.stat (fs w) p = Some (Virtual content reported_size) →
  ∃ r w',
    ingest_file_from_path p w = (Ok r, w')
    ∧ r !! "name" = Some (VStr (pathlib.name p))
    ∧ r !! "extension" = Some (VStr (normalized (pathlib.suffix p)))
    ∧ r !! "path" = Some (VStr (pathlib.str p))
    ∧ r !! "size_bytes" = Some (VInt reported_size)
    ∧ r !! "content_bytes" = Some (VBytes content)
    ∧ quiet w' ∧ fs w' = fs w.
Proof.
  intros Hq Hst. unfold ingest_file_from_path.
  repeat (progress (sim; unfold OS.exists_, OS.is_file, OS.read; rewrite ?Hst)).
  eexists _, _. split; [reflexivity|].
  repeat split; sim; done.
Qed.

Lemma ingest_file_missing p w :
  quiet w → OS.stat (fs w) p = None →
  ∃ w' t, ingest_file_from_path p w = (Raise (FileNotFound p), w')
    ∧ only_history w w' t ∧ syscalls t = [SysExists p].
Proof.
  intros Hq Hst. unfold ingest_file_from_path.
  repeat (progress (sim; unfold OS.exists_, OS.is_file, OS.read; rewrite ?Hst)).
  eexists _, _. split; [reflexivity|]. split; [history|done].
Qed.

Lemma ingest_file_not_regular p w n :
  quiet w → OS.stat (fs w) p = Some n →
  (∀ c, n ≠ File c) → (∀ c s, n ≠ Virtual c s) →
  ∃ w' t, ingest_file_from_path p w = (Raise (NotAFile p), w')
    ∧ only_history w w' t ∧ syscalls t = [SysExists p; SysIsFile p].
Proof.
  intros Hq Hst Hn Hv. unfold ingest_file_from_path.
  repeat (progress (sim; unfold OS.exists_, OS.is_file, OS.read; rewrite ?Hst)).
  destruct n; try (by destruct (Hn content));
    try (by destruct (Hv content reported_size)); sim;
    (eexists _, _; split; [reflexivity|]; split; [history|done]).
Qed.

(** ** Hexadecimal digits of the identifier *)











(** ** The lister on a quiet world *)

Lemma list_input_files_ok dir allowed w es :
  quiet w → OS.stat (fs w) dir = Some (Dir es) →
  ∃ w', list_input_files dir allowed w =
      (Ok (merge_sort pathlib.le
             (filter (eligible (fs w) (allow_set allowed))
                     (pathlib.child dir <$> es.*1))), w')
    ∧ quiet w' ∧ fs w' = fs w.
Proof.
  intros Hq Hst. unfold list_input_files.
  repeat (progress (sim; unfold OS.exists_, OS.is_dir, OS.listdir; rewrite ?Hst)).
  match goal with
  | |- context [for_in ?es ?b ?a ?w0] => set (body := b); set (w1 := w0)
  end.
  assert (Hloop : ∀ entries acc w1, quiet w1 → fs w1 = fs w →
    ∃ w2, for_in entries body acc w1 =
        (Ok (acc ++ filter (eligible (fs w) (allow_set allowed)) entries)%list, w2)
      ∧ quiet w2 ∧ fs w2 = fs w).
  { clear w1. induction entries as [|p entries IH]; intros acc w1 Hq1 Hfs.
    - exists w1. simpl. by rewrite app_nil_r.
    - cbn [for_in]. unfold mbind at 1, M_bind at 1. unfold body at 1.
      sim. rewrite Hfs.
      destruct (OS.is_file (fs w) p) eqn:Hf; sim.
      + match goal with |- context [decide (?x ∈ ?s)] =>
          destruct (decide (x ∈ s)) as [Hin|Hin] end; sim.
        * rewrite filter_cons_True by (split; [done|exact Hin]).
          edestruct (IH (acc ++ [p])%list) as (w2 & -> & ? & ?); [| |
            exists w2; by rewrite <- (assoc_L (++))]; sim; done.
        * rewrite filter_cons_False by (intros [_ ?]; by apply Hin).
          edestruct (IH acc) as (w2 & -> & ? & ?); [| |by exists w2]; sim; done.
      + rewrite filter_cons_False by (intros [? _]; congruence).
        edestruct (IH acc) as (w2 & -> & ? & ?); [| |by exists w2]; sim; done. }
  edestruct (Hloop (pathlib.child dir <$> es.*1) [] w1) as (w2 & -> & Hq2 & Hfs2).
  { subst w1. sim. done. }
  { subst w1. sim. done. }
  sim. eexists. split; [reflexivity|]. split; sim; done.
Qed.

Lemma list_input_files_missing dir allowed w :
  quiet w → OS.stat (fs w) dir = None →
  ∃ w' t, list_input_files dir allowed w = (Raise (DirectoryNotFound dir), w')
    ∧ only_history w w' t ∧ syscalls t = [SysExists dir].
Proof.
  intros Hq Hst. unfold list_input_files.
  repeat (progress (sim; unfold OS.exists_, OS.is_dir; rewrite ?Hst)).
  eexists _, _. split; [reflexivity|]. split; [history|done].
Qed.

Lemma list_input_files_not_dir dir allowed w n :
  quiet w → OS.stat (fs w) dir = Some n → (∀ es, n ≠ Dir es) →
  ∃ w' t, list_input_files dir allowed w = (Raise (NotADirectory dir), w')
    ∧ only_history w w' t ∧ syscalls t = [SysExists dir; SysIsDir dir].
Proof.
  intros Hq Hst Hn. unfold list_input_files.
  repeat (progress (sim; unfold OS.exists_, OS.is_dir; rewrite ?Hst)).
  destruct n; try (by destruct (Hn entries)); sim;
    (eexists _, _; split; [reflexivity|]; split; [history|done]).
Qed.

(** ** The two orders agree on the entries of one directory *)

Lemma string_app_cons c (a b : string) :
  String c a +:+ b = String c (a +:+ b).
Proof. reflexivity. Qed.

Lemma string_compare_app pre a b :
  String.compare (pre +:+ a) (pre +:+ b) = String.compare a b.
Proof.
  induction pre as [|c pre IH]; [done|].
  rewrite !string_app_cons. simpl. by rewrite ascii_compare_refl.
Qed.

Lemma string_app_assoc (a b c : string) : (a +:+ b) +:+ c = a +:+ (b +:+ c).
Proof.
  induction a as [|x a IH]; [done|].
  rewrite !string_app_cons. by f_equal.
Qed.

Lemma join_child dir : ∃ pre, ∀ a, PyStr.join "/" (dir ++ [a]) = pre +:+ a.
Proof.
  induction dir as [|x dir [pre IH]].
  - by exists "".
  - exists (x +:+ "/" +:+ pre). intros a.
    change ((x :: dir) ++ [a])%list with (x :: (dir ++ [a]))%list.
    cbn [PyStr.join]. rewrite IH.
    destruct (dir ++ [a])%list eqn:E; [by destruct dir|].
    by rewrite !string_app_assoc.
Qed.

Lemma path_compare_child dir a b :
  pathlib.compare (pathlib.child dir a) (pathlib.child dir b)
  = String.compare a b.
Proof.
  unfold pathlib.child. induction dir as [|x dir IH]; simpl.
  - by destruct (String.compare a b).
  - by rewrite string_compare_refl.
Qed.

Lemma str_compare_child dir a b :
  String.compare (pathlib.str (pathlib.child dir a))
                 (pathlib.str (pathlib.child dir b))
  = String.compare a b.
Proof.
  unfold pathlib.str, pathlib.child. destruct (join_child dir) as [pre H].
  by rewrite !H, !string_compare_app.
Qed.

Lemma path_le_child_str dir a b :
  pathlib.le (pathlib.child dir a) (pathlib.child dir b) →
  str_le (pathlib.child dir a) (pathlib.child dir b).
Proof.
  unfold pathlib.le, str_le, String.le, String.leb.
  rewrite path_compare_child, str_compare_child.
  by destruct (String.compare a b).
Qed.

Lemma StronglySorted_impl_in {A} (R R' : relation A) l :
  (∀ x y, x ∈ l → y ∈ l → R x y → R' x y) →
  StronglySorted R l → StronglySorted R' l.
Proof.
  intros H HS. induction HS as [|x l HS IH Hx]; constructor.
  - apply IH. intros y z Hy Hz. apply H; by right.
  - rewrite Forall_forall in *. intros y Hy.
    apply H; [left|by right|by apply Hx].
Qed.

(** ** The claims about the lister *)

Lemma filter_none {A} (P : A → Prop) `{∀ x, Decision (P x)} (l : list A) :
  (∀ x, x ∈ l → ¬ P x) → filter P l = [].
Proof.
  induction l as [|x l IH]; intros Hl; [done|].
  rewrite filter_cons_False by (apply Hl; left).
  apply IH. intros y ?. apply Hl. by right.
Qed.

(** C1. On a quiet world, for every existing directory, [list_input_files]
    returns exactly the immediate entries that are regular files and whose
    normalized extension is in the normalized allow-set (as a permutation of
    the filtered listing, and as a membership test), sorted in ascending
    order of the path, which for entries of one directory is also the
    order of the strings [str(path)]; when no entry qualifies the result is
    the empty list and not an error. *)
Theorem list_input_files_spec (input_dir : Path)
    (allowed_extensions : option (list string)) (w : World)
    (es : list (string * Node)) :
  quiet w →
  OS.stat (fs w) input_dir = Some (Dir es) →
  ∃ files w',
    list_input_files input_dir allowed_extensions w = (Ok files, w')
    ∧ files ≡ₚ filter (eligible (fs w) (allow_set allowed_extensions))
                 (pathlib.child input_dir <$> es.*1)
    ∧ (∀ p, p ∈ files ↔
         ∃ nm, nm ∈ es.*1 ∧ p = pathlib.child input_dir nm
           ∧ OS.is_file (fs w) p = true
           ∧ normalized (pathlib.suffix p) ∈ allow_set allowed_extensions)
    ∧ Sorted pathlib.le files
    ∧ Sorted str_le files
    ∧ ((∀ nm, nm ∈ es.*1 →
          ¬ eligible (fs w) (allow_set allowed_extensions)
              (pathlib.child input_dir nm)) → files = [])
    ∧ fs w' = fs w.
Proof.
  intros Hq Hst.
  destruct (list_input_files_ok input_dir allowed_extensions w es Hq Hst)
    as (w' & Hrun & _ & Hfs).
  eexists _, w'. split; [exact Hrun|].
  set (found := filter _ _).
  assert (Hperm : merge_sort pathlib.le found ≡ₚ found)
    by apply merge_sort_Permutation.
  assert (Hmem : ∀ p, p ∈ merge_sort pathlib.le found ↔
      ∃ nm, nm ∈ es.*1 ∧ p = pathlib.child input_dir nm
        ∧ OS.is_file (fs w) p = true
        ∧ normalized (pathlib.suffix p) ∈ allow_set allowed_extensions).
  { intros p. rewrite Hperm. unfold found.
    rewrite list_elem_of_filter, list_elem_of_fmap. unfold eligible.
    split.
    - intros [[Hf Hx] (nm & -> & Hnm)]. eauto.
    - intros (nm & Hnm & -> & Hf & Hx). split; [by split|eauto]. }
  assert (Hsorted : Sorted pathlib.le (merge_sort pathlib.le found))
    by apply (Sorted_merge_sort _).
  split; [exact Hperm|]. split; [exact Hmem|]. split; [exact Hsorted|].
  split; [|split; [|exact Hfs]].
  - apply StronglySorted_Sorted.
    apply (StronglySorted_impl_in pathlib.le).
    + intros p q [a (_ & -> & _)]%Hmem [b (_ & -> & _)]%Hmem.
      apply path_le_child_str.
    + by apply Sorted_StronglySorted; [apply _|].
  - intros Hnone. apply Permutation_nil_r. rewrite Hperm. unfold found.
    rewrite filter_none; [done|].
    intros p (nm & -> & Hnm)%list_elem_of_fmap. auto.
Qed.

Lemma list_input_files_spec_witness :
  ∃ files w',
    list_input_files demo_input None demo_world = (Ok files, w')
    ∧ files ≡ₚ filter (eligible demo_tree (allow_set None))
                 (pathlib.child demo_input <$> demo_entries.*1)
    ∧ Sorted pathlib.le files.
Proof.
  destruct (list_input_files_spec demo_input None demo_world demo_entries)
    as (files & w' & H1 & H2 & _ & H3 & _).
  - intros t. reflexivity.
  - reflexivity.
  - exists files, w'. auto.
Defined.

(** C4. On a quiet world [list_input_files] raises [DirectoryNotFound]
    exactly when the path does not exist and [NotADirectory] exactly when it
    exists and is not a directory; these are its only failures, and a
    failing call has asked the file system nothing but the validation
    questions and has changed nothing but the history. *)
Theorem list_input_files_errors (input_dir : Path)
    (allowed_extensions : option (list string)) (w : World) :
  quiet w →
  let out := list_input_files input_dir allowed_extensions w in
  (out.1 = Raise (DirectoryNotFound input_dir)
     ↔ OS.exists_ (fs w) input_dir = false)
  ∧ (out.1 = Raise (NotADirectory input_dir)
     ↔ OS.exists_ (fs w) input_dir = true ∧ OS.is_dir (fs w) input_dir = false)
  ∧ (∀ e, out.1 = Raise e →
       (e = DirectoryNotFound input_dir ∨ e = NotADirectory input_dir)
       ∧ ∃ t, only_history w out.2 t
           ∧ (syscalls t = [SysExists input_dir]
              ∨ syscalls t = [SysExists input_dir; SysIsDir input_dir])).
Proof.
  intros Hq out. subst out. unfold OS.exists_, OS.is_dir.
  destruct (OS.stat (fs w) input_dir) as [n|] eqn:Hst.
  - assert (Hdir : (∃ es, n = Dir es) ∨ ∀ es, n ≠ Dir es)
      by (destruct n; eauto).
    destruct Hdir as [[es ->]|Hn].
    + destruct (list_input_files_ok _ allowed_extensions _ _ Hq Hst)
        as (w' & -> & _). cbn [fst snd].
      split; [done|]. split; [split; [done|by intros [_ ?]]|done].
    + destruct (list_input_files_not_dir _ allowed_extensions _ n Hq Hst Hn)
        as (w' & t & -> & Hh & Ht).
      cbn [fst snd]. split; [done|]. split.
      * split; [intros _|done]. split; [done|].
        destruct n; try done. by destruct (Hn entries).
      * intros ? [= <-]. split; [by right|]. exists t. auto.
  - destruct (list_input_files_missing _ allowed_extensions _ Hq Hst)
      as (w' & t & -> & Hh & Ht).
    cbn [fst snd]. split; [done|]. split; [split; [done|by intros [??]]|].
    intros ? [= <-]. split; [by left|]. exists t. auto.
Qed.

Lemma list_input_files_errors_witness :
  (list_input_files ["proj"; "missing"] None demo_world).1
    = Raise (DirectoryNotFound ["proj"; "missing"])
  ∧ (list_input_files ["proj"; "input"; "a.txt"] None demo_world).1
    = Raise (NotADirectory ["proj"; "input"; "a.txt"]).
Proof.
  split.
  - apply (list_input_files_errors ["proj"; "missing"] None demo_world).
    + intros t. reflexivity.
    + reflexivity.
  - apply (list_input_files_errors ["proj"; "input"; "a.txt"] None demo_world).
    + intros t. reflexivity.
    + split; reflexivity.
Defined.

(** C10. On a quiet world, for every existing directory, an allow-list
    that is given and empty makes [list_input_files] return the empty list:
    its allow-set is empty, while the omitted allow-list stands for the five
    default extensions. *)
Theorem list_input_files_empty_allow_list (input_dir : Path) (w : World)
    (es : list (string * Node)) :
  quiet w →
  OS.stat (fs w) input_dir = Some (Dir es) →
  (∃ w', list_input_files input_dir (Some []) w = (Ok [], w'))
  ∧ allow_set (Some []) = ∅
  ∧ allow_set None = {["pdf"; "txt"; "docx"; "csv"; "xlsx"]}.
Proof.
  intros Hq Hst.
  destruct (list_input_files_ok input_dir (Some []) w es Hq Hst)
    as (w' & Hrun & _).
  split; [|split; reflexivity].
  exists w'. rewrite Hrun. do 2 f_equal.
  rewrite filter_none; [done|]. intros p _ [_ Hin].
  by apply not_elem_of_empty in Hin.
Qed.

Lemma list_input_files_empty_allow_list_witness :
  ∃ w', list_input_files demo_input (Some []) demo_world = (Ok [], w').
Proof.
  apply (list_input_files_empty_allow_list demo_input demo_world demo_entries).
  - intros t. reflexivity.
  - reflexivity.
Defined.

(** ** The claims about the ingestor *)

(** Whatever the others do to the tree, a record that the ingestor returns
    carries the path it was asked for and the extension of that path. *)
Lemma ingest_file_returns path w r w' :
  ingest_file_from_path path w = (Ok r, w') →
  r !! "path" = Some (VStr (pathlib.str path))
  ∧ r !! "name" = Some (VStr (pathlib.name path))
  ∧ r !! "extension" = Some (VStr (normalized (pathlib.suffix path)))
  ∧ (∃ v, r !! "file_id" = Some v) ∧ (∃ v, r !! "size_bytes" = Some v).
Proof.
  unfold ingest_file_from_path. run_prims.
  destruct (OS.exists_ _ _); cbn [negb]; [|by run_prims].
  run_prims.
  destruct (OS.is_file _ _); cbn [negb]; [|by run_prims].
  run_prims.
  destruct (OS.read _ _); [by run_prims|]. run_prims.
  destruct (OS.stat _ _); [|by run_prims]. run_prims.
  intros [= <- <-]. repeat split; eauto.
Qed.

(** C5. On a quiet world [ingest_file_from_path] raises [FileNotFound]
    exactly when the path does not exist and [NotAFile] exactly when it
    exists and is not a regular file; these are its only failures, and a
    failing call has only asked whether the path exists and is a file: it
    read no content and changed nothing but the history. *)
Theorem ingest_file_from_path_errors (path : Path) (w : World) :
  quiet w →
  let out := ingest_file_from_path path w in
  (out.1 = Raise (FileNotFound path) ↔ OS.exists_ (fs w) path = false)
  ∧ (out.1 = Raise (NotAFile path)
     ↔ OS.exists_ (fs w) path = true ∧ OS.is_file (fs w) path = false)
  ∧ (∀ e, out.1 = Raise e →
       (e = FileNotFound path ∨ e = NotAFile path)
       ∧ ∃ t, only_history w out.2 t
           ∧ (syscalls t = [SysExists path]
              ∨ syscalls t = [SysExists path; SysIsFile path])).
Proof.
  intros Hq out. subst out. unfold OS.exists_, OS.is_file.
  destruct (OS.stat (fs w) path) as [n|] eqn:Hst.
  - assert (Hfile : (∃ c, n = File c) ∨ (∃ c s, n = Virtual c s)
                     ∨ (∀ c, n ≠ File c) ∧ (∀ c s, n ≠ Virtual c s))
      by (destruct n; eauto).
    destruct Hfile as [[c ->]|[(c & s & ->)|[Hn Hv]]].
    + destruct (ingest_file_ok _ _ _ Hq Hst) as (r & w' & -> & _).
      cbn [fst snd].
      split; [done|]. split; [split; [done|by intros [_ ?]]|done].
    + destruct (ingest_file_virtual _ _ _ _ Hq Hst) as (r & w' & -> & _).
      cbn [fst snd].
      split; [done|]. split; [split; [done|by intros [_ ?]]|done].
    + destruct (ingest_file_not_regular _ _ n Hq Hst Hn Hv)
        as (w' & t & -> & Hh & Ht).
      cbn [fst snd]. split; [done|]. split.
      * split; [intros _|done]. split; [done|].
        destruct n; try done; [by destruct (Hn content)|].
        by destruct (Hv content reported_size).
      * intros ? [= <-]. split; [by right|]. exists t. auto.
  - destruct (ingest_file_missing _ _ Hq Hst) as (w' & t & -> & Hh & Ht).
    cbn [fst snd]. split; [done|]. split; [split; [done|by intros [??]]|].
    intros ? [= <-]. split; [by left|]. exists t. auto.
Qed.

Lemma ingest_file_from_path_errors_witness :
  (ingest_file_from_path ["proj"; "input"; "gone.txt"] demo_world).1
    = Raise (FileNotFound ["proj"; "input"; "gone.txt"])
  ∧ (ingest_file_from_path ["proj"; "input"; "sub.txt"] demo_world).1
    = Raise (NotAFile ["proj"; "input"; "sub.txt"]).
Proof.
  split.
  - apply (ingest_file_from_path_errors ["proj"; "input"; "gone.txt"]
             demo_world).
    + intros t. reflexivity.
    + reflexivity.
  - apply (ingest_file_from_path_errors ["proj"; "input"; "sub.txt"]
             demo_world).
    + intros t. reflexivity.
    + split; reflexivity.
Defined.

Lemma tree_after_quiet k root env t :
  (∀ t, env t = None) → tree_after k root env t = root.
Proof.
  intros Hq. revert root t. induction k as [|k IH]; intros root t; [done|].
  cbn [tree_after]. by rewrite Hq, IH.
Qed.

(** The ingestor reads first and asks for the size afterwards: the
    content of a record is what the read (the third call to the outside)
    returned, its size what the [stat] after it (the fourth call)
    reported. *)
Lemma ingest_file_reads_then_stats path w r w' :
  ingest_file_from_path path w = (Ok r, w') →
  ∃ content n,
    OS.read (tree_after 3 (fs w) (env w) (ticks w)) path = inr content
    ∧ OS.stat (tree_after 4 (fs w) (env w) (ticks w)) path = Some n
    ∧ r !! "content_bytes" = Some (VBytes content)
    ∧ r !! "size_bytes" = Some (VInt (OS.st_size n)).
Proof.
  unfold ingest_file_from_path. run_prims.
  destruct (OS.exists_ _ _); cbn [negb]; [|by run_prims].
  run_prims.
  destruct (OS.is_file _ _); cbn [negb]; [|by run_prims].
  run_prims.
  destruct (OS.read _ _) as [e|content] eqn:Hread; [by run_prims|]. run_prims.
  destruct (OS.stat _ _) as [n|] eqn:Hstat; [|by run_prims]. run_prims.
  intros [= <- <-]. exists content, n.
  by repeat split.
Qed.

(** C2 as the specification states it fails.  A regular file that grows
    between the read and the [stat] of the ingestor: five bytes are read,
    the size says eleven.  And, on a tree that nobody changes, a regular
    file of a virtual file system: five bytes are read, the size says 0. *)
Lemma ingest_size_mismatch :
  (OS.is_file (fs grow_world) ["proj"; "input"; "a.txt"] = true
   ∧ ∃ r w',
       ingest_file_from_path ["proj"; "input"; "a.txt"] grow_world = (Ok r, w')
       ∧ r !! "content_bytes" = Some (VBytes (demo_bytes "hello"))
       ∧ r !! "size_bytes" = Some (VInt 11))
  ∧ (quiet proc_world
     ∧ OS.is_file (fs proc_world) ["proj"; "input"; "ostype.txt"] = true
     ∧ ∃ r w',
         ingest_file_from_path ["proj"; "input"; "ostype.txt"] proc_world
           = (Ok r, w')
         ∧ r !! "content_bytes" = Some (VBytes (demo_bytes "Linux"))
         ∧ r !! "size_bytes" = Some (VInt 0)).
Proof.
  split.
  - split; [reflexivity|].
    assert (Hok : match (ingest_file_from_path ["proj"; "input"; "a.txt"]
                           grow_world).1 with
                  | Ok _ => true
                  | Raise _ => false
                  end = true) by (vm_compute; reflexivity).
    destruct (ingest_file_from_path ["proj"; "input"; "a.txt"] grow_world)
      as [[r|e] w'] eqn:E; [|discriminate Hok].
    exists r, w'. split; [reflexivity|].
    destruct (ingest_file_reads_then_stats _ _ _ _ E)
      as (content & n & Hread & Hstat & Hc & Hs).
    vm_compute in Hread. vm_compute in Hstat.
    injection Hread as <-. injection Hstat as <-. split; [exact Hc|exact Hs].
  - split; [intros t; reflexivity|]. split; [reflexivity|].
    destruct (ingest_file_virtual ["proj"; "input"; "ostype.txt"] proc_world
                (demo_bytes "Linux") 0)
      as (r & w' & Hrun & _ & _ & _ & Hs & Hc & _).
    + intros t. reflexivity.
    + reflexivity.
    + exists r, w'. split; [exact Hrun|]. split; [exact Hc|exact Hs].
Qed.

(** C2, amended.  The content of a record is what the ingestor's read
    returned and its size what the [stat] after the read reported, each
    about the tree as it was at that call.  So for an ordinary regular
    file that is the same at both calls, as on a tree that nobody else
    changes, [size_bytes] is the length of [content_bytes], and both are
    the length the file has on disk. *)
Theorem ingest_size_is_content_length (path : Path) (w w' : World)
    (r : Dict) :
  ingest_file_from_path path w = (Ok r, w') →
  let at_read := tree_after 3 (fs w) (env w) (ticks w) in
  let at_stat := tree_after 4 (fs w) (env w) (ticks w) in
  ∃ content_bytes n,
    r !! "content_bytes" = Some (VBytes content_bytes)
    ∧ r !! "size_bytes" = Some (VInt (OS.st_size n))
    ∧ OS.read at_read path = inr content_bytes
    ∧ OS.stat at_stat path = Some n
    ∧ (quiet w → at_read = fs w ∧ at_stat = fs w)
    ∧ (∀ content,
         OS.stat at_read path = Some (File content) →
         OS.stat at_stat path = Some (File content) →
         content_bytes = content
         ∧ OS.st_size n = Z.of_nat (length content_bytes)).
Proof.
  intros Hrun at_read at_stat.
  destruct (ingest_file_reads_then_stats _ _ _ _ Hrun)
    as (content & n & Hread & Hstat & Hc & Hs).
  exists content, n. fold at_read in Hread. fold at_stat in Hstat.
  split; [exact Hc|]. split; [exact Hs|]. split; [exact Hread|].
  split; [exact Hstat|]. split.
  - intros Hq. subst at_read at_stat. by rewrite !tree_after_quiet.
  - intros c H3 H4. unfold OS.read in Hread. rewrite H3 in Hread.
    rewrite H4 in Hstat. injection Hread as <-. by injection Hstat as <-.
Qed.

Lemma ingest_size_is_content_length_witness :
  ∃ r w' content_bytes,
    ingest_file_from_path ["proj"; "input"; "a.txt"] demo_world = (Ok r, w')
    ∧ r !! "content_bytes" = Some (VBytes content_bytes)
    ∧ r !! "size_bytes" = Some (VInt (Z.of_nat (length content_bytes)))
    ∧ content_bytes = demo_bytes "hello".
Proof.
  destruct (ingest_file_ok ["proj"; "input"; "a.txt"] demo_world
              (demo_bytes "hello")) as (r & w' & Hrun & _).
  { intros t. reflexivity. }
  { reflexivity. }
  destruct (ingest_size_is_content_length _ _ _ _ Hrun)
    as (content & n & Hc & Hs & _ & _ & Hq & Hfile).
  destruct (Hq (λ t, eq_refl)) as [H3 H4].
  destruct (Hfile (demo_bytes "hello")) as [-> Hsize].
  { rewrite H3. reflexivity. }
  { rewrite H4. reflexivity. }
  exists r, w', (demo_bytes "hello").
  split; [exact Hrun|]. split; [exact Hc|]. split; [|reflexivity].
  rewrite Hs. by rewrite Hsize.
Defined.

(** C7. Normalizing an extension (strip the leading dots, lowercase) is
    idempotent and blind to case.  The ingestor's [extension] is the
    normalized suffix of the path, and the lister decides by the same
    rule: it returns a regular file of its directory exactly when the
    extension the ingestor records for that file is the normalization of
    an entry of the allow-list.  The extension is ["csv"] for a file named
    [REPORT.CSV] and the empty string for a name without a dot. *)
Theorem extension_normalization (s s1 s2 : string) (path : Path)
    (w w' : World) (r : Dict) :
  ingest_file_from_path path w = (Ok r, w') →
  normalized (normalized s) = normalized s
  ∧ (PyStr.lower s1 = PyStr.lower s2 → normalized s1 = normalized s2)
  ∧ r !! "extension" = Some (VStr (normalized (pathlib.suffix path)))
  ∧ (∀ root exts, eligible root exts path ↔
       OS.is_file root path = true
       ∧ ∃ e, r !! "extension" = Some (VStr e) ∧ e ∈ exts)
  ∧ (∀ (input_dir : Path) (nm : string)
       (allowed_extensions : option (list string)) (w0 : World)
       (es : list (string * Node)),
       path = pathlib.child input_dir nm →
       quiet w0 → OS.stat (fs w0) input_dir = Some (Dir es) →
       nm ∈ es.*1 → OS.is_file (fs w0) path = true →
       ∃ files w1,
         list_input_files input_dir allowed_extensions w0 = (Ok files, w1)
         ∧ (path ∈ files ↔
            ∃ e a, r !! "extension" = Some (VStr e)
                   ∧ a ∈ default DEFAULT_ALLOWED_EXTENSIONS allowed_extensions
                   ∧ e = PyStr.lower (PyStr.lstrip "." a)))
  ∧ (pathlib.name path = "REPORT.CSV" → r !! "extension" = Some (VStr "csv"))
  ∧ (PyStr.mem_char "." (pathlib.name path) = false →
       r !! "extension" = Some (VStr "")).
Proof.
  intros (_ & _ & Hext & _)%ingest_file_returns.
  split; [apply normalized_idem|]. split; [apply normalized_caseless|].
  split; [exact Hext|]. split; [|split; [|split]].
  - intros root exts. unfold eligible. rewrite Hext. split.
    + intros [? ?]. eauto.
    + intros [? (e & [= <-] & ?)]. auto.
  - intros input_dir nm allowed w0 es -> Hq Hst Hin Hfile.
    destruct (list_input_files_ok input_dir allowed w0 es Hq Hst)
      as (w1 & Hrun & _).
    eexists _, w1. split; [exact Hrun|].
    rewrite merge_sort_Permutation, list_elem_of_filter.
    unfold eligible, allow_set.
    rewrite elem_of_list_to_set, list_elem_of_fmap, Hext. split.
    + intros [[_ (a & Ha & Hina)] _].
      exists (normalized (pathlib.suffix (pathlib.child input_dir nm))), a.
      by repeat split.
    + intros (e & a & [= <-] & Hina & Ha). split.
      * split; [exact Hfile|]. by exists a.
      * apply list_elem_of_fmap. by exists nm.
  - intros Hname. rewrite Hext. unfold pathlib.suffix. by rewrite Hname.
  - intros Hdot. rewrite Hext. by rewrite suffix_no_dot.
Qed.

Lemma extension_normalization_witness :
  ∃ r w', ingest_file_from_path ["proj"; "input"; "REPORT.CSV"] demo_world
            = (Ok r, w')
       ∧ normalized (normalized ".CSV") = normalized ".CSV"
       ∧ normalized ".CSV" = normalized ".csv"
       ∧ r !! "extension" = Some (VStr "csv")
       ∧ ∃ files w1,
           list_input_files demo_input None demo_world = (Ok files, w1)
           ∧ ["proj"; "input"; "REPORT.CSV"] ∈ files.
Proof.
  destruct (ingest_file_ok ["proj"; "input"; "REPORT.CSV"] demo_world
              (demo_bytes "x,y")) as (r & w' & Hrun & _).
  - intros t. reflexivity.
  - reflexivity.
  - exists r, w'. split; [exact Hrun|].
    destruct (extension_normalization ".CSV" ".CSV" ".csv"
                ["proj"; "input"; "REPORT.CSV"] demo_world w' r Hrun)
      as (H1 & H2 & _ & _ & Hlist & H3 & _).
    split; [exact H1|]. split; [exact (H2 eq_refl)|].
    split; [exact (H3 eq_refl)|].
    destruct (Hlist demo_input "REPORT.CSV" None demo_world demo_entries)
      as (files & w1 & Hfiles & Hiff).
    + reflexivity.
    + intros t. reflexivity.
    + reflexivity.
    + apply (bool_decide_unpack _). vm_compute. exact I.
    + reflexivity.
    + exists files, w1. split; [exact Hfiles|]. apply Hiff.
      exists "csv", "csv". split; [exact (H3 eq_refl)|].
      split; [|reflexivity].
      apply (bool_decide_unpack _). vm_compute. exact I.
Defined.




(** ** The run logger *)

Lemma reset_loop (l : list Handler) : ∀ w,
  ∃ hs, for_in l (λ handler (_ : ()),
                    logging.removeHandler handler;; logging.close handler) () w
        = (Ok (),
           mkWorld (fs w) (install_dir w) (ticks w) (env w) (urandom w)
             (localtime w) (root_level w) hs (closed w ++ l)%list
             (next_hid w) (trace w))
      ∧ (root_handlers w = l → hs = []).
Proof.
  induction l as [|h l IH]; intros w.
  - exists (root_handlers w). cbn [for_in]. rewrite app_nil_r.
    split; [by destruct w|done].
  - cbn [for_in]. unfold mbind at 1, M_bind at 1.
    unfold mbind at 1, M_bind at 1.
    unfold logging.removeHandler at 1, logging.close at 1.
    match goal with |- context [for_in l _ () ?w1] =>
      destruct (IH w1) as (hs & -> & Hhs) end.
    exists hs. split.
    + destruct (decide (h ∈ root_handlers w)); cbn; by rewrite <- (assoc_L (++)).
    + intros Hw. apply Hhs. rewrite Hw.
      rewrite decide_True by left. cbn. by rewrite decide_True.
Qed.

Lemma configure_run_logger_once app_name level w log_file w' :
  configure_run_logger app_name level w = (Ok log_file, w') →
  root_handlers w'
    = [mkHandler (next_hid w) (FileHandler log_file) LOG_FORMAT;
       mkHandler (S (next_hid w)) StreamHandler LOG_FORMAT]
  ∧ closed w' = (closed w ++ root_handlers w)%list
  ∧ next_hid w' = S (S (next_hid w))
  ∧ root_level w' = level
  ∧ last (trace w')
    = Some (ELog (mkLogRecord logging.INFO "root"
                    "Logging initialised; writing file logs to %s"
                    [APath log_file])
                 (if decide (level ≤ logging.INFO)%Z
                  then Some (root_handlers w') else None)).
Proof.
  unfold configure_run_logger, _build_run_log_paths, _project_root,
    datetime.now, Path.mkdir.
  run_prims.
  destruct (OS.makedirs _ _ _); [by run_prims|]. run_prims.
  cbn [set_fs fs install_dir ticks env urandom localtime root_level
       root_handlers closed next_hid trace].
  match goal with |- context [for_in ?l ?b () ?w1] =>
    destruct (reset_loop l w1) as (hs & Hl & Hhs);
    change (for_in l b () w1)
      with (for_in l (λ handler (_ : ()),
              logging.removeHandler handler;; logging.close handler) () w1);
    rewrite Hl; clear Hl
  end.
  specialize (Hhs eq_refl). subst hs.
  unfold logging.setLevel, logging.new_FileHandler, logging.new_StreamHandler,
    logging.new_handler, logging.addHandler.
  cbn [set_root_level set_fs bump_hid set_root_handlers os_step emit
       fs install_dir ticks env urandom localtime root_level
       root_handlers closed next_hid trace].
  destruct (OS.open_append _ _ _); [by run_prims|].
  cbn [set_root_level set_fs bump_hid set_root_handlers os_step emit
       fs install_dir ticks env urandom localtime root_level
       root_handlers closed next_hid trace].
  match goal with |- context [decide (?h ∈ [])] =>
    destruct (decide (h ∈ [])) as [Hin|_];
      [by apply elem_of_nil in Hin|] end.
  cbn [set_root_level set_fs bump_hid set_root_handlers os_step emit
       fs install_dir ticks env urandom localtime root_level
       root_handlers closed next_hid trace app].
  match goal with |- context [decide (?h ∈ [?h'])] =>
    destruct (decide (h ∈ [h'])) as [Hin|_];
      [apply list_elem_of_singleton in Hin; injection Hin; lia|] end.
  run_prims.
  cbn [set_root_level set_fs bump_hid set_root_handlers os_step emit
       fs install_dir ticks env urandom localtime root_level
       root_handlers closed next_hid trace app].
  intros [= <- <-].
  cbn [set_root_level set_fs bump_hid set_root_handlers os_step emit
       fs install_dir ticks env urandom localtime root_level
       root_handlers closed next_hid trace].
  repeat split. by rewrite last_snoc.
Qed.

Ltac world_fields :=
  cbn [set_root_level set_fs bump_hid set_root_handlers add_closed os_step
       emit fs install_dir ticks env urandom localtime root_level
       root_handlers closed next_hid trace fst snd].

(** Whatever its outcome, a call forgets no handler and reuses no
    identity. *)
Lemma configure_run_logger_any app_name level w :
  let w' := (configure_run_logger app_name level w).2 in
  (next_hid w ≤ next_hid w')%nat
  ∧ ∀ h, h ∈ closed w ∨ h ∈ root_handlers w →
         h ∈ closed w' ∨ h ∈ root_handlers w'.
Proof.
  unfold configure_run_logger, _build_run_log_paths, _project_root,
    datetime.now, Path.mkdir.
  run_prims.
  destruct (OS.makedirs _ _ _); world_fields; [by auto|].
  run_prims. world_fields.
  match goal with |- context [for_in ?l ?b () ?w1] =>
    destruct (reset_loop l w1) as (hs & Hl & Hhs);
    change (for_in l b () w1)
      with (for_in l (λ handler (_ : ()),
              logging.removeHandler handler;; logging.close handler) () w1);
    rewrite Hl; clear Hl
  end.
  specialize (Hhs eq_refl). subst hs.
  unfold logging.setLevel, logging.new_FileHandler, logging.new_StreamHandler,
    logging.new_handler, logging.addHandler.
  world_fields.
  destruct (OS.open_append _ _ _); world_fields.
  { split; [lia|]. intros h. rewrite elem_of_app. tauto. }
  match goal with |- context [decide (?h ∈ [])] =>
    destruct (decide (h ∈ [])) as [Hin|_];
      [by apply elem_of_nil in Hin|] end.
  world_fields. cbn [app].
  match goal with |- context [decide (?h ∈ [?h'])] =>
    destruct (decide (h ∈ [h'])) as [Hin|_];
      [apply list_elem_of_singleton in Hin; injection Hin; lia|] end.
  run_prims. world_fields.
  split; [lia|]. intros h. rewrite elem_of_app. tauto.
Qed.

Lemma called_keeps w0 w :
  called w0 w →
  (next_hid w0 ≤ next_hid w)%nat
  ∧ ∀ h, h ∈ root_handlers w0 → h ∈ closed w ∨ h ∈ root_handlers w.
Proof.
  induction 1 as [w|w w1 app_name level _ [IHn IHh]]; [by auto|].
  destruct (configure_run_logger_any app_name level w1) as [Hn Hh].
  split; [lia|]. intros h Hin. apply Hh. destruct (IHh h Hin); auto.
Qed.

(** C9. After any sequence of [configure_run_logger] calls whose last one
    returned, the root logger holds exactly two handlers, a file sink on
    the log file of that call and a console sink, both with [LOG_FORMAT];
    every handler attached before the call is closed, also those attached
    when the sequence began, and none of them is attached any more. *)
Theorem configure_run_logger_resets_sinks (w0 w w' : World)
    (app_name : string) (level : Z) (log_file : Path) :
  called w0 w →
  configure_run_logger app_name level w = (Ok log_file, w') →
  ∃ file_handler console_handler,
    root_handlers w' = [file_handler; console_handler]
    ∧ hkind file_handler = FileHandler log_file
    ∧ hkind console_handler = StreamHandler
    ∧ hformat file_handler = LOG_FORMAT
    ∧ hformat console_handler = LOG_FORMAT
    ∧ length (filter (λ h, is_file_sink h = true) (root_handlers w')) = 1
    ∧ length (filter (λ h, is_console_sink h = true) (root_handlers w')) = 1
    ∧ closed w' = (closed w ++ root_handlers w)%list
    ∧ (∀ h, h ∈ root_handlers w0 → h ∈ closed w')
    ∧ (handlers_known w → ∀ h, h ∈ root_handlers w → h ∉ root_handlers w')
    ∧ (handlers_known w0 → ∀ h, h ∈ root_handlers w0 → h ∉ root_handlers w').
Proof.
  intros Hcalled Hrun.
  destruct (configure_run_logger_once _ _ _ _ _ Hrun)
    as (Hhs & Hclosed & _).
  destruct (called_keeps _ _ Hcalled) as [Hn Hkeep].
  eexists _, _. split; [exact Hhs|]. rewrite Hhs, Hclosed.
  do 6 (split; [reflexivity|]). split; [reflexivity|].
  split; [|split].
  - intros h Hin. apply elem_of_app. auto.
  - intros Hknown h Hin%Hknown Hnew.
    repeat (apply elem_of_cons in Hnew as [->|Hnew]); cbn in Hin;
      [lia..|by apply elem_of_nil in Hnew].
  - intros Hknown h Hin%Hknown Hnew.
    repeat (apply elem_of_cons in Hnew as [->|Hnew]); cbn in Hin;
      [lia..|by apply elem_of_nil in Hnew].
Qed.

Lemma configure_run_logger_resets_sinks_witness :
  ∃ log_file w' file_handler console_handler,
    configure_run_logger "streamlit_ui" logging.INFO
      (configure_run_logger "streamlit_ui" logging.INFO demo_world).2
      = (Ok log_file, w')
    ∧ root_handlers w' = [file_handler; console_handler]
    ∧ hkind file_handler = FileHandler log_file
    ∧ hkind console_handler = StreamHandler.
Proof.
  assert (Hrun : ∃ log_file w',
    configure_run_logger "streamlit_ui" logging.INFO
      (configure_run_logger "streamlit_ui" logging.INFO demo_world).2
      = (Ok log_file, w')) by (vm_compute; eauto).
  destruct Hrun as (log_file & w' & Hrun).
  destruct (configure_run_logger_resets_sinks demo_world _ w'
              "streamlit_ui" logging.INFO log_file
              (called_more _ _ "streamlit_ui" logging.INFO
                 (called_none demo_world)) Hrun)
    as (fh & ch & H1 & H2 & H3 & _).
  exists log_file, w', fh, ch. auto.
Defined.

(** ** The runner *)

Lemma preserves_ret {A} (P : World → Prop) (a : A) : preserves P (mret a).
Proof. by intros w. Qed.

Lemma preserves_raise {A} (P : World → Prop) e : preserves P (@raise A e).
Proof. by intros w. Qed.

Lemma preserves_bind {A B} (P : World → Prop) (m : M A) (k : A → M B) :
  preserves P m → (∀ a, preserves P (k a)) → preserves P (m ≫= k).
Proof.
  intros Hm Hk w Hw. specialize (Hm w Hw).
  unfold mbind, M_bind. destruct (m w) as [[a|e] w1]; [|done].
  by apply Hk.
Qed.

Lemma preserves_for_in {A S} (P : World → Prop) (xs : list A)
    (body : A → S → M S) :
  (∀ x s, preserves P (body x s)) → ∀ s, preserves P (for_in xs body s).
Proof.
  intros Hbody. induction xs as [|x xs IH]; intros s; cbn [for_in].
  - apply preserves_ret.
  - apply preserves_bind; auto.
Qed.

Lemma lister_calls_snoc t e :
  lister_calls (t ++ [e])
  = lister_calls t + (if is_lister_call e then 1 else 0).
Proof.
  unfold lister_calls. rewrite filter_app, length_app. f_equal.
  destruct (is_lister_call e) eqn:E.
  - by rewrite filter_cons_True.
  - rewrite filter_cons_False; [done|]. by rewrite E.
Qed.

Lemma counts_os_step n c w : counts n w → counts n (os_step c w).
Proof. unfold counts. cbn [trace os_step]. rewrite lister_calls_snoc. cbn. lia. Qed.

Lemma counts_emit n e w :
  is_lister_call e = false → counts n w → counts n (emit e w).
Proof.
  unfold counts. cbn [trace emit]. rewrite lister_calls_snoc.
  intros ->. lia.
Qed.

Lemma preserves_Logger_log n name level msg args :
  String.eqb msg "Listing input files in directory: %s" = false →
  preserves (counts n) (logging.Logger_log name level msg args).
Proof.
  intros Hmsg w. unfold logging.Logger_log. cbn [snd].
  apply counts_emit. cbn. by rewrite Hmsg.
Qed.

Lemma preserves_logging_log n level text args :
  preserves (counts n) (logging.log level text args).
Proof.
  intros w Hw. unfold logging.log, logging.basicConfig, logging.Logger_log,
    logging.new_StreamHandler, logging.new_handler, logging.addHandler.
  run_prims. world_fields.
  destruct (root_handlers w) eqn:E; run_prims; world_fields;
    rewrite ?E; repeat case_decide; world_fields.
  all: unfold counts in *; world_fields; rewrite lister_calls_snoc.
  all: unfold is_lister_call; cbn [msg logger_name].
  all: change (String.eqb "root" logger) with false.
  all: rewrite andb_false_r; lia.
Qed.

Lemma preserves_path_calls n p :
  preserves (counts n) (Path.exists_ p)
  ∧ preserves (counts n) (Path.is_dir p)
  ∧ preserves (counts n) (Path.is_file p)
  ∧ preserves (counts n) (Path.iterdir p)
  ∧ preserves (counts n) (Path.read_bytes p)
  ∧ preserves (counts n) (Path.stat_size p).
Proof.
  repeat split; intros w Hw; run_prims;
    try (destruct (OS.listdir _ _)); try (destruct (OS.read _ _));
    try (destruct (OS.stat _ _)); by apply counts_os_step.
Qed.

Lemma preserves_uuid4 n : preserves (counts n) uuid.uuid4.
Proof. intros w Hw. by apply counts_os_step. Qed.

Ltac pres :=
  repeat first
    [ apply preserves_ret
    | apply preserves_raise
    | apply preserves_logging_log
    | apply preserves_Logger_log; reflexivity
    | apply preserves_path_calls
    | apply preserves_uuid4
    | apply preserves_bind; [|intros ?]
    | apply preserves_for_in; intros ? ?
    | match goal with
      | |- preserves _ (if ?b then _ else _) => destruct b
      | |- preserves _ (match ?x with _ => _ end) => destruct x
      end
    | progress cbv zeta ].

Lemma ingest_file_keeps_count n path :
  preserves (counts n) (ingest_file_from_path path).
Proof. unfold ingest_file_from_path. pres. Qed.

Lemma changes_bind {A B} (P Q : World → Prop) (m : M A) (k : A → M B) w :
  P w → (∀ w, P w → Q (m w).2) → (∀ a, preserves Q (k a)) →
  Q ((m ≫= k) w).2.
Proof.
  intros Hw Hm Hk. specialize (Hm w Hw).
  unfold mbind, M_bind. destruct (m w) as [[a|e] w1]; [|done].
  by apply Hk.
Qed.

Lemma list_input_files_counts n input_dir allowed w :
  counts n w → counts (S n) (list_input_files input_dir allowed w).2.
Proof.
  intros Hw. unfold list_input_files.
  apply (changes_bind (counts n) (counts (S n))); [done| |intros ?; pres].
  clear. intros w Hw. unfold logging.Logger_log, counts in *.
  cbn [snd trace emit]. rewrite lister_calls_snoc, Hw. cbn. lia.
Qed.

Lemma logging_log_returns level text args w :
  logging.log level text args w
  = (Ok (), (logging.log level text args w).2).
Proof.
  unfold logging.log, logging.basicConfig, logging.Logger_log,
    logging.new_StreamHandler, logging.new_handler, logging.addHandler.
  run_prims. world_fields.
  destruct (root_handlers w) eqn:E; run_prims; world_fields;
    rewrite ?E; by repeat case_decide.
Qed.

Lemma logging_log_keeps level text args w :
  syscalls (trace (logging.log level text args w).2) = syscalls (trace w)
  ∧ fs (logging.log level text args w).2 = fs w.
Proof.
  unfold logging.log, logging.basicConfig, logging.Logger_log,
    logging.new_StreamHandler, logging.new_handler, logging.addHandler.
  run_prims. world_fields.
  destruct (root_handlers w) eqn:E; run_prims; world_fields;
    rewrite ?E; repeat case_decide; world_fields;
    by rewrite syscalls_app, app_nil_r.
Qed.

Lemma runner_loop (files : list Path) : ∀ (acc : list Dict) w,
  ∃ res w2,
    in_order ingest_step files w res w2
    ∧ for_in files (λ file_path (ingested_results : list Dict),
        logging.info "Ingesting %s" [APath file_path];;
        r ← ingest_file_from_path file_path;
        mret (ingested_results ++ [r])%list) acc w
      = (match res with
         | Ok records => Ok (acc ++ records)%list
         | Raise e => Raise e
         end, w2).
Proof.
  induction files as [|p files IH]; intros acc w.
  - exists (Ok []), w. split; [constructor|]. cbn. by rewrite app_nil_r.
  - cbn [for_in].
    assert (Hstep : ∀ k : Dict → M (list Dict),
      (logging.info "Ingesting %s" [APath p];;
       r ← ingest_file_from_path p; k r) w
      = match ingest_step p w with
        | (Ok r, w1) => k r w1
        | (Raise e, w1) => (Raise e, w1)
        end).
    { intros k. unfold ingest_step, mbind, M_bind.
      destruct (logging.info _ _ w) as [[[]|e] w0]; [|done].
      by destruct (ingest_file_from_path p w0) as [[r|e] w1]. }
    unfold mbind at 1, M_bind at 1. rewrite Hstep.
    destruct (ingest_step p w) as [[r|e] w1] eqn:Ep.
    + cbn. destruct (IH (acc ++ [r])%list w1) as (res & w2 & Hord & ->).
      destruct res as [records|e].
      * exists (Ok (r :: records)), w2. split; [by econstructor|].
        by rewrite <- (assoc_L (++)).
      * exists (Raise e), w2. split; [by eapply in_order_later|done].
    + exists (Raise e), w1. split; [by constructor|done].
Qed.

Lemma in_order_ingest_paths files w records w2 :
  in_order ingest_step files w (Ok records) w2 →
  length records = length files
  ∧ Forall2 (λ p r, r !! "path" = Some (VStr (pathlib.str p))) files records.
Proof.
  revert w records. induction files as [|p files IH]; intros w records H;
    inversion H; subst.
  - by split; [|constructor].
  - match goal with H' : in_order _ files _ _ _ |- _ =>
      destruct (IH _ _ H') as [Hlen Hall] end.
    split; [cbn; by rewrite Hlen|]. constructor; [|done].
    match goal with H' : ingest_step p w = _ |- _ =>
      unfold ingest_step, mbind, M_bind in H';
      destruct (logging.info _ _ w) as [[[]|?] w0]; [|done];
      by apply ingest_file_returns in H' as (? & _) end.
Qed.

Lemma run_ingestion_unfold input_dir w :
  run_ingestion input_dir w
  = match list_input_files input_dir None
            (logging.info "Starting ingestion run for directory: %s"
               [APath input_dir] w).2 with
    | (Raise e, w1) => (Raise e, w1)
    | (Ok [], w1) =>
        (Ok [],
         (logging.warning "No eligible files found in %s"
            [APath input_dir] w1).2)
    | (Ok files, w1) =>
        match for_in files (λ file_path (ingested_results : list Dict),
                logging.info "Ingesting %s" [APath file_path];;
                r ← ingest_file_from_path file_path;
                mret (ingested_results ++ [r])%list) [] w1 with
        | (Ok records, w2) =>
            (Ok records,
             (logging.info "Completed ingestion run. %d file(s) processed."
                [AInt (Z.of_nat (length records))] w2).2)
        | (Raise e, w2) => (Raise e, w2)
        end
    end.
Proof.
  unfold run_ingestion, logging.info, logging.warning.
  unfold mbind at 1, M_bind at 1. rewrite logging_log_returns.
  unfold mbind at 1, M_bind at 1.
  destruct (list_input_files _ _ _) as [[[|p files]|e] w1]; [| |done].
  - unfold mbind, M_bind, mret, M_ret. by rewrite logging_log_returns.
  - unfold mbind at 1, M_bind at 1.
    destruct (for_in _ _ _ _) as [[records|e] w2]; [|done].
    unfold mbind, M_bind, mret, M_ret. by rewrite logging_log_returns.
Qed.

(** C3. [run_ingestion] calls the lister once, whatever happens next.  A
    failure of the lister is the failure of the run.  On an empty listing
    the run returns the empty list at once: it logs a warning and asks the
    file system nothing more.  Otherwise the ingestor is run on the listed
    files from left to right (after a log line each); the first failure is
    the failure of the run, in the world that failure left, the later files
    untouched; when all succeed the run returns their records in that
    order, one per listed file, each carrying the path it was made from. *)
Theorem run_ingestion_sequential (input_dir : Path) (w : World) :
  let w0 :=
    (logging.info "Starting ingestion run for directory: %s"
       [APath input_dir] w).2 in
  let out := run_ingestion input_dir w in
  lister_calls (trace out.2) = S (lister_calls (trace w))
  ∧ match list_input_files input_dir None w0 with
    | (Raise e, w1) => out = (Raise e, w1)
    | (Ok [], w1) =>
        out = (Ok [],
               (logging.warning "No eligible files found in %s"
                  [APath input_dir] w1).2)
        ∧ syscalls (trace out.2) = syscalls (trace w1)
        ∧ fs out.2 = fs w1
    | (Ok files, w1) =>
        ∃ res w2,
          in_order ingest_step files w1 res w2
          ∧ match res with
            | Ok records =>
                out = (Ok records,
                       (logging.info
                          "Completed ingestion run. %d file(s) processed."
                          [AInt (Z.of_nat (length records))] w2).2)
                ∧ length records = length files
                ∧ Forall2 (λ p r,
                     r !! "path" = Some (VStr (pathlib.str p))) files records
            | Raise e => out = (Raise e, w2)
            end
    end.
Proof.
  intros w0 out. split.
  - subst out. unfold run_ingestion.
    unfold logging.info, logging.warning in *.
    unfold mbind at 1, M_bind at 1.
    rewrite logging_log_returns. fold w0.
    apply (changes_bind (counts (lister_calls (trace w)))
             (counts (S (lister_calls (trace w))))).
    + by apply preserves_logging_log.
    + intros w' Hw'. by apply list_input_files_counts.
    + intros files.
      assert (Hi := ingest_file_keeps_count (S (lister_calls (trace w)))).
      pres.
  - subst out. rewrite run_ingestion_unfold. fold w0.
    destruct (list_input_files input_dir None w0) as [[files|e] w1]; [|done].
    destruct files as [|p files].
    + cbn [snd]. split; [done|]. apply logging_log_keeps.
    + set (listed := p :: files).
      destruct (runner_loop listed [] w1) as (res & w2 & Hord & Hloop).
      rewrite Hloop. exists res, w2. split; [done|].
      destruct res as [records|e]; [|done].
      cbn [app]. split; [done|]. by apply in_order_ingest_paths in Hord.
Qed.

(** The end-to-end scenario: two records, [a.txt] then [b.pdf], with their
    sizes; [ignore.exe] is absent. *)
Example run_ingestion_end_to_end :
  match (run_ingestion ["proj"; "input"] scenario_world).1 with
  | Ok records => (λ r : Dict, (r !! "name", r !! "size_bytes")) <$> records
  | Raise _ => []
  end
  = [(Some (VStr "a.txt"), Some (VInt 5));
     (Some (VStr "b.pdf"), Some (VInt 10))].
Proof. vm_compute. reflexivity. Qed.

(** A failure in the middle of a batch: [a.txt] and [b.pdf] are listed,
    [a.txt] is gone when its turn comes, the run raises and [b.pdf] is
    never looked at again. *)
Example run_ingestion_aborts_batch :
  (run_ingestion ["proj"; "input"] abort_world).1
    = Raise (FileNotFound ["proj"; "input"; "a.txt"])
  ∧ syscalls (trace (run_ingestion ["proj"; "input"] abort_world).2)
    = [SysExists ["proj"; "input"]; SysIsDir ["proj"; "input"];
       SysListdir ["proj"; "input"];
       SysIsFile ["proj"; "input"; "b.pdf"];
       SysIsFile ["proj"; "input"; "a.txt"];
       SysExists ["proj"; "input"; "a.txt"]].
Proof. split; vm_compute; reflexivity. Qed.


(** ** The command-line entry point *)

Lemma logging_log_last level text args w :
  ∃ sinks,
    last (trace (logging.log level text args w).2)
    = Some (ELog (mkLogRecord level "root" text args) sinks).
Proof.
  unfold logging.log, logging.basicConfig, logging.Logger_log,
    logging.new_StreamHandler, logging.new_handler, logging.addHandler.
  run_prims. world_fields.
  destruct (root_handlers w) eqn:E; run_prims; world_fields;
    rewrite ?E; repeat case_decide; world_fields;
    rewrite last_snoc; eauto.
Qed.

(** C6 as the specification states it fails: the file is listed, it
    disappears before the ingestor looks at it, the ingestor raises
    [FileNotFound] in the middle of the batch, and [main] catches that
    error, logs it and returns. *)
Lemma main_catches_vanished_file :
  ∃ log_file w0 w1 w2,
    configure_run_logger "cli_ingestion" logging.INFO vanish_world
      = (Ok log_file, w0)
    ∧ list_input_files ["proj"; "input"] None
        (logging.info "Starting ingestion run for directory: %s"
           [APath ["proj"; "input"]]
           (logging.info "CLI logging initialised. Run log file: %s"
              [APath log_file] w0).2).2
      = (Ok [["proj"; "input"; "a.txt"]], w1)
    ∧ ingest_step ["proj"; "input"; "a.txt"] w1
      = (Raise (FileNotFound ["proj"; "input"; "a.txt"]), w2)
    ∧ (main vanish_world).1 = Ok ()
    ∧ last (trace (main vanish_world).2)
      = Some (ELog (mkLogRecord logging.ERROR "root" "Ingestion failed: %s"
                      [AExn (FileNotFound ["proj"; "input"; "a.txt"])])
                   (Some (root_handlers w0))).
Proof.
  eexists _, _, _, _.
  split; [vm_compute; reflexivity|].
  split; [vm_compute; reflexivity|].
  split; [vm_compute; reflexivity|].
  split; vm_compute; reflexivity.
Qed.

(** C6, amended. Once logging is configured, [main] catches what
    [run_ingestion] raises by its class: a [FileNotFoundError] or a
    [NotADirectoryError] is logged as an error and [main] returns, be it the
    lister's [DirectoryNotFound] or [NotADirectory] or the ingestor's
    [FileNotFound] for a file that vanished after the listing; any other
    exception, the ingestor's [NotAFile] among them, leaves [main] as it
    left [run_ingestion]. *)
Theorem main_catches_by_class (w w0 w2 : World) (log_file : Path) (e : Exn) :
  configure_run_logger "cli_ingestion" logging.INFO w = (Ok log_file, w0) →
  run_ingestion (pathlib.truediv (install_dir w) "input")
    (logging.info "CLI logging initialised. Run log file: %s"
       [APath log_file] w0).2 = (Raise e, w2) →
  (exn_class e = FileNotFoundError ∨ exn_class e = NotADirectoryError →
     main w = (Ok (), (logging.error "Ingestion failed: %s" [AExn e] w2).2)
     ∧ ∃ sinks,
         last (trace (main w).2)
         = Some (ELog (mkLogRecord logging.ERROR "root"
                         "Ingestion failed: %s" [AExn e]) sinks))
  ∧ (exn_class e ≠ FileNotFoundError → exn_class e ≠ NotADirectoryError →
     main w = (Raise e, w2))
  ∧ (∀ p, e = DirectoryNotFound p ∨ e = NotADirectory p ∨ e = FileNotFound p →
          (main w).1 = Ok ())
  ∧ (∀ p, e = NotAFile p → (main w).1 = Raise e).
Proof.
  intros Hconf Hrun.
  assert (Hmain : main w =
    if decide (exn_class e ∈ main_except)
    then (Ok (), (logging.error "Ingestion failed: %s" [AExn e] w2).2)
    else (Raise e, w2)).
  { unfold main. unfold mbind at 1, M_bind at 1. cbv beta iota zeta.
    unfold mbind at 1, M_bind at 1. rewrite Hconf.
    unfold mbind at 1, M_bind at 1. unfold logging.info at 1.
    rewrite logging_log_returns. fold (logging.info).
    unfold mbind at 1, M_bind at 1, try_except.
    unfold mbind at 1, M_bind at 1. rewrite Hrun.
    destruct (decide (exn_class e ∈ main_except)); [|done].
    unfold mbind, M_bind, mret, M_ret, logging.error.
    by rewrite logging_log_returns. }
  assert (Hcaught : exn_class e = FileNotFoundError
                    ∨ exn_class e = NotADirectoryError →
                    main w = (Ok (),
                      (logging.error "Ingestion failed: %s" [AExn e] w2).2)).
  { intros Hclass. rewrite Hmain, decide_True; [done|].
    unfold main_except. destruct Hclass as [-> | ->]; repeat constructor. }
  assert (Hnot : exn_class e ≠ FileNotFoundError →
                 exn_class e ≠ NotADirectoryError → main w = (Raise e, w2)).
  { intros H1 H2. rewrite Hmain, decide_False; [done|].
    unfold main_except. intros Hin.
    repeat (apply elem_of_cons in Hin as [Hin|Hin]); try done.
    by apply elem_of_nil in Hin. }
  split; [|split; [exact Hnot|split]].
  - intros Hclass. split; [by apply Hcaught|].
    rewrite (Hcaught Hclass). cbn [snd]. apply logging_log_last.
  - intros p Hp. rewrite Hcaught; [done|].
    destruct Hp as [-> | [-> | ->]]; cbn; auto.
  - intros p ->. by rewrite Hnot.
Qed.

Lemma main_catches_by_class_witness :
  (main swap_world).1 = Raise (NotAFile ["proj"; "input"; "a.txt"])
  ∧ (main vanish_world).1 = Ok ().
Proof.
  assert (Hswap : ∃ log_file w0 w2,
    configure_run_logger "cli_ingestion" logging.INFO swap_world
      = (Ok log_file, w0)
    ∧ run_ingestion (pathlib.truediv (install_dir swap_world) "input")
        (logging.info "CLI logging initialised. Run log file: %s"
           [APath log_file] w0).2
      = (Raise (NotAFile ["proj"; "input"; "a.txt"]), w2)).
  { eexists _, _, _. split; [vm_compute; reflexivity|].
    vm_compute. reflexivity. }
  assert (Hvanish : ∃ log_file w0 w2,
    configure_run_logger "cli_ingestion" logging.INFO vanish_world
      = (Ok log_file, w0)
    ∧ run_ingestion (pathlib.truediv (install_dir vanish_world) "input")
        (logging.info "CLI logging initialised. Run log file: %s"
           [APath log_file] w0).2
      = (Raise (FileNotFound ["proj"; "input"; "a.txt"]), w2)).
  { eexists _, _, _. split; [vm_compute; reflexivity|].
    vm_compute. reflexivity. }
  destruct Hswap as (lf & w0 & w2 & Hconf & Hrun).
  destruct Hvanish as (lf' & w0' & w2' & Hconf' & Hrun').
  split.
  - destruct (main_catches_by_class swap_world w0 w2 lf _ Hconf Hrun)
      as (_ & _ & _ & H).
    apply (H ["proj"; "input"; "a.txt"]). reflexivity.
  - destruct (main_catches_by_class vanish_world w0' w2' lf' _ Hconf' Hrun')
      as (_ & _ & H & _).
    apply (H ["proj"; "input"; "a.txt"]). right. right. reflexivity.
Defined.

(** * Further properties of the code *)

(** ** The record of the ingestor *)

(** The dictionary an ingestion returns has the seven keys of the source,
    no other, and names the local folder as its source. *)
Lemma ingest_record_keys path w r w' :
  ingest_file_from_path path w = (Ok r, w') →
  dom r = {["file_id"; "name"; "extension"; "source"; "path";
            "size_bytes"; "content_bytes"]}
  ∧ r !! "source" = Some (VStr "local_folder").
Proof.
  unfold ingest_file_from_path. run_prims.
  destruct (OS.exists_ _ _); cbn [negb]; [|by run_prims].
  run_prims.
  destruct (OS.is_file _ _); cbn [negb]; [|by run_prims].
  run_prims.
  destruct (OS.read _ _); [by run_prims|]. run_prims.
  destruct (OS.stat _ _); [|by run_prims]. run_prims.
  intros [= <- <-]. split; [|done].
  rewrite !dom_insert_L, dom_empty_L. set_solver.
Qed.

Lemma ingest_record_keys_witness :
  ∃ r w',
    ingest_file_from_path ["proj"; "input"; "a.txt"] demo_world = (Ok r, w')
    ∧ dom r = {["file_id"; "name"; "extension"; "source"; "path";
                "size_bytes"; "content_bytes"]}.
Proof.
  destruct (ingest_file_ok ["proj"; "input"; "a.txt"] demo_world
              (demo_bytes "hello")) as (r & w' & Hrun & _).
  - intros t. reflexivity.
  - reflexivity.
  - exists r, w'. split; [exact Hrun|].
    apply (ingest_record_keys _ _ _ _ Hrun).
Defined.

(** ** The extension is what follows the last dot *)

Lemma rfind_from_found c s i last :
  PyStr.rfind_from c s i last = last ∧ PyStr.mem_char c s = false
  ∨ ∃ pre post,
      s = pre +:+ String c post
      ∧ PyStr.rfind_from c s i last = (i + Z.of_nat (String.length pre))%Z
      ∧ PyStr.mem_char c post = false.
Proof.
  revert i last. induction s as [|d s IH]; intros i last; [by left|].
  cbn [PyStr.rfind_from PyStr.mem_char]. rewrite (Ascii.eqb_sym c d).
  destruct (IH (i + 1)%Z (if Ascii.eqb d c then i else last))
    as [[Hr Hm]|(pre & post & -> & Hr & Hm)].
  - rewrite Hr, Hm. destruct (Ascii.eqb d c) eqn:E.
    + right. apply Ascii.eqb_eq in E as ->. exists "", s.
      split; [done|]. split; [cbn; lia|done].
    + by left.
  - right. exists (String d pre), post. rewrite string_app_cons.
    split; [done|]. split; [|done]. rewrite Hr. cbn [String.length]. lia.
Qed.

Lemma string_app_length (a b : string) :
  String.length (a +:+ b) = String.length a + String.length b.
Proof.
  induction a as [|c a IH]; [done|].
  rewrite string_app_cons. cbn [String.length]. by rewrite IH.
Qed.

Lemma drop_app_length (a b : string) :
  PyStr.drop (String.length a) (a +:+ b) = b.
Proof.
  induction a as [|c a IH]; [by destruct b|].
  by rewrite string_app_cons.
Qed.

Lemma suffix_shape p :
  pathlib.suffix p = ""
  ∨ ∃ stem e,
      pathlib.name p = stem +:+ "." +:+ e
      ∧ stem ≠ "" ∧ e ≠ "" ∧ PyStr.mem_char "." e = false
      ∧ pathlib.suffix p = "." +:+ e.
Proof.
  unfold pathlib.suffix, PyStr.rfind.
  destruct (rfind_from_found "." (pathlib.name p) 0 (-1))
    as [[-> _]|(pre & post & Hname & -> & Hpost)]; [by left|].
  rewrite Hname.
  destruct (_ && _)%bool eqn:Hcond; [|by left]. right.
  apply andb_true_iff in Hcond as [H1%Z.ltb_lt H2%Z.ltb_lt].
  rewrite string_app_length in H2. cbn [String.length] in H2.
  exists pre, post. split; [done|].
  split; [intros ->; cbn in H1; lia|].
  split; [intros ->; cbn in H2; lia|]. split; [done|].
  rewrite Z.add_0_l, Nat2Z.id. apply drop_app_length.
Qed.

Lemma lstrip_dot_free e :
  PyStr.mem_char "." e = false → PyStr.lstrip "." e = e.
Proof.
  destruct e as [|c e]; [done|]. cbn [PyStr.mem_char PyStr.lstrip].
  rewrite (Ascii.eqb_sym "." c). by destruct (Ascii.eqb c ".").
Qed.

Lemma lower_dot_free e :
  PyStr.mem_char "." (PyStr.lower e) = PyStr.mem_char "." e.
Proof.
  induction e as [|c e IH]; [done|].
  cbn [PyStr.lower PyStr.mem_char]. rewrite IH.
  pose proof (lower_char_dot c) as H. cbn [PyStr.mem_char] in H.
  rewrite (Ascii.eqb_sym "." c), (Ascii.eqb_sym "." (PyStr.lower_char c)).
  by destruct (Ascii.eqb (PyStr.lower_char c) "."), (Ascii.eqb c ".").
Qed.

Lemma lower_empty e : PyStr.lower e = "" → e = "".
Proof. by destruct e. Qed.

(** The extension of a record is lowercase and has no dot; when it is
    not empty, the name of the file is a non-empty stem, a dot, and the
    extension in some case: the extension is what follows the last dot. *)
Lemma ingest_extension_shape path w r w' :
  ingest_file_from_path path w = (Ok r, w') →
  ∃ ext,
    r !! "extension" = Some (VStr ext)
    ∧ PyStr.lower ext = ext
    ∧ PyStr.mem_char "." ext = false
    ∧ (ext ≠ "" →
       ∃ stem e, pathlib.name path = stem +:+ "." +:+ e
                 ∧ stem ≠ "" ∧ PyStr.mem_char "." e = false
                 ∧ ext = PyStr.lower e).
Proof.
  intros (_ & _ & Hext & _)%ingest_file_returns.
  exists (normalized (pathlib.suffix path)). split; [done|].
  unfold normalized.
  destruct (suffix_shape path) as [->|(stem & e & Hname & Hstem & He & Hdot & ->)].
  - by repeat split.
  - change (PyStr.lstrip "." ("." +:+ e)) with (PyStr.lstrip "." e).
    rewrite lstrip_dot_free by done.
    split; [apply lower_idem|]. split; [by rewrite lower_dot_free|].
    intros _. by exists stem, e.
Qed.

Lemma ingest_extension_shape_witness :
  ∃ r w' ext,
    ingest_file_from_path ["proj"; "input"; "REPORT.CSV"] demo_world
      = (Ok r, w')
    ∧ r !! "extension" = Some (VStr ext)
    ∧ PyStr.lower ext = ext
    ∧ PyStr.mem_char "." ext = false.
Proof.
  destruct (ingest_file_ok ["proj"; "input"; "REPORT.CSV"] demo_world
              (demo_bytes "x,y")) as (r & w' & Hrun & _).
  - intros t. reflexivity.
  - reflexivity.
  - destruct (ingest_extension_shape _ _ _ _ Hrun)
      as (ext & H1 & H2 & H3 & _).
    exists r, w', ext. auto.
Defined.

(** ** More about the lister *)

Lemma filter_agree {A} (P Q : A → Prop) `{∀ x, Decision (P x)}
    `{∀ x, Decision (Q x)} (l : list A) :
  (∀ x, x ∈ l → (P x ↔ Q x)) → filter P l = filter Q l.
Proof.
  induction l as [|x l IH]; intros Hl; [done|].
  assert (Hx : P x ↔ Q x) by (apply Hl; left).
  assert (Hrest : filter P l = filter Q l).
  { apply IH. intros y ?. apply Hl. by right. }
  destruct (decide (P x)) as [HP|HP].
  - rewrite !filter_cons_True by tauto. by rewrite Hrest.
  - rewrite !filter_cons_False by tauto. done.
Qed.

(** The allow-list counts as the set of its normalized entries: case,
    leading dots, order and repetitions of the entries do not change what
    the lister returns. *)
Lemma list_input_files_allow_list_as_set (input_dir : Path)
    (l1 l2 : list string) (w : World) (es : list (string * Node)) :
  quiet w →
  OS.stat (fs w) input_dir = Some (Dir es) →
  (∀ x, x ∈ normalized <$> l1 ↔ x ∈ normalized <$> l2) →
  (list_input_files input_dir (Some l1) w).1
  = (list_input_files input_dir (Some l2) w).1.
Proof.
  intros Hq Hst Hsame.
  destruct (list_input_files_ok input_dir (Some l1) w es Hq Hst)
    as (w1 & -> & _).
  destruct (list_input_files_ok input_dir (Some l2) w es Hq Hst)
    as (w2 & -> & _).
  cbn [fst]. do 2 f_equal. apply filter_agree. intros p _.
  unfold eligible, allow_set. cbn [default from_option id].
  rewrite !elem_of_list_to_set, Hsame. done.
Qed.

Lemma list_input_files_allow_list_as_set_witness :
  (list_input_files demo_input (Some [".TXT"; "Pdf"; "...pdf"]) demo_world).1
  = (list_input_files demo_input (Some ["pdf"; "txt"]) demo_world).1.
Proof.
  apply (list_input_files_allow_list_as_set demo_input
           [".TXT"; "Pdf"; "...pdf"] ["pdf"; "txt"] demo_world demo_entries).
  - intros t. reflexivity.
  - reflexivity.
  - intros x. vm_compute normalized. cbn [fmap list_fmap].
    rewrite !elem_of_cons, !elem_of_nil. tauto.
Defined.

(** No path is returned twice when the directory holds no name twice. *)
Lemma list_input_files_no_duplicates (input_dir : Path)
    (allowed_extensions : option (list string)) (w : World)
    (es : list (string * Node)) :
  quiet w →
  OS.stat (fs w) input_dir = Some (Dir es) →
  NoDup es.*1 →
  ∃ files w',
    list_input_files input_dir allowed_extensions w = (Ok files, w')
    ∧ NoDup files.
Proof.
  intros Hq Hst Hnd.
  destruct (list_input_files_ok input_dir allowed_extensions w es Hq Hst)
    as (w' & Hrun & _).
  eexists _, w'. split; [exact Hrun|].
  rewrite merge_sort_Permutation. apply NoDup_filter.
  apply NoDup_fmap_2; [|done].
  intros a b Hab. unfold pathlib.child in Hab.
  by apply app_inv_head in Hab as [= ->].
Qed.

Lemma list_input_files_no_duplicates_witness :
  ∃ files w',
    list_input_files demo_input None demo_world = (Ok files, w')
    ∧ NoDup files.
Proof.
  apply (list_input_files_no_duplicates demo_input None demo_world
           demo_entries).
  - intros t. reflexivity.
  - reflexivity.
  - apply (bool_decide_unpack _). vm_compute. exact I.
Defined.

(** The result does not depend on the order in which the directory gives
    its entries: two states of a directory with the same names and the
    same regular files give the same list. *)
Lemma list_input_files_order_independent (input_dir : Path)
    (allowed_extensions : option (list string)) (w1 w2 : World)
    (es1 es2 : list (string * Node)) :
  quiet w1 → quiet w2 →
  OS.stat (fs w1) input_dir = Some (Dir es1) →
  OS.stat (fs w2) input_dir = Some (Dir es2) →
  es1.*1 ≡ₚ es2.*1 →
  (∀ nm, nm ∈ es1.*1 →
     OS.is_file (fs w1) (pathlib.child input_dir nm)
     = OS.is_file (fs w2) (pathlib.child input_dir nm)) →
  (list_input_files input_dir allowed_extensions w1).1
  = (list_input_files input_dir allowed_extensions w2).1.
Proof.
  intros Hq1 Hq2 Hst1 Hst2 Hperm Hfiles.
  destruct (list_input_files_ok input_dir allowed_extensions w1 es1 Hq1 Hst1)
    as (w1' & -> & _).
  destruct (list_input_files_ok input_dir allowed_extensions w2 es2 Hq2 Hst2)
    as (w2' & -> & _).
  cbn [fst]. f_equal.
  apply (Sorted_unique pathlib.le); try apply (Sorted_merge_sort _).
  rewrite !merge_sort_Permutation.
  rewrite (filter_agree (eligible (fs w1) (allow_set allowed_extensions))
             (eligible (fs w2) (allow_set allowed_extensions))).
  - by rewrite Hperm.
  - intros p (nm & -> & Hnm)%list_elem_of_fmap. unfold eligible.
    by rewrite Hfiles.
Qed.

Lemma list_input_files_order_independent_witness :
  (list_input_files ["proj"; "input"] None scenario_world).1
  = (list_input_files ["proj"; "input"] None shuffled_world).1.
Proof.
  apply (list_input_files_order_independent ["proj"; "input"] None
           scenario_world shuffled_world
           [("ignore.exe", File (demo_bytes "abc"));
            ("b.pdf", File (demo_bytes "0123456789"));
            ("a.txt", File (demo_bytes "hello"))]
           [("a.txt", File (demo_bytes "hello"));
            ("ignore.exe", File (demo_bytes "abc"));
            ("b.pdf", File (demo_bytes "0123456789"))]).
  - intros t. reflexivity.
  - intros t. reflexivity.
  - reflexivity.
  - reflexivity.
  - cbn. symmetry.
    apply (Permutation_cons_append ["ignore.exe"; "b.pdf"] "a.txt").
  - intros nm Hnm. cbn in Hnm.
    repeat (apply elem_of_cons in Hnm as [->|Hnm]); try reflexivity.
    by apply elem_of_nil in Hnm.
Defined.

(** ** What a run of the ingestion never does *)

Lemma stable_Logger_log P name level text args :
  stable P → preserves P (logging.Logger_log name level text args).
Proof. intros (He & _) w Hw. by apply He. Qed.

Lemma stable_logging_log P level text args :
  stable P → preserves P (logging.log level text args).
Proof.
  intros (He & _ & Hb & Hh) w Hw.
  unfold logging.log, logging.basicConfig, logging.Logger_log,
    logging.new_StreamHandler, logging.new_handler, logging.addHandler,
    mbind, M_bind, mret, M_ret.
  destruct (root_handlers w) eqn:E; cbn beta iota zeta; [|by apply He].
  cbn [root_handlers bump_hid]. rewrite E.
  case_decide; cbn [snd]; apply He; case_decide; auto.
Qed.

Lemma stable_path_calls P p :
  stable P →
  preserves P (Path.exists_ p)
  ∧ preserves P (Path.is_dir p)
  ∧ preserves P (Path.is_file p)
  ∧ preserves P (Path.iterdir p)
  ∧ preserves P (Path.read_bytes p)
  ∧ preserves P (Path.stat_size p).
Proof.
  intros (_ & Ho & _).
  repeat split; intros w Hw; run_prims;
    try (destruct (OS.listdir _ _)); try (destruct (OS.read _ _));
    try (destruct (OS.stat _ _)); by apply Ho.
Qed.

Lemma stable_uuid4 P : stable P → preserves P uuid.uuid4.
Proof. intros (_ & Ho & _) w Hw. by apply Ho. Qed.

Lemma stable_getitem P d key : preserves P (getitem d key).
Proof. intros w Hw. unfold getitem. by destruct (d !! key). Qed.

Ltac keeps HS :=
  repeat first
    [ apply preserves_ret
    | apply preserves_raise
    | apply stable_getitem
    | apply (stable_logging_log _ _ _ _ HS)
    | apply (stable_Logger_log _ _ _ _ _ HS)
    | apply (stable_path_calls _ _ HS)
    | apply (stable_uuid4 _ HS)
    | apply preserves_bind; [|intros ?]
    | apply preserves_for_in; intros ? ?
    | match goal with
      | |- preserves _ (if ?b then _ else _) => destruct b
      | |- preserves _ (match ?x with _ => _ end) => destruct x
      end
    | progress cbv zeta ].

Lemma stable_ingest_file_from_path P path :
  stable P → preserves P (ingest_file_from_path path).
Proof. intros HS. unfold ingest_file_from_path. keeps HS. Qed.

Lemma stable_list_input_files P input_dir allowed :
  stable P → preserves P (list_input_files input_dir allowed).
Proof. intros HS. unfold list_input_files. keeps HS. Qed.

Lemma stable_run_ingestion P input_dir :
  stable P → preserves P (run_ingestion input_dir).
Proof.
  intros HS. unfold run_ingestion, logging.info, logging.warning.
  assert (Hi := stable_ingest_file_from_path P).
  assert (Hl := stable_list_input_files P).
  keeps HS; auto.
Qed.

Lemma stable_reads_only t0 :
  stable (λ w, ∃ t, trace w = (t0 ++ t)%list ∧ reads_only t).
Proof.
  unfold reads_only. repeat split.
  - intros r sinks w (t & Ht & Hr). exists (t ++ [ELog r sinks])%list.
    cbn [trace emit]. rewrite Ht, (assoc_L (++)). split; [done|].
    by rewrite syscalls_app, app_nil_r.
  - intros c w Hc (t & Ht & Hr). exists (t ++ [ESys c])%list.
    cbn [trace os_step]. rewrite Ht, (assoc_L (++)). split; [done|].
    rewrite syscalls_app. apply Forall_app. split; [done|].
    by repeat constructor.
  - intros w H. exact H.
  - intros hs w H. exact H.
Qed.

Lemma stable_quiet_tree fs0 : stable (λ w, quiet w ∧ fs w = fs0).
Proof.
  split; [|split; [|split]].
  - intros r sinks w H. exact H.
  - intros c w _ [Hq Hfs]. split; [exact Hq|].
    cbn [fs os_step]. by rewrite Hq.
  - intros w H. exact H.
  - intros hs w H. exact H.
Qed.

Lemma stable_logger_untouched level cl :
  stable (λ w, root_level w = level ∧ closed w = cl).
Proof. split; [|split; [|split]]; intros; assumption. Qed.

(** A run of the ingestion only reads.  In any world, the calls that
    [run_ingestion], [list_input_files] and [ingest_file_from_path] make to
    the outside never create a directory and never open a file for
    writing, be it to append as a log handler does or to overwrite as
    [write_bytes] does, whether they return or raise; and a run leaves the
    level of the root logger and the closed handlers alone. *)
Lemma ingestion_never_writes (input_dir path : Path)
    (allowed_extensions : option (list string)) (w : World) :
  (∃ t, trace (run_ingestion input_dir w).2 = (trace w ++ t)%list
        ∧ reads_only t)
  ∧ (∃ t, trace (list_input_files input_dir allowed_extensions w).2
          = (trace w ++ t)%list ∧ reads_only t)
  ∧ (∃ t, trace (ingest_file_from_path path w).2 = (trace w ++ t)%list
          ∧ reads_only t)
  ∧ root_level (run_ingestion input_dir w).2 = root_level w
  ∧ closed (run_ingestion input_dir w).2 = closed w.
Proof.
  assert (Hstart : ∃ t, trace w = (trace w ++ t)%list ∧ reads_only t).
  { exists []. split; [by rewrite app_nil_r|constructor]. }
  split; [|split; [|split]].
  - by apply (stable_run_ingestion _ input_dir (stable_reads_only (trace w))).
  - by apply (stable_list_input_files _ input_dir allowed_extensions
                (stable_reads_only (trace w))).
  - by apply (stable_ingest_file_from_path _ path
                (stable_reads_only (trace w))).
  - by apply (stable_run_ingestion _ input_dir
                (stable_logger_untouched (root_level w) (closed w)) w).
Qed.

(** By contrast an upload is seen writing: it makes the input directory
    and writes the file. *)
Example save_uploaded_file_is_seen_writing :
  let t := trace (save_uploaded_file
                    (mkUploadedFile "notes.TXT" (demo_bytes "hi"))
                    fresh_world).2 in
  syscalls t = [SysMkdir ["proj"; "input"];
                SysWrite ["proj"; "input"; "notes.TXT"]]
  ∧ ¬ reads_only t.
Proof.
  intros t.
  assert (H : syscalls t = [SysMkdir ["proj"; "input"];
                            SysWrite ["proj"; "input"; "notes.TXT"]])
    by (vm_compute; reflexivity).
  split; [exact H|]. unfold reads_only. rewrite H. intros Hall.
  apply Forall_cons in Hall as [Hw _]. discriminate Hw.
Qed.

(** ** A run on a tree nobody else changes *)

Lemma bind_run {A B} (m : M A) (k : A → M B) w a w1 :
  m w = (Ok a, w1) → (m ≫= k) w = k a w1.
Proof. intros H. unfold mbind, M_bind. by rewrite H. Qed.

Lemma bind_raise {A B} (m : M A) (k : A → M B) w e w1 :
  m w = (Raise e, w1) → (m ≫= k) w = (Raise e, w1).
Proof. intros H. unfold mbind, M_bind. by rewrite H. Qed.

Lemma is_file_stat root p :
  OS.is_file root p = true →
  ∃ n, OS.stat root p = Some n
       ∧ ((∃ content, n = File content) ∨ (∃ content s, n = Virtual content s)).
Proof.
  unfold OS.is_file. destruct (OS.stat root p) as [[]|]; try done;
    (eexists; split; [reflexivity|]; eauto).
Qed.

Lemma ingest_file_regular p w :
  quiet w → OS.is_file (fs w) p = true →
  ∃ r w',
    ingest_file_from_path p w = (Ok r, w')
    ∧ record_of (fs w) p r ∧ quiet w' ∧ fs w' = fs w.
Proof.
  intros Hq Hp.
  destruct (is_file_stat _ _ Hp) as (n & Hst & [[content ->]|(content & s & ->)]).
  - destruct (ingest_file_ok p w content Hq Hst)
      as (r & w' & Hrun & _ & Hn & He & _ & Hpa & Hsz & Hc & Hq1 & Hfs1 & _).
    exists r, w'. split; [done|]. split; [|done].
    exists (File content), content. unfold OS.read. rewrite Hst.
    by repeat split.
  - destruct (ingest_file_virtual p w content s Hq Hst)
      as (r & w' & Hrun & Hn & He & Hpa & Hsz & Hc & Hq1 & Hfs1).
    exists r, w'. split; [done|]. split; [|done].
    exists (Virtual content s), content. unfold OS.read. rewrite Hst.
    by repeat split.
Qed.

Lemma logging_log_quiet level text args w :
  quiet w →
  quiet (logging.log level text args w).2
  ∧ fs (logging.log level text args w).2 = fs w.
Proof.
  intros Hq.
  by apply (stable_logging_log _ level text args (stable_quiet_tree (fs w))).
Qed.

Lemma runner_loop_quiet root (files : list Path) :
  Forall (λ p, OS.is_file root p = true) files →
  ∀ (acc : list Dict) w, quiet w → fs w = root →
  ∃ records w2,
    for_in files (λ file_path (ingested_results : list Dict),
        logging.info "Ingesting %s" [APath file_path];;
        r ← ingest_file_from_path file_path;
        mret (ingested_results ++ [r])%list) acc w
      = (Ok (acc ++ records)%list, w2)
    ∧ Forall2 (record_of root) files records
    ∧ quiet w2 ∧ fs w2 = root.
Proof.
  induction 1 as [|p files Hp _ IH]; intros acc w Hq Hfs.
  - exists [], w. cbn. rewrite app_nil_r. by repeat split.
  - destruct (logging_log_quiet logging.INFO "Ingesting %s" [APath p] w Hq)
      as [Hq0 Hfs0].
    destruct (ingest_file_regular p _ Hq0)
      as (r & w1 & Hrun & Hrec & Hq1 & Hfs1).
    { by rewrite Hfs0, Hfs. }
    rewrite Hfs0, Hfs in Hrec.
    destruct (IH (acc ++ [r])%list w1) as (records & w2 & Hloop & Hall & Hq2 & Hfs2);
      [done|congruence|].
    exists (r :: records), w2. split; [|split; [|done]].
    + cbn [for_in]. rewrite (bind_run _ _ w (acc ++ [r])%list w1).
      * rewrite Hloop. by rewrite <- (assoc_L (++)).
      * unfold logging.info.
        rewrite (bind_run _ _ w () _ (logging_log_returns _ _ _ w)).
        by rewrite (bind_run _ _ _ r w1 Hrun).
    + by constructor.
Qed.

Lemma run_ingestion_on_quiet (input_dir : Path) (w : World)
    (es : list (string * Node)) :
  quiet w → OS.stat (fs w) input_dir = Some (Dir es) →
  ∃ records w',
    run_ingestion input_dir w = (Ok records, w')
    ∧ Forall2 (record_of (fs w))
        (merge_sort pathlib.le
           (filter (eligible (fs w) (allow_set None))
                   (pathlib.child input_dir <$> es.*1)))
        records
    ∧ quiet w' ∧ fs w' = fs w.
Proof.
  intros Hq Hdir. rewrite run_ingestion_unfold. unfold logging.info, logging.warning.
  destruct (logging_log_quiet logging.INFO
              "Starting ingestion run for directory: %s" [APath input_dir] w Hq)
    as [Hq0 Hfs0].
  destruct (list_input_files_ok input_dir None _ es Hq0) as (w1 & -> & Hq1 & Hfs1).
  { by rewrite Hfs0. }
  rewrite Hfs0. rewrite Hfs0 in Hfs1.
  set (files := merge_sort _ _).
  assert (Hfiles : Forall (λ p, OS.is_file (fs w) p = true) files).
  { apply Forall_forall. intros p Hin. subst files.
    rewrite merge_sort_Permutation in Hin.
    by apply list_elem_of_filter in Hin as [[? _] _]. }
  destruct files as [|p rest] eqn:E.
  - eexists [], _. split; [reflexivity|]. split; [constructor|].
    destruct (logging_log_quiet logging.WARNING
                "No eligible files found in %s" [APath input_dir] w1 Hq1)
      as [? ?].
    split; [done|congruence].
  - destruct (runner_loop_quiet (fs w) (p :: rest) Hfiles [] w1 Hq1 Hfs1)
      as (records & w2 & Hloop & Hall & Hq2 & Hfs2).
    unfold logging.info in Hloop. rewrite Hloop. cbn [app].
    eexists records, _. split; [reflexivity|]. split; [done|].
    destruct (logging_log_quiet logging.INFO
                "Completed ingestion run. %d file(s) processed."
                [AInt (Z.of_nat (length records))] w2 Hq2) as [? ?].
    split; [done|congruence].
Qed.

(** On an input directory that nobody else changes, what [run_ingestion]
    returns is determined by the directory: whenever the run returns, it
    has returned one record per file that the lister selects, in the sorted
    order of the listing, and each record carries the name, the normalized
    extension and the path of its file, the size that [stat] reports for
    it and the bytes that a read of it returns. *)
Lemma run_ingestion_quiet (input_dir : Path) (w w' : World)
    (es : list (string * Node)) (records : list Dict) :
  quiet w → OS.stat (fs w) input_dir = Some (Dir es) →
  run_ingestion input_dir w = (Ok records, w') →
  Forall2 (record_of (fs w)) (listed (fs w) input_dir es) records.
Proof.
  intros Hq Hdir Hrun.
  destruct (run_ingestion_on_quiet input_dir w es Hq Hdir)
    as (records0 & w0 & H1 & H2 & _).
  rewrite Hrun in H1. by injection H1 as -> _.
Qed.

Lemma run_ingestion_quiet_witness :
  ∃ records w',
    run_ingestion demo_input demo_world = (Ok records, w')
    ∧ Forall2 (record_of demo_tree)
        (listed demo_tree demo_input demo_entries) records.
Proof.
  destruct (run_ingestion_on_quiet demo_input demo_world demo_entries)
    as (records & w' & Hrun & _).
  - intros t. reflexivity.
  - reflexivity.
  - exists records, w'. split; [exact Hrun|].
    apply (run_ingestion_quiet demo_input demo_world w' demo_entries records).
    + intros t. reflexivity.
    + reflexivity.
    + exact Hrun.
Defined.

(** ** The file tree after a write *)

Lemma assoc_set_entry c n es : OS.assoc c (OS.set_entry c n es) = Some n.
Proof.
  induction es as [|[k m] es IH]; cbn.
  - by rewrite decide_True.
  - destruct (decide (k = c)) as [->|Hne]; cbn.
    + by rewrite decide_True.
    + by rewrite decide_False.
Qed.

Lemma assoc_set_entry_ne c d n es :
  c ≠ d → OS.assoc d (OS.set_entry c n es) = OS.assoc d es.
Proof.
  intros Hne. induction es as [|[k m] es IH]; cbn.
  - by rewrite decide_False.
  - destruct (decide (k = c)) as [->|Hkc]; cbn.
    + by rewrite !decide_False.
    + by rewrite IH.
Qed.

Lemma set_entry_same c n es :
  OS.assoc c es = Some n → OS.set_entry c n es = es.
Proof.
  induction es as [|[k m] es IH]; cbn; [done|].
  destruct (decide (k = c)) as [->|Hne]; [by intros [= ->]|].
  intros H. by rewrite IH.
Qed.

Lemma makedirs_stat whole p : ∀ n n',
  OS.makedirs whole n p = inr n' → ∃ es, OS.stat n' p = Some (Dir es).
Proof.
  unfold OS.stat.
  induction p as [|c p IH]; intros n n'; cbn.
  - destruct n; intros [= <-]. eauto.
  - destruct n as [|es| | |]; try done.
    destruct (OS.makedirs whole _ p) as [e|n1] eqn:E; [done|].
    intros [= <-]. rewrite assoc_set_entry. by eapply IH.
Qed.

Lemma makedirs_existing whole p : ∀ n es,
  OS.stat n p = Some (Dir es) → OS.makedirs whole n p = inr n.
Proof.
  unfold OS.stat.
  induction p as [|c p IH]; intros n es; cbn.
  - destruct n; try done.
  - destruct n as [|es0| | |]; try done.
    destruct (OS.assoc c es0) as [n1|] eqn:E; [|done]. cbn.
    intros H. rewrite (IH _ _ H). by rewrite set_entry_same.
Qed.

Lemma open_append_stat whole p : ∀ n n',
  OS.open_append whole n p = inr n' →
  ∃ m, OS.stat n' p = Some m ∧ ∀ es, m ≠ Dir es.
Proof.
  unfold OS.stat.
  induction p as [|c p IH]; intros n n'; cbn.
  - destruct n; intros [= <-]; eauto.
  - destruct n as [|es| | |]; try done.
    destruct (OS.assoc c es) as [n1|] eqn:E.
    + destruct (OS.open_append whole n1 p) as [e|n2] eqn:E2; [done|].
      intros [= <-]. rewrite assoc_set_entry. by eapply IH.
    + destruct p; [|done]. intros [= <-]. rewrite assoc_set_entry. cbn. eauto.
Qed.

Lemma write_stat whole p data : ∀ n n',
  OS.write whole n p data = inr n' →
  OS.stat n' p = Some (File data)
  ∨ OS.stat n p = Some Special ∧ OS.stat n' p = Some Special.
Proof.
  unfold OS.stat.
  induction p as [|c p IH]; intros n n'; cbn.
  - destruct n; intros [= <-]; eauto.
  - destruct n as [|es| | |]; try done.
    destruct (OS.assoc c es) as [n1|] eqn:E.
    + destruct (OS.write whole n1 p data) as [e|n2] eqn:E2; [done|].
      intros [= <-]. rewrite assoc_set_entry. by eapply IH.
    + destruct p; [|done]. intros [= <-]. rewrite assoc_set_entry. cbn. eauto.
Qed.

(** ** The run logger, outcome by outcome *)

Lemma configure_run_logger_run app_name level w :
  let now := localtime w (ticks w) in
  let stamp := app_name +:+ "_" +:+ datetime.strftime_Ymd_HMS now in
  let run_dir :=
    pathlib.truediv
      (pathlib.truediv (pathlib.truediv (install_dir w) "logs")
         (datetime.strftime_Ymd now)) stamp in
  let log_file :=
    pathlib.truediv run_dir
      (app_name +:+ "_" +:+ datetime.strftime_Ymd_HMS now +:+ ".log") in
  let w1 := os_step (SysMkdir run_dir) (os_step SysNow w) in
  match OS.makedirs run_dir (fs w1) run_dir with
  | inl e => configure_run_logger app_name level w = (Raise e, w1)
  | inr n =>
      let tree := default n (env w (2 + ticks w)) in
      ∃ w',
        match OS.open_append log_file tree log_file with
        | inl e =>
            configure_run_logger app_name level w = (Raise e, w')
            ∧ fs w' = tree ∧ root_handlers w' = []
            ∧ next_hid w' = next_hid w
            ∧ trace w' = (trace w ++ [ESys SysNow; ESys (SysMkdir run_dir);
                                      ESys (SysOpenAppend log_file)])%list
        | inr n' =>
            configure_run_logger app_name level w = (Ok log_file, w')
            ∧ fs w' = n'
            ∧ syscalls (trace w')
              = (syscalls (trace w) ++ [SysNow; SysMkdir run_dir;
                                        SysOpenAppend log_file])%list
        end
        ∧ closed w' = (closed w ++ root_handlers w)%list
        ∧ root_level w' = level
        ∧ env w' = env w ∧ ticks w' = 3 + ticks w
        ∧ install_dir w' = install_dir w
  end.
Proof.
  unfold configure_run_logger, _build_run_log_paths, _project_root,
    datetime.now, Path.mkdir.
  run_prims. world_fields.
  destruct (OS.makedirs _ _ _) as [e|n]; [by run_prims|].
  run_prims. world_fields.
  match goal with |- context [for_in ?l ?b () ?w1] =>
    destruct (reset_loop l w1) as (hs & Hl & Hhs);
    change (for_in l b () w1)
      with (for_in l (λ handler (_ : ()),
              logging.removeHandler handler;; logging.close handler) () w1);
    rewrite Hl; clear Hl
  end.
  specialize (Hhs eq_refl). subst hs.
  unfold logging.setLevel, logging.new_FileHandler, logging.new_StreamHandler,
    logging.new_handler, logging.addHandler.
  world_fields.
  destruct (OS.open_append _ _ _) as [e|n']; world_fields.
  { eexists. split; [split; [reflexivity|]|]; world_fields.
    - by rewrite <- !(assoc_L (++)).
    - done. }
  match goal with |- context [decide (?h ∈ [])] =>
    destruct (decide (h ∈ [])) as [Hin|_];
      [by apply elem_of_nil in Hin|] end.
  world_fields. cbn [app].
  match goal with |- context [decide (?h ∈ [?h'])] =>
    destruct (decide (h ∈ [h'])) as [Hin|_];
      [apply list_elem_of_singleton in Hin; injection Hin; lia|] end.
  run_prims. world_fields.
  eexists. split; [split; [reflexivity|]|]; world_fields.
  - split; [done|]. rewrite !syscalls_app. cbn. by rewrite <- !(assoc_L (++)).
  - done.
Qed.
(** A call of [configure_run_logger] that raises has failed in one of two
    places.  Either the run directory could not be made: then the root
    logger is as it was.  Or the log file could not be opened: then the
    reset is already done and nothing replaces what it removed: the root
    logger has no handler left, every handler it had is closed, its level
    is the new one, and no handler was made. *)
Lemma configure_run_logger_failure (app_name : string) (level : Z)
    (w w' : World) (e : Exn) :
  configure_run_logger app_name level w = (Raise e, w') →
  let now := localtime w (ticks w) in
  let run_dir := run_dir_of (install_dir w) app_name now in
  let log_file := log_file_of (install_dir w) app_name now in
  (syscalls (trace w')
     = (syscalls (trace w) ++ [SysNow; SysMkdir run_dir])%list
   ∧ root_handlers w' = root_handlers w ∧ closed w' = closed w
   ∧ root_level w' = root_level w ∧ next_hid w' = next_hid w)
  ∨ (syscalls (trace w')
       = (syscalls (trace w)
            ++ [SysNow; SysMkdir run_dir; SysOpenAppend log_file])%list
     ∧ root_handlers w' = [] ∧ closed w' = (closed w ++ root_handlers w)%list
     ∧ root_level w' = level ∧ next_hid w' = next_hid w).
Proof.
  intros Hrun now run_dir log_file.
  pose proof (configure_run_logger_run app_name level w) as H.
  cbv zeta in H. fold now in H. fold (run_dir_of (install_dir w) app_name now) in H.
  fold (log_file_of (install_dir w) app_name now) in H.
  fold run_dir log_file in H.
  destruct (OS.makedirs _ _ _) as [e1|n].
  - left. rewrite Hrun in H. injection H as -> ->. world_fields.
    rewrite !syscalls_app. cbn. by rewrite <- (assoc_L (++)).
  - right. destruct H as (w1 & H & Hc & Hl & _).
    destruct (OS.open_append _ _ _) as [e1|n1].
    + destruct H as (H & _ & Hh & Hn & Ht). rewrite Hrun in H.
      injection H as -> ->. rewrite Ht, syscalls_app. cbn. done.
    + destruct H as (H & _). rewrite Hrun in H. discriminate.
Qed.

Lemma configure_run_logger_failure_witness :
  let out := configure_run_logger "cli_ingestion" logging.INFO taken_world in
  root_handlers out.2 = [] ∧ closed out.2 = [old_handler]
  ∧ root_level out.2 = logging.INFO.
Proof.
  intros out.
  assert (H : out
    = (Raise (OS.eisdir ["proj"; "logs"; "20240307";
                         "cli_ingestion_20240307_090501";
                         "cli_ingestion_20240307_090501.log"]), out.2)).
  { vm_compute. reflexivity. }
  destruct (configure_run_logger_failure _ _ _ _ _ H)
    as [(Hs & _)|(_ & Hh & Hc & Hl & _)].
  - vm_compute in Hs. discriminate.
  - split; [exact Hh|]. split; [exact Hc|exact Hl].
Defined.

(** ** The paths of a run *)

Lemma mem_char_app c (a b : string) :
  PyStr.mem_char c (a +:+ b) = PyStr.mem_char c a || PyStr.mem_char c b.
Proof.
  induction a as [|d a IH]; [done|].
  rewrite string_app_cons. cbn [PyStr.mem_char]. rewrite IH.
  by destruct (Ascii.eqb c d).
Qed.

Lemma split_plain (s : string) :
  PyStr.mem_char "/" s = false → PyStr.split "/" s = [s].
Proof.
  induction s as [|c s IH]; [done|]. cbn [PyStr.mem_char PyStr.split].
  rewrite (Ascii.eqb_sym c). destruct (Ascii.eqb "/" c); [done|].
  intros H. by rewrite (IH H).
Qed.

Lemma truediv_plain (p : Path) (s : string) :
  PyStr.mem_char "/" s = false → s ≠ "" → s ≠ "." →
  pathlib.truediv p s = (p ++ [s])%list.
Proof.
  intros Hs H1 H2. unfold pathlib.truediv, pathlib.parse_parts.
  rewrite (split_plain s Hs).
  rewrite filter_cons_True by done. rewrite filter_nil.
  destruct s as [|c s]; [done|]. cbn [PyStr.startswith PyStr.mem_char] in *.
  rewrite (Ascii.eqb_sym c). by destruct (Ascii.eqb "/" c).
Qed.

Lemma zfill_length width n : String.length (datetime.zfill width n) = width.
Proof.
  revert n. induction width as [|width IH]; intros n; [done|].
  cbn [datetime.zfill]. rewrite string_app_length, IH. cbn. lia.
Qed.

Lemma digit_code n : nat_of_ascii (datetime.digit n) = 48 + n mod 10.
Proof.
  unfold datetime.digit. apply nat_ascii_embedding.
  pose proof (Nat.mod_upper_bound n 10). lia.
Qed.

Lemma zfill_no_slash width n :
  PyStr.mem_char "/" (datetime.zfill width n) = false.
Proof.
  revert n. induction width as [|width IH]; intros n; [done|].
  cbn [datetime.zfill]. rewrite mem_char_app, IH. cbn [PyStr.mem_char orb].
  destruct (Ascii.eqb "/" (datetime.digit n)) eqn:E; [|done].
  apply Ascii.eqb_eq in E. apply (f_equal nat_of_ascii) in E.
  rewrite digit_code in E. change (nat_of_ascii "/") with 47 in E. lia.
Qed.

Lemma string_app_inv_length (a a' b b' : string) :
  String.length a = String.length a' → a +:+ b = a' +:+ b' →
  a = a' ∧ b = b'.
Proof.
  revert a'. induction a as [|c a IH]; intros [|c' a']; try done.
  cbn [String.length]. intros [= Hlen]. rewrite !string_app_cons.
  intros [= -> H]. by destruct (IH _ Hlen H) as [-> ->].
Qed.

Lemma zfill_inj width : ∀ n m,
  n < 10 ^ width → m < 10 ^ width →
  datetime.zfill width n = datetime.zfill width m → n = m.
Proof.
  induction width as [|width IH]; intros n m Hn Hm.
  - cbn in *. lia.
  - cbn [datetime.zfill]. intros H.
    apply string_app_inv_length in H as [H1 H2];
      [|by rewrite !zfill_length].
    rewrite Nat.pow_succ_r' in Hn, Hm.
    apply IH in H1;
      [|apply Nat.Div0.div_lt_upper_bound; lia
       |apply Nat.Div0.div_lt_upper_bound; lia].
    injection H2 as H2. apply (f_equal nat_of_ascii) in H2.
    rewrite !digit_code in H2.
    rewrite (Nat.div_mod_eq n 10), (Nat.div_mod_eq m 10). lia.
Qed.

Lemma strftime_Ymd_length d : String.length (datetime.strftime_Ymd d) = 8.
Proof.
  unfold datetime.strftime_Ymd. by rewrite !string_app_length, !zfill_length.
Qed.

Lemma strftime_Ymd_HMS_length d :
  String.length (datetime.strftime_Ymd_HMS d) = 15.
Proof.
  unfold datetime.strftime_Ymd_HMS.
  by rewrite !string_app_length, strftime_Ymd_length, !zfill_length.
Qed.

Lemma strftime_Ymd_no_slash d :
  PyStr.mem_char "/" (datetime.strftime_Ymd d) = false.
Proof.
  unfold datetime.strftime_Ymd. by rewrite !mem_char_app, !zfill_no_slash.
Qed.

Lemma strftime_Ymd_HMS_no_slash d :
  PyStr.mem_char "/" (datetime.strftime_Ymd_HMS d) = false.
Proof.
  unfold datetime.strftime_Ymd_HMS.
  by rewrite !mem_char_app, strftime_Ymd_no_slash, !zfill_no_slash.
Qed.

Lemma strftime_Ymd_HMS_inj d1 d2 :
  valid_datetime d1 → valid_datetime d2 →
  datetime.strftime_Ymd_HMS d1 = datetime.strftime_Ymd_HMS d2 → d1 = d2.
Proof.
  intros (Hy1 & Hm1 & Hd1 & Hh1 & Hi1 & Hs1) (Hy2 & Hm2 & Hd2 & Hh2 & Hi2 & Hs2).
  unfold datetime.strftime_Ymd_HMS, datetime.strftime_Ymd. intros H.
  apply string_app_inv_length in H as [H1 H];
    [|by rewrite !string_app_length, !zfill_length].
  apply string_app_inv_length in H1 as [Hy H1]; [|by rewrite !zfill_length].
  apply string_app_inv_length in H1 as [Hm Hd]; [|by rewrite !zfill_length].
  apply string_app_inv_length in H as [_ H]; [|done].
  apply string_app_inv_length in H as [Hh H]; [|by rewrite !zfill_length].
  apply string_app_inv_length in H as [Hi Hs]; [|by rewrite !zfill_length].
  apply zfill_inj in Hy, Hm, Hd, Hh, Hi, Hs; try lia; try (cbn; lia).
  destruct d1, d2; cbn in *. by subst.
Qed.

Lemma stamp_plain app_name d :
  PyStr.mem_char "/" app_name = false →
  let stamp := app_name +:+ "_" +:+ datetime.strftime_Ymd_HMS d in
  PyStr.mem_char "/" stamp = false ∧ (16 ≤ String.length stamp)%nat.
Proof.
  intros Ha stamp. subst stamp. split.
  - by rewrite !mem_char_app, Ha, strftime_Ymd_HMS_no_slash.
  - rewrite !string_app_length, strftime_Ymd_HMS_length. cbn. lia.
Qed.

Lemma log_paths_plain root app_name d :
  PyStr.mem_char "/" app_name = false →
  let stamp := app_name +:+ "_" +:+ datetime.strftime_Ymd_HMS d in
  run_dir_of root app_name d
    = (root ++ ["logs"; datetime.strftime_Ymd d; stamp])%list
  ∧ log_file_of root app_name d
    = (root ++ ["logs"; datetime.strftime_Ymd d; stamp; stamp +:+ ".log"])%list.
Proof.
  intros Ha stamp. destruct (stamp_plain app_name d Ha) as [Hs Hl].
  fold stamp in Hs, Hl.
  assert (Hrun : run_dir_of root app_name d
    = (root ++ ["logs"; datetime.strftime_Ymd d; stamp])%list).
  { unfold run_dir_of. fold stamp.
    rewrite (truediv_plain root "logs") by done.
    rewrite (truediv_plain _ (datetime.strftime_Ymd d)).
    - rewrite (truediv_plain _ stamp).
      + by rewrite <- !(assoc_L (++)).
      + done.
      + intros E. rewrite E in Hl. cbn in Hl. lia.
      + intros E. rewrite E in Hl. cbn in Hl. lia.
    - apply strftime_Ymd_no_slash.
    - intros E. apply (f_equal String.length) in E.
      rewrite strftime_Ymd_length in E. done.
    - intros E. apply (f_equal String.length) in E.
      rewrite strftime_Ymd_length in E. done. }
  split; [done|]. unfold log_file_of. rewrite Hrun.
  replace (app_name +:+ "_" +:+ datetime.strftime_Ymd_HMS d +:+ ".log")
    with (stamp +:+ ".log")
    by (unfold stamp; by rewrite !string_app_assoc).
  rewrite truediv_plain.
  - by rewrite <- !(assoc_L (++)).
  - by rewrite mem_char_app, Hs.
  - intros E. apply (f_equal String.length) in E.
    rewrite string_app_length in E. cbn in E. lia.
  - intros E. apply (f_equal String.length) in E.
    rewrite string_app_length in E. cbn in E. lia.
Qed.

Lemma plain_by_length (s : string) :
  PyStr.mem_char "/" s = false → (3 ≤ String.length s)%nat → plain_name s.
Proof.
  intros Hs Hl. split; [done|].
  repeat split; intros ->; cbn in Hl; lia.
Qed.

(** For an application name without a slash, in an installation whose
    path is made of plain names: when [configure_run_logger] returns, the
    log file it names is
    [<root>/logs/<YYYYMMDD>/<app>_<YYYYMMDD_HHMMSS>/<app>_<YYYYMMDD_HHMMSS>.log],
    both stamps made from the one reading of the clock at the start of the
    call, again a path of plain names; that file exists and is not a
    directory; and the call has asked the outside for the time, for the
    run directory and for the log file, in that order and nothing else. *)
Lemma configure_run_logger_log_file (app_name : string) (level : Z)
    (w w' : World) (log_file : Path) :
  PyStr.mem_char "/" app_name = false →
  Forall plain_name (install_dir w) →
  configure_run_logger app_name level w = (Ok log_file, w') →
  let now := localtime w (ticks w) in
  let stamp := app_name +:+ "_" +:+ datetime.strftime_Ymd_HMS now in
  log_file
  = (install_dir w
       ++ ["logs"; datetime.strftime_Ymd now; stamp; stamp +:+ ".log"])%list
  ∧ Forall plain_name log_file
  ∧ (∃ n, OS.stat (fs w') log_file = Some n ∧ ∀ es, n ≠ Dir es)
  ∧ syscalls (trace w')
    = (syscalls (trace w)
         ++ [SysNow; SysMkdir (run_dir_of (install_dir w) app_name now);
             SysOpenAppend log_file])%list.
Proof.
  intros Ha Hroot Hrun now stamp.
  pose proof (configure_run_logger_run app_name level w) as H.
  cbv zeta in H. fold now in H.
  fold (run_dir_of (install_dir w) app_name now) in H.
  fold (log_file_of (install_dir w) app_name now) in H.
  destruct (OS.makedirs _ _ _) as [e1|n]; [congruence|].
  destruct H as (w1 & H & _).
  destruct (OS.open_append _ _ _) as [e1|n1] eqn:Eopen; [destruct H; congruence|].
  destruct H as (H & Hfs & Hsys). rewrite Hrun in H. injection H as -> ->.
  destruct (log_paths_plain (install_dir w) app_name now Ha) as [_ Hlog].
  destruct (stamp_plain app_name now Ha) as [Hs Hl].
  fold stamp in Hlog, Hs, Hl.
  split; [exact Hlog|]. split; [|split; [|done]].
  - rewrite Hlog. apply Forall_app. split; [exact Hroot|].
    apply Forall_cons. split; [apply plain_by_length; [done|cbn; lia]|].
    apply Forall_cons. split.
    { apply plain_by_length; [apply strftime_Ymd_no_slash|].
      rewrite strftime_Ymd_length. lia. }
    apply Forall_cons. split; [apply plain_by_length; [done|lia]|].
    apply Forall_cons. split; [|constructor].
    apply plain_by_length; [by rewrite mem_char_app, Hs|].
    rewrite string_app_length. lia.
  - rewrite Hfs. by eapply open_append_stat.
Qed.

Lemma configure_run_logger_log_file_witness :
  let out := configure_run_logger "cli_ingestion" logging.INFO demo_world in
  out.1 = Ok ["proj"; "logs"; "20240307"; "cli_ingestion_20240307_090501";
              "cli_ingestion_20240307_090501.log"]
  ∧ ∃ n, OS.stat (fs out.2)
           ["proj"; "logs"; "20240307"; "cli_ingestion_20240307_090501";
            "cli_ingestion_20240307_090501.log"] = Some n
         ∧ ∀ es, n ≠ Dir es.
Proof.
  intros out.
  assert (H : out
    = (Ok ["proj"; "logs"; "20240307"; "cli_ingestion_20240307_090501";
           "cli_ingestion_20240307_090501.log"], out.2)).
  { vm_compute. reflexivity. }
  split; [by rewrite H|].
  assert (Hroot : Forall plain_name (install_dir demo_world)).
  { apply Forall_cons. split; [|constructor].
    apply plain_by_length; [done|cbn; lia]. }
  destruct (configure_run_logger_log_file "cli_ingestion" logging.INFO
              demo_world out.2 _ eq_refl Hroot H) as (_ & _ & Hex & _).
  exact Hex.
Defined.

Lemma configure_run_logger_names app_name level w log_file w' :
  configure_run_logger app_name level w = (Ok log_file, w') →
  log_file = log_file_of (install_dir w) app_name (localtime w (ticks w)).
Proof.
  intros Hrun.
  pose proof (configure_run_logger_run app_name level w) as H.
  cbv zeta in H.
  fold (run_dir_of (install_dir w) app_name (localtime w (ticks w))) in H.
  fold (log_file_of (install_dir w) app_name (localtime w (ticks w))) in H.
  destruct (OS.makedirs _ _ _) as [e1|n]; [congruence|].
  destruct H as (w1 & H & _).
  destruct (OS.open_append _ _ _) as [e1|n1]; destruct H as (H & _); congruence.
Qed.

(** Two calls of [configure_run_logger] for the same application (its
    name without a slash) in the same installation name the same log
    file exactly when they read the same second off the clock: runs that
    start in different seconds never share a log file, runs that start
    in the same second always do. *)
Lemma configure_run_logger_same_second (app_name : string) (level1 level2 : Z)
    (w1 w1' w2 w2' : World) (log_file1 log_file2 : Path) :
  configure_run_logger app_name level1 w1 = (Ok log_file1, w1') →
  configure_run_logger app_name level2 w2 = (Ok log_file2, w2') →
  install_dir w1 = install_dir w2 →
  PyStr.mem_char "/" app_name = false →
  valid_datetime (localtime w1 (ticks w1)) →
  valid_datetime (localtime w2 (ticks w2)) →
  log_file1 = log_file2 ↔ localtime w1 (ticks w1) = localtime w2 (ticks w2).
Proof.
  intros H1 H2 Hroot Ha Hv1 Hv2.
  rewrite (configure_run_logger_names _ _ _ _ _ H1).
  rewrite (configure_run_logger_names _ _ _ _ _ H2).
  destruct (log_paths_plain (install_dir w1) app_name
              (localtime w1 (ticks w1)) Ha) as [_ ->].
  destruct (log_paths_plain (install_dir w2) app_name
              (localtime w2 (ticks w2)) Ha) as [_ ->].
  rewrite Hroot. split; [|by intros ->].
  intros H. apply app_inv_head in H.
  assert (Hthird : ∀ a b c d a' b' c' d' : string,
    [a; b; c; d] = [a'; b'; c'; d'] → c = c') by (intros; congruence).
  apply Hthird in H.
  apply (inj (String.app app_name)) in H.
  apply (inj (String.app "_")) in H.
  by apply strftime_Ymd_HMS_inj.
Qed.

Lemma configure_run_logger_same_second_witness :
  let first := configure_run_logger "cli_ingestion" logging.INFO demo_world in
  let second := configure_run_logger "cli_ingestion" logging.DEBUG first.2 in
  first.1 = second.1.
Proof.
  intros first second.
  assert (H1 : ∃ f, first = (Ok f, first.2)) by (eexists; vm_compute; reflexivity).
  assert (H2 : ∃ f, second = (Ok f, second.2)) by (eexists; vm_compute; reflexivity).
  destruct H1 as (f1 & H1), H2 as (f2 & H2).
  rewrite H1, H2. cbn [fst]. f_equal.
  apply (configure_run_logger_same_second _ _ _ _ _ _ _ _ _ H1 H2).
  - vm_compute. reflexivity.
  - reflexivity.
  - vm_compute. repeat split; lia.
  - vm_compute. repeat split; lia.
  - vm_compute. reflexivity.
Defined.

(** ** The command-line entry point *)

Lemma try_except_ok {A} (m : M A) classes handler w a w1 :
  m w = (Ok a, w1) → try_except m classes handler w = (Ok a, w1).
Proof. intros H. unfold try_except. by rewrite H. Qed.

Lemma try_except_raise {A} (m : M A) classes handler w e w1 :
  m w = (Raise e, w1) →
  try_except m classes handler w
  = if decide (exn_class e ∈ classes) then handler e w1 else (Raise e, w1).
Proof. intros H. unfold try_except. by rewrite H. Qed.

Lemma logging_log_trace level text args w :
  ∃ sinks,
    trace (logging.log level text args w).2
    = (trace w ++ [ELog (mkLogRecord level "root" text args) sinks])%list.
Proof.
  unfold logging.log, logging.basicConfig, logging.Logger_log,
    logging.new_StreamHandler, logging.new_handler, logging.addHandler.
  run_prims. world_fields.
  destruct (root_handlers w) eqn:E; run_prims; world_fields;
    rewrite ?E; repeat case_decide; world_fields; eauto.
Qed.

Lemma logging_info_returns text args w :
  logging.info text args w = (Ok (), (logging.info text args w).2).
Proof. apply logging_log_returns. Qed.

Lemma logging_error_returns text args w :
  logging.error text args w = (Ok (), (logging.error text args w).2).
Proof. apply logging_log_returns. Qed.

(** [main], outcome by outcome. *)
Lemma main_cases w :
  main w
  = match configure_run_logger "cli_ingestion" logging.INFO w with
    | (Raise e, w0) => (Raise e, w0)
    | (Ok log_file, w0) =>
        match run_ingestion (pathlib.truediv (install_dir w) "input")
                (logging.info "CLI logging initialised. Run log file: %s"
                   [APath log_file] w0).2 with
        | (Raise e, w2) =>
            if decide (exn_class e ∈ main_except)
            then (Ok (), (logging.error "Ingestion failed: %s" [AExn e] w2).2)
            else (Raise e, w2)
        | (Ok ingested_files, w2) =>
            for_in ingested_files (λ file_info (_ : ()),
              name ← getitem file_info "name";
              extension ← getitem file_info "extension";
              file_id ← getitem file_info "file_id";
              size_bytes ← getitem file_info "size_bytes";
              logging.info "Ingested file '%s' (%s) with id=%s size=%d bytes"
                [AVal name; AVal extension; AVal file_id; AVal size_bytes])
              () w2
        end
    end.
Proof.
  unfold main.
  rewrite (bind_run (λ w, (Ok (install_dir w), w)) _ w (install_dir w) w eq_refl).
  cbv beta zeta.
  destruct (configure_run_logger _ _ w) as [[log_file|e] w0] eqn:Hconf.
  2: { by rewrite (bind_raise _ _ w e w0 Hconf). }
  rewrite (bind_run _ _ w log_file w0 Hconf). cbv beta.
  rewrite (bind_run _ _ w0 () _ (logging_info_returns _ _ w0)). cbv beta.
  destruct (run_ingestion _ _) as [[records|e] w2] eqn:Hrun.
  - rewrite (bind_run _ _ _ (Some records) w2); [done|].
    apply try_except_ok. by rewrite (bind_run _ _ _ records w2 Hrun).
  - set (wa := (logging.info _ _ w0).2) in *.
    unfold mbind at 1, M_bind at 1.
    rewrite (try_except_raise _ _ _ wa e w2)
      by (by rewrite (bind_raise _ _ _ e w2 Hrun)).
    destruct (decide (exn_class e ∈ main_except)); [|done].
    by rewrite (bind_run _ _ w2 () _ (logging_error_returns _ _ w2)).
Qed.

Lemma summary_loop (records : list Dict) :
  Forall (λ r, is_Some (summary_of r)) records →
  ∀ w, ∃ w' t,
    for_in records (λ file_info (_ : ()),
      name ← getitem file_info "name";
      extension ← getitem file_info "extension";
      file_id ← getitem file_info "file_id";
      size_bytes ← getitem file_info "size_bytes";
      logging.info "Ingested file '%s' (%s) with id=%s size=%d bytes"
        [AVal name; AVal extension; AVal file_id; AVal size_bytes]) () w
    = (Ok (), w')
    ∧ trace w' = (trace w ++ t)%list
    ∧ syscalls t = []
    ∧ Forall2 (λ r a, summary_of r = Some a) records (summary_lines t).
Proof.
  induction 1 as [|r records [a Hr] _ IH]; intros w.
  - exists w, []. cbn. rewrite app_nil_r. repeat split. constructor.
  - cbn [for_in]. unfold summary_of in Hr.
    destruct (r !! "name") as [name|] eqn:E1; [|done].
    destruct (r !! "extension") as [extension|] eqn:E2; [|done].
    destruct (r !! "file_id") as [file_id|] eqn:E3; [|done].
    destruct (r !! "size_bytes") as [size_bytes|] eqn:E4; [|done].
    cbn in Hr. injection Hr as <-.
    set (line := [AVal name; AVal extension; AVal file_id; AVal size_bytes]).
    set (w1 := (logging.log logging.INFO
                  "Ingested file '%s' (%s) with id=%s size=%d bytes" line w).2).
    destruct (IH w1) as (w' & t & Hloop & Ht & Hs & Hall).
    destruct (logging_log_trace logging.INFO
                "Ingested file '%s' (%s) with id=%s size=%d bytes" line w)
      as (sinks & Hlog). fold w1 in Hlog.
    exists w', (ELog (mkLogRecord logging.INFO "root"
                  "Ingested file '%s' (%s) with id=%s size=%d bytes" line)
                  sinks :: t).
    split; [|split; [|split]].
    + rewrite (bind_run _ _ w () w1); [done|].
      unfold getitem. rewrite E1, E2, E3, E4.
      rewrite (bind_run (mret name) _ w name w eq_refl).
      rewrite (bind_run (mret extension) _ w extension w eq_refl).
      rewrite (bind_run (mret file_id) _ w file_id w eq_refl).
      rewrite (bind_run (mret size_bytes) _ w size_bytes w eq_refl).
      unfold logging.info. apply logging_log_returns.
    + rewrite Ht, Hlog. by rewrite <- (assoc_L (++)).
    + done.
    + cbn. constructor; [|done].
      unfold summary_of. by rewrite E1, E2, E3, E4.
Qed.

Lemma in_order_ingest_keys files w records w2 :
  in_order ingest_step files w (Ok records) w2 →
  Forall (λ r, is_Some (summary_of r)) records.
Proof.
  revert w records. induction files as [|p files IH]; intros w records H;
    inversion H; subst; [constructor|].
  constructor; [|by eapply IH].
  match goal with H' : ingest_step p w = _ |- _ =>
    unfold ingest_step, mbind, M_bind in H';
    destruct (logging.info _ _ w) as [[[]|?] w0]; [|done];
    apply ingest_file_returns in H' as (_ & Hn & He & [i Hi] & [s Hs]) end.
  unfold summary_of. rewrite Hn, He, Hi, Hs. by eexists.
Qed.

Lemma run_ingestion_keys input_dir w records w' :
  run_ingestion input_dir w = (Ok records, w') →
  Forall (λ r, is_Some (summary_of r)) records.
Proof.
  rewrite run_ingestion_unfold.
  destruct (list_input_files _ _ _) as [[[|p files]|e] w1]; [| |done].
  - intros [= <- _]. constructor.
  - destruct (runner_loop (p :: files) [] w1) as (res & w2 & Hord & Hloop).
    rewrite Hloop. destruct res as [rs|e]; [|done].
    intros [= <- _]. by eapply in_order_ingest_keys.
Qed.

(** Once [run_ingestion] has returned, the summary of [main] cannot fail:
    every record has the four keys the loop reads, so no [KeyError]
    arises; [main] returns, having logged exactly one summary line per
    record, in the order of the records, with the record's name,
    extension, identifier and size, and having asked the outside nothing
    more. *)
Lemma main_summary (w w0 w2 : World) (log_file : Path)
    (records : list Dict) :
  configure_run_logger "cli_ingestion" logging.INFO w = (Ok log_file, w0) →
  run_ingestion (pathlib.truediv (install_dir w) "input")
    (logging.info "CLI logging initialised. Run log file: %s"
       [APath log_file] w0).2 = (Ok records, w2) →
  (main w).1 = Ok ()
  ∧ ∃ t, trace (main w).2 = (trace w2 ++ t)%list
         ∧ syscalls t = []
         ∧ Forall2 (λ r a, summary_of r = Some a) records (summary_lines t).
Proof.
  intros Hconf Hrun. rewrite main_cases, Hconf, Hrun.
  destruct (summary_loop records (run_ingestion_keys _ _ _ _ Hrun) w2)
    as (w' & t & -> & Ht & Hs & Hall).
  split; [done|]. by exists t.
Qed.

Lemma main_summary_witness :
  (main demo_world).1 = Ok ()
  ∧ ∃ records t,
      length records = 3
      ∧ Forall2 (λ r a, summary_of r = Some a) records (summary_lines t).
Proof.
  set (log_file := ["proj"; "logs"; "20240307"; "cli_ingestion_20240307_090501";
                    "cli_ingestion_20240307_090501.log"]).
  set (w0 := (configure_run_logger "cli_ingestion" logging.INFO demo_world).2).
  assert (Hconf : configure_run_logger "cli_ingestion" logging.INFO demo_world
                  = (Ok log_file, w0)) by (vm_compute; reflexivity).
  set (wa := (logging.info "CLI logging initialised. Run log file: %s"
                [APath log_file] w0).2).
  assert (Hq : quiet wa) by (intros t; vm_compute; reflexivity).
  assert (Hst : OS.stat (fs wa) demo_input = Some (Dir demo_entries))
    by (vm_compute; reflexivity).
  destruct (run_ingestion_on_quiet demo_input wa demo_entries Hq Hst)
    as (records & w2 & Hrun & Hall & _).
  destruct (main_summary demo_world w0 w2 log_file records Hconf Hrun)
    as (Hmain & t & _ & _ & Hlines).
  split; [exact Hmain|]. exists records, t. split; [|exact Hlines].
  apply Forall2_length in Hall. rewrite <- Hall.
  vm_compute. reflexivity.
Defined.

(** ** The helpers of the dashboard *)

Lemma stat_size_quiet p w n :
  quiet w → OS.stat (fs w) p = Some n →
  Path.stat_size p w = (Ok (OS.st_size n), os_step (SysStat p) w).
Proof.
  intros Hq Hst. unfold Path.stat_size. cbn [fs os_step].
  rewrite Hq. cbn [default from_option id]. by rewrite Hst.
Qed.

Lemma os_step_quiet c w :
  quiet w → quiet (os_step c w) ∧ fs (os_step c w) = fs w.
Proof. intros Hq. split; [exact Hq|]. cbn [fs os_step]. by rewrite Hq. Qed.

Lemma metadata_loop root (files : list Path) :
  Forall (λ p, OS.is_file root p = true) files →
  ∀ (acc : list Dict) w, quiet w → fs w = root →
  ∃ rows w2,
    for_in files (λ file (metadata : list Dict),
      st_size ← Path.stat_size file;
      mret (metadata ++ [
        (<["name" := VStr (pathlib.name file)]>
        (<["extension" := VStr (PyStr.lstrip "." (pathlib.suffix file))]>
        (<["size_bytes" := VInt st_size]>
        (<["path" := VStr (pathlib.str file)]> ∅))) : Dict)])%list) acc w
    = (Ok (acc ++ rows)%list, w2)
    ∧ Forall2 (row_of root) files rows.
Proof.
  induction 1 as [|p files Hp _ IH]; intros acc w Hq Hfs.
  - exists [], w. cbn. rewrite app_nil_r. split; [done|constructor].
  - destruct (is_file_stat _ _ Hp) as (n & Hst & _).
    destruct (os_step_quiet (SysStat p) w Hq) as [Hq1 Hfs1].
    pose proof (stat_size_quiet p w n Hq) as Hsz.
    rewrite Hfs in Hsz. specialize (Hsz Hst).
    set (row := (<["name" := VStr (pathlib.name p)]>
        (<["extension" := VStr (PyStr.lstrip "." (pathlib.suffix p))]>
        (<["size_bytes" := VInt (OS.st_size n)]>
        (<["path" := VStr (pathlib.str p)]> ∅))) : Dict)).
    destruct (IH (acc ++ [row])%list (os_step (SysStat p) w) Hq1)
      as (rows & w2 & Hloop & Hall); [congruence|].
    exists (row :: rows), w2. split.
    + cbn [for_in].
      rewrite (bind_run _ _ w (acc ++ [row])%list (os_step (SysStat p) w)).
      * rewrite Hloop. by rewrite <- (assoc_L (++)).
      * by rewrite (bind_run _ _ w _ _ Hsz).
    + constructor; [|done]. by exists n.
Qed.

Lemma get_existing_files_metadata_on_quiet (w : World) :
  quiet w →
  let input_dir := pathlib.truediv (install_dir w) "input" in
  let out := (get_existing_files_metadata w).1 in
  match OS.stat (fs w) input_dir with
  | None =>
      out = Ok ([],
                Some "Input folder does not exist yet. Upload a file to create it.",
                false)
  | Some (Dir es) =>
      ∃ rows,
        out = Ok (rows, None, false)
        ∧ Forall2 (row_of (fs w)) (listed (fs w) input_dir es) rows
  | Some _ =>
      out = Ok ([],
                Some "Configured input path exists but is not a directory.",
                true)
  end.
Proof.
  intros Hq input_dir out.
  assert (Hrun : out = (get_existing_files_metadata w).1) by reflexivity.
  unfold get_existing_files_metadata in Hrun.
  rewrite (bind_run INPUT_DIR _ w input_dir w eq_refl) in Hrun.
  cbv beta in Hrun.
  destruct (OS.stat (fs w) input_dir) as [n|] eqn:Hst.
  - assert (Hn : (∃ es, n = Dir es) ∨ ∀ es, n ≠ Dir es)
      by (destruct n; eauto).
    destruct Hn as [[es ->]|Hn].
    + destruct (list_input_files_ok input_dir None w es Hq Hst)
        as (w1 & Hlist & Hq1 & Hfs1).
      fold (listed (fs w) input_dir es) in Hlist.
      assert (Hfiles : Forall (λ p, OS.is_file (fs w) p = true)
                         (listed (fs w) input_dir es)).
      { apply Forall_forall. intros p Hin. unfold listed in Hin.
        rewrite merge_sort_Permutation in Hin.
        by apply list_elem_of_filter in Hin as [[? _] _]. }
      destruct (metadata_loop (fs w) _ Hfiles [] w1 Hq1 Hfs1)
        as (rows & w2 & Hloop & Hall).
      exists rows. split; [|done]. rewrite Hrun.
      rewrite (bind_run _ _ w (inl (listed (fs w) input_dir es)) w1).
      * cbv beta iota. by rewrite (bind_run _ _ w1 rows w2 Hloop).
      * apply try_except_ok. by rewrite (bind_run _ _ w _ w1 Hlist).
    + destruct (list_input_files_not_dir input_dir None w n Hq Hst Hn)
        as (w1 & t & Hlist & _).
      assert (Hout : out
        = Ok ([], Some "Configured input path exists but is not a directory.",
              true)).
      { rewrite Hrun. erewrite bind_run.
        2: { rewrite (try_except_raise _ _ _ w (NotADirectory input_dir) w1)
               by (by rewrite (bind_raise _ _ w _ w1 Hlist)).
             rewrite decide_True by (cbn; set_solver).
             rewrite decide_False by done.
             unfold logging.Logger_log, mbind, M_bind, mret, M_ret.
             reflexivity. }
        reflexivity. }
      destruct n; try (by destruct (Hn entries)); exact Hout.
  - destruct (list_input_files_missing input_dir None w Hq Hst)
      as (w1 & t & Hlist & _).
    rewrite Hrun. erewrite bind_run.
    2: { rewrite (try_except_raise _ _ _ w (DirectoryNotFound input_dir) w1)
           by (by rewrite (bind_raise _ _ w _ w1 Hlist)).
         rewrite decide_True by (cbn; set_solver).
         rewrite decide_True by done.
         unfold logging.Logger_log, mbind, M_bind, mret, M_ret.
         reflexivity. }
    reflexivity.
Qed.

(** On a tree that nobody else changes, what the dashboard's listing
    returns is determined by the input path.  Whenever
    [get_existing_files_metadata] returns: for a missing input directory
    it has returned no rows and a note that is not an error; for an input
    path that is not a directory, no rows and an error; for an input
    directory, no message and one row per file the lister selects, in the
    lister's order, with the name and the path of the file, the size
    [stat] reports for it, and its extension without the dot in the case
    it has in the name (the ingestor's record holds it in lower case). *)
Lemma get_existing_files_metadata_quiet (w w' : World)
    (res : list Dict * option string * bool) :
  quiet w →
  get_existing_files_metadata w = (Ok res, w') →
  let input_dir := pathlib.truediv (install_dir w) "input" in
  match OS.stat (fs w) input_dir with
  | None =>
      res = ([],
             Some "Input folder does not exist yet. Upload a file to create it.",
             false)
  | Some (Dir es) =>
      ∃ rows,
        res = (rows, None, false)
        ∧ Forall2 (row_of (fs w)) (listed (fs w) input_dir es) rows
  | Some _ =>
      res = ([],
             Some "Configured input path exists but is not a directory.",
             true)
  end.
Proof.
  intros Hq Hrun input_dir.
  pose proof (get_existing_files_metadata_on_quiet w Hq) as H.
  cbv zeta in H. fold input_dir in H. rewrite Hrun in H. cbn [fst] in H.
  destruct (OS.stat (fs w) input_dir) as [[]|];
    try (by injection H as ->).
  destruct H as (rows & H & Hall). exists rows. split; [congruence|done].
Qed.

Lemma get_existing_files_metadata_quiet_witness :
  ∃ rows,
    (get_existing_files_metadata demo_world).1 = Ok (rows, None, false)
    ∧ Forall2 (row_of demo_tree) (listed demo_tree demo_input demo_entries) rows.
Proof.
  assert (Hq : quiet demo_world) by (intros t; reflexivity).
  destruct (get_existing_files_metadata_on_quiet demo_world Hq)
    as (rows0 & Hrun0 & _).
  destruct (get_existing_files_metadata demo_world) as [[res|e] w'] eqn:Hrun;
    [|discriminate Hrun0].
  assert (Hst : OS.stat (fs demo_world)
                  (pathlib.truediv (install_dir demo_world) "input")
                = Some (Dir demo_entries)) by reflexivity.
  pose proof (get_existing_files_metadata_quiet demo_world w' res Hq Hrun)
    as H.
  cbv zeta in H. rewrite Hst in H. destruct H as (rows & -> & Hall).
  exists rows. split; [reflexivity|exact Hall].
Defined.

Lemma stat_nil n m : OS.stat n [] = Some m → n = m.
Proof. unfold OS.stat. cbn. destruct n; by intros [= <-]. Qed.

Lemma stat_cons n c p m :
  OS.stat n (c :: p) = Some m →
  ∃ es n1, n = Dir es ∧ OS.assoc c es = Some n1 ∧ OS.stat n1 p = Some m.
Proof.
  unfold OS.stat. cbn. destruct n as [|es| | |]; try done.
  destruct (OS.assoc c es) as [n1|] eqn:E; [|done]. eauto.
Qed.

Lemma stat_cons_dir es c p :
  OS.stat (Dir es) (c :: p)
  = match OS.assoc c es with Some n1 => OS.stat n1 p | None => None end.
Proof. unfold OS.stat. cbn. by destruct (OS.assoc c es). Qed.

Lemma makedirs_not_dir whole p : ∀ n m,
  OS.stat n p = Some m → (∀ es, m ≠ Dir es) →
  OS.makedirs whole n p = inl (OS.eexist whole).
Proof.
  induction p as [|c p IH]; intros n m Hst Hm.
  - apply stat_nil in Hst as ->. cbn. destruct m; try done.
    by destruct (Hm entries).
  - apply stat_cons in Hst as (es & n1 & -> & Ha & Hst). cbn.
    rewrite Ha. cbn. by rewrite (IH _ _ Hst Hm).
Qed.

(** [makedirs] adds empty directories and nothing else: what is not a
    directory after it was there before. *)
Lemma makedirs_keeps whole p : ∀ n n' q m,
  OS.makedirs whole n p = inr n' →
  OS.stat n' q = Some m → (∀ es, m ≠ Dir es) → OS.stat n q = Some m.
Proof.
  induction p as [|c p IH]; intros n n' q m; cbn.
  - destruct n; try done. by intros [= <-].
  - destruct n as [|es| | |]; try done.
    destruct (OS.makedirs whole _ p) as [e|n1'] eqn:E; [done|].
    intros [= <-] Hst Hm. destruct q as [|d q].
    + apply stat_nil in Hst. by destruct (Hm (OS.set_entry c n1' es)).
    + rewrite stat_cons_dir in Hst. rewrite stat_cons_dir.
      destruct (decide (c = d)) as [<-|Hne].
      * rewrite assoc_set_entry in Hst.
        pose proof (IH _ _ _ _ E Hst Hm) as H.
        destruct (OS.assoc c es) as [n1|]; [done|]. cbn in H.
        destruct q as [|d q]; [|done].
        apply stat_nil in H. by destruct (Hm []).
      * by rewrite assoc_set_entry_ne in Hst.
Qed.

Lemma stat_parent n p c m :
  OS.stat n (p ++ [c])%list = Some m →
  ∃ es, OS.stat n p = Some (Dir es) ∧ c ∈ es.*1.
Proof.
  revert n. induction p as [|d p IH]; intros n Hst.
  - apply stat_cons in Hst as (es & n1 & -> & Ha & _). exists es.
    split; [done|].
    clear -Ha. induction es as [|[k x] es IH]; [done|]. cbn in *.
    destruct (decide (k = c)) as [->|]; [left|right; auto].
  - cbn [app] in Hst. apply stat_cons in Hst as (es & n1 & -> & Ha & Hst).
    destruct (IH _ Hst) as (es' & H1 & H2). exists es'.
    by rewrite stat_cons_dir, Ha.
Qed.

Lemma name_child p c : pathlib.name (p ++ [c])%list = c.
Proof. unfold pathlib.name. by rewrite last_snoc. Qed.

(** [ensure_input_dir], outcome by outcome. *)
Lemma ensure_input_dir_run w :
  let input_dir := pathlib.truediv (install_dir w) "input" in
  let w1 := os_step (SysMkdir input_dir) w in
  match OS.makedirs input_dir (fs w1) input_dir with
  | inl e => ensure_input_dir w = (Raise e, w1)
  | inr n =>
      ensure_input_dir w
      = (Ok input_dir,
         emit (ELog (mkLogRecord logging.DEBUG LOGGER
                       "Ensured input directory exists at %s" [APath input_dir])
                    (if decide (root_level w ≤ logging.DEBUG)%Z
                     then Some (root_handlers w) else None))
              (set_fs n w1))
  end.
Proof.
  unfold ensure_input_dir, INPUT_DIR, Path.mkdir. run_prims.
  destruct (OS.makedirs _ _ _); by run_prims.
Qed.

(** [ensure_input_dir] makes the input directory and is safe to repeat.
    When it returns, in any world, it returns [<root>/input] and that path
    is a directory.  On a tree that nobody else changes, when the directory
    is already there it returns and the directory keeps its entries, and
    when the path is taken by something that is not a directory it raises
    [FileExistsError]. *)
Lemma ensure_input_dir_spec (w : World) :
  let input_dir := pathlib.truediv (install_dir w) "input" in
  (∀ d w', ensure_input_dir w = (Ok d, w') →
     d = input_dir ∧ OS.is_dir (fs w') d = true)
  ∧ (quiet w →
     (∀ es, OS.stat (fs w) input_dir = Some (Dir es) →
        (ensure_input_dir w).1 = Ok input_dir
        ∧ OS.stat (fs (ensure_input_dir w).2) input_dir = Some (Dir es))
     ∧ (∀ n, OS.stat (fs w) input_dir = Some n → (∀ es, n ≠ Dir es) →
          (ensure_input_dir w).1 = Raise (OS.eexist input_dir))).
Proof.
  intros input_dir. pose proof (ensure_input_dir_run w) as H.
  cbv zeta in H. fold input_dir in H. split.
  - intros d w' Hrun.
    destruct (OS.makedirs _ _ _) as [e|n] eqn:E; [congruence|].
    rewrite Hrun in H. injection H as -> ->. split; [done|].
    cbn [fs emit set_fs]. unfold OS.is_dir.
    by destruct (makedirs_stat _ _ _ _ E) as (es & ->).
  - intros Hq. cbn [fs os_step] in H. rewrite Hq in H.
    cbn [default from_option id] in H. split.
    + intros es Hst. rewrite (makedirs_existing _ _ _ _ Hst) in H.
      rewrite H. split; [done|]. cbn [snd fs emit set_fs]. exact Hst.
    + intros n Hst Hn. rewrite (makedirs_not_dir _ _ _ _ Hst Hn) in H.
      by rewrite H.
Qed.

Lemma ensure_input_dir_spec_witness :
  (ensure_input_dir demo_world).1 = Ok demo_input
  ∧ OS.stat (fs (ensure_input_dir demo_world).2) demo_input
    = Some (Dir demo_entries)
  ∧ (ensure_input_dir clash_world).1 = Raise (OS.eexist demo_input).
Proof.
  destruct (ensure_input_dir_spec demo_world) as (_ & Hd).
  destruct (Hd (λ t, eq_refl)) as (Hd1 & _).
  destruct (Hd1 demo_entries eq_refl) as (H1 & H2).
  destruct (ensure_input_dir_spec clash_world) as (_ & Hc).
  destruct (Hc (λ t, eq_refl)) as (_ & Hc2).
  split; [exact H1|]. split; [exact H2|].
  apply (Hc2 (File []) eq_refl). intros es. discriminate.
Defined.

Lemma save_uploaded_file_quiet (f : UploadedFile) (w : World) :
  quiet w →
  let input_dir := pathlib.truediv (install_dir w) "input" in
  let dest := pathlib.truediv input_dir (uf_name f) in
  match OS.makedirs input_dir (fs w) input_dir with
  | inl e => (save_uploaded_file f w).1 = Raise e
  | inr n =>
      match OS.write dest n dest (uf_buffer f) with
      | inl e => (save_uploaded_file f w).1 = Raise e
      | inr n' =>
          ∃ w', save_uploaded_file f w = (Ok dest, w')
                ∧ fs w' = n' ∧ quiet w'
      end
  end.
Proof.
  intros Hq input_dir dest.
  pose proof (ensure_input_dir_run w) as H. cbv zeta in H.
  fold input_dir in H. cbn [fs os_step] in H. rewrite Hq in H.
  cbn [default from_option id] in H. unfold save_uploaded_file.
  destruct (OS.makedirs _ _ _) as [e|n].
  { by rewrite (bind_raise _ _ w _ _ H). }
  rewrite (bind_run _ _ w _ _ H). cbv beta zeta. fold dest.
  unfold Path.write_bytes, mbind, M_bind, mret, M_ret, logging.Logger_log.
  cbn [fs install_dir ticks env urandom localtime root_level root_handlers
       closed next_hid trace emit os_step set_fs fst snd].
  rewrite Hq. cbn [default from_option id].
  destruct (OS.write _ _ _ _) as [e|n']; [done|].
  eexists. split; [reflexivity|]. split; [done|]. exact Hq.
Qed.

(** An upload can be read back.  On a tree that nobody else changes, for
    a file name that is one path component, when the destination is not a
    device: once [save_uploaded_file] has returned, the destination is
    [<root>/input/<name>] and holds exactly the uploaded bytes; ingesting
    it returns a record with that name, those bytes and their length; and
    when its extension is allowed, the next listing of the input directory
    contains it. *)
Lemma save_uploaded_file_round_trip (f : UploadedFile) (w w1 : World)
    (dest : Path) :
  quiet w → plain_name (uf_name f) →
  let input_dir := (install_dir w ++ ["input"])%list in
  OS.stat (fs w) (input_dir ++ [uf_name f])%list ≠ Some Special →
  save_uploaded_file f w = (Ok dest, w1) →
  dest = (input_dir ++ [uf_name f])%list
  ∧ OS.stat (fs w1) dest = Some (File (uf_buffer f))
  ∧ (∃ r w2,
       ingest_file_from_path dest w1 = (Ok r, w2)
       ∧ r !! "name" = Some (VStr (uf_name f))
       ∧ r !! "content_bytes" = Some (VBytes (uf_buffer f))
       ∧ r !! "size_bytes"
         = Some (VInt (Z.of_nat (length (uf_buffer f)))))
  ∧ (normalized (pathlib.suffix dest) ∈ allow_set None →
     ∃ files w2,
       list_input_files input_dir None w1 = (Ok files, w2) ∧ dest ∈ files).
Proof.
  intros Hq (Hslash & Hne & Hdot & _) input_dir Hdev Hsave.
  pose proof (save_uploaded_file_quiet f w Hq) as H. cbv zeta in H.
  rewrite (truediv_plain (install_dir w) "input") in H by done.
  fold input_dir in H. rewrite (truediv_plain input_dir (uf_name f)) in H by done.
  destruct (OS.makedirs _ _ _) as [e|n] eqn:Emk; [by rewrite Hsave in H|].
  destruct (OS.write _ _ _ _) as [e|n'] eqn:Ewr; [by rewrite Hsave in H|].
  destruct H as (w' & H & Hfs & Hq1). rewrite Hsave in H.
  injection H as -> <-.
  assert (Hst : OS.stat (fs w1) (input_dir ++ [uf_name f])%list
                = Some (File (uf_buffer f))).
  { rewrite Hfs. destruct (write_stat _ _ _ _ _ Ewr) as [Hw|[Hold _]]; [done|].
    destruct Hdev. eapply makedirs_keeps; [exact Emk|exact Hold|done]. }
  split; [done|]. split; [done|]. split.
  - destruct (ingest_file_ok _ w1 _ Hq1 Hst)
      as (r & w2 & Hrun & _ & Hn & _ & _ & _ & Hsz & Hc & _).
    exists r, w2. rewrite name_child in Hn. by repeat split.
  - intros Hext. destruct (stat_parent _ _ _ _ Hst) as (es & Hdir & Hin).
    destruct (list_input_files_ok input_dir None w1 es Hq1 Hdir)
      as (w2 & Hlist & _).
    eexists _, w2. split; [exact Hlist|].
    rewrite merge_sort_Permutation. apply list_elem_of_filter. split.
    + split; [|exact Hext]. unfold OS.is_file. by rewrite Hst.
    + apply list_elem_of_fmap. by exists (uf_name f).
Qed.

Lemma save_uploaded_file_round_trip_witness :
  let f := mkUploadedFile "notes.TXT" (demo_bytes "hi") in
  let w1 := (save_uploaded_file f fresh_world).2 in
  OS.stat (fs w1) ["proj"; "input"; "notes.TXT"] = Some (File (demo_bytes "hi"))
  ∧ ∃ files w2,
      list_input_files ["proj"; "input"] None w1 = (Ok files, w2)
      ∧ ["proj"; "input"; "notes.TXT"] ∈ files.
Proof.
  intros f w1.
  assert (Hsave : save_uploaded_file f fresh_world
                  = (Ok ["proj"; "input"; "notes.TXT"], w1))
    by (vm_compute; reflexivity).
  assert (Hplain : plain_name (uf_name f)).
  { split; [vm_compute; reflexivity|]. by repeat split. }
  assert (Hdev : OS.stat (fs fresh_world)
                   ((install_dir fresh_world ++ ["input"]) ++ [uf_name f])%list
                 ≠ Some Special) by (vm_compute; discriminate).
  destruct (save_uploaded_file_round_trip f fresh_world w1 _
              (λ t, eq_refl) Hplain Hdev Hsave) as (_ & Hst & _ & Hlist).
  split; [exact Hst|]. apply Hlist. vm_compute.
  apply (bool_decide_unpack _). vm_compute. exact I.
Defined.

(** ** Where the records of a run go *)

Section steady.
Variable P : World → Prop.
Hypothesis P_Logger_log : ∀ name level text args,
  preserves P (logging.Logger_log name level text args).
Hypothesis P_log : ∀ level text args,
  preserves P (logging.log level text args).
Hypothesis P_os_step : ∀ c w, writes c = false → P w → P (os_step c w).

Lemma steady_path_calls p :
  preserves P (Path.exists_ p)
  ∧ preserves P (Path.is_dir p)
  ∧ preserves P (Path.is_file p)
  ∧ preserves P (Path.iterdir p)
  ∧ preserves P (Path.read_bytes p)
  ∧ preserves P (Path.stat_size p).
Proof.
  repeat split; intros w Hw; run_prims;
    try (destruct (OS.listdir _ _)); try (destruct (OS.read _ _));
    try (destruct (OS.stat _ _)); by apply P_os_step.
Qed.

Lemma steady_uuid4 : preserves P uuid.uuid4.
Proof. intros w Hw. by apply P_os_step. Qed.

Ltac steady :=
  repeat first
    [ apply preserves_ret
    | apply preserves_raise
    | apply stable_getitem
    | apply P_log
    | apply P_Logger_log
    | apply steady_path_calls
    | apply steady_uuid4
    | apply preserves_bind; [|intros ?]
    | apply preserves_for_in; intros ? ?
    | match goal with
      | |- preserves _ (if ?b then _ else _) => destruct b
      | |- preserves _ (match ?x with _ => _ end) => destruct x
      end
    | progress cbv zeta ].

Lemma steady_ingest_file_from_path path :
  preserves P (ingest_file_from_path path).
Proof. unfold ingest_file_from_path. steady. Qed.

Lemma steady_list_input_files input_dir allowed :
  preserves P (list_input_files input_dir allowed).
Proof. unfold list_input_files. steady. Qed.

Lemma steady_run_ingestion input_dir : preserves P (run_ingestion input_dir).
Proof.
  unfold run_ingestion, logging.info, logging.warning.
  pose proof steady_ingest_file_from_path.
  pose proof steady_list_input_files.
  steady; auto.
Qed.
End steady.

(** With handlers on the root logger, as [configure_run_logger] leaves
    it, a run of the ingestion does not touch the logging set-up: no
    handler is attached or removed, the level stays; and every record
    logged during the run, by the runner, the lister or the ingestor, is
    handed to exactly these handlers when its level reaches the level of
    the root logger, and to none otherwise. *)
Lemma run_ingestion_uses_sinks (input_dir : Path) (w : World) :
  root_handlers w ≠ [] →
  let w' := (run_ingestion input_dir w).2 in
  root_handlers w' = root_handlers w
  ∧ root_level w' = root_level w
  ∧ ∃ t, trace w' = (trace w ++ t)%list
         ∧ delivered (root_level w) (root_handlers w) t.
Proof.
  intros Hhs.
  set (P := λ w' : World,
    root_handlers w' = root_handlers w
    ∧ root_level w' = root_level w
    ∧ ∃ t, trace w' = (trace w ++ t)%list
           ∧ delivered (root_level w) (root_handlers w) t).
  assert (HL : ∀ name level text args,
    preserves P (logging.Logger_log name level text args)).
  { intros name level text args w1 (Hh & Hl & t & Ht & Hd).
    unfold logging.Logger_log. cbn [snd]. split; [done|]. split; [done|].
    eexists (t ++ [_])%list. cbn [trace emit]. rewrite Ht, (assoc_L (++)).
    split; [done|]. apply Forall_app. split; [done|].
    constructor; [|constructor]. cbn. by rewrite Hh, Hl. }
  assert (HG : ∀ level text args,
    preserves P (logging.log level text args)).
  { intros level text args w1 Hw1. pose proof Hw1 as (Hh & _).
    unfold logging.log, mbind, M_bind.
    destruct (root_handlers w1) as [|h hs] eqn:E; [congruence|].
    cbn [mret M_ret]. by apply HL. }
  assert (HO : ∀ c w1, writes c = false → P w1 → P (os_step c w1)).
  { intros c w1 _ (Hh & Hl & t & Ht & Hd). split; [done|]. split; [done|].
    exists (t ++ [ESys c])%list. cbn [trace os_step].
    rewrite Ht, (assoc_L (++)). split; [done|].
    apply Forall_app. split; [done|]. by repeat constructor. }
  apply (steady_run_ingestion P HL HG HO input_dir w).
  split; [done|]. split; [done|]. exists []. split; [by rewrite app_nil_r|].
  constructor.
Qed.

Lemma run_ingestion_uses_sinks_witness :
  let w := (configure_run_logger "cli_ingestion" logging.WARNING demo_world).2 in
  root_handlers (run_ingestion demo_input w).2 = root_handlers w
  ∧ ∃ t, trace (run_ingestion demo_input w).2 = (trace w ++ t)%list
         ∧ delivered logging.WARNING (root_handlers w) t.
Proof.
  intros w.
  assert (Hhs : root_handlers w ≠ []) by (vm_compute; discriminate).
  destruct (run_ingestion_uses_sinks demo_input w Hhs) as (H1 & _ & H2).
  split; [exact H1|exact H2].
Defined.
